(** * Spotify history viewer: a shallow embedding of [spotify_viewer.py]

    The development follows the order of the Python module: the values that
    [json.load] produces, the schema check [validate_content], the two
    formatters [ms_to_min] and [reformat_time], the in-place rewriting done by
    [display_content], the three ranking functions, and the control flow of
    [main] with the text it writes to [stats.txt]. *)

From Stdlib Require Import ZArith Ascii Floats.SpecFloat.
From stdpp Require Import gmap strings list pretty sorting.

#[local] Set Warnings "-register-all,-clear-no-such-hyp".
#[local] Open Scope Z_scope.

(** ** Python values *)

(** What [json.load] can return.  A JSON object becomes a [dict] with string
    keys; key order plays no part in any function modelled below except the
    column order of the table, which is left to the display. *)
Inductive value :=
  | VNone
  | VBool (b : bool)
  | VInt (z : Z)
  | VFloat (f : spec_float)
  | VStr (s : string)
  | VList (l : list value)
  | VDict (d : gmap string value).

(** The result of [type(v)]. *)
Inductive py_type := TNoneType | TBool | TInt | TFloat | TStr | TList | TDict.

#[global] Instance py_type_eq_dec : EqDecision py_type.
Proof. solve_decision. Defined.

Definition type_of (v : value) : py_type :=
  match v with
  | VNone => TNoneType
  | VBool _ => TBool
  | VInt _ => TInt
  | VFloat _ => TFloat
  | VStr _ => TStr
  | VList _ => TList
  | VDict _ => TDict
  end.

(** Truth value of an object, as tested by [if not content]. *)
Definition truthy (v : value) : bool :=
  match v with
  | VNone => false
  | VBool b => b
  | VInt z => negb (z =? 0)
  | VFloat f => match f with S754_zero _ => false | _ => true end
  | VStr s => negb (bool_decide (s = ""))
  | VList l => negb (bool_decide (length l = 0%nat))
  | VDict d => negb (bool_decide (dom d = ∅))
  end.

(** ** Exceptions *)

Inductive py_error :=
  | KeyError | TypeError | ValueError | AttributeError | IndexError
  | UnicodeEncodeError.

(** A call returns, raises, or leaves the fragment of Python covered here
    ([Beyond]): arithmetic and printing of floats, and track or artist names
    that are not strings.  Neither is reachable from [main], since [get_data]
    lets only validated records through. *)
Inductive outcome (A : Type) :=
  | Ok (a : A)
  | Raise (e : py_error)
  | Beyond.
Arguments Ok {A} a.
Arguments Raise {A} e.
Arguments Beyond {A}.

Definition bind {A B} (m : outcome A) (f : A → outcome B) : outcome B :=
  match m with
  | Ok a => f a
  | Raise e => Raise e
  | Beyond => Beyond
  end.

Notation "x ←! m ; k" := (bind m (λ x, k))
  (at level 20, m at level 100, k at level 200, right associativity,
   format "x  ←!  m ;  '/' k").

(** [entry[key]]: subscripting anything but a dict with a string fails with
    [TypeError], a missing key with [KeyError]. *)
Definition getitem (entry : value) (key : string) : outcome value :=
  match entry with
  | VDict d => match d !! key with Some v => Ok v | None => Raise KeyError end
  | _ => Raise TypeError
  end.

(** ** Validation *)

(** [TEMPLATE[0]]. *)
Definition TEMPLATE0 : gmap string value :=
  <["endTime" := VStr ""]> (<["artistName" := VStr ""]>
    (<["trackName" := VStr ""]> (<["msPlayed" := VInt 0]> ∅))).

Definition TEMPLATE : list (gmap string value) := [TEMPLATE0].

(** What [validate_content] does that can be observed: the messages it logs
    and, for each record, the fields on which the comparison of kinds
    (line 108) is evaluated. *)
Inductive event :=
  | Compare (index : nat) (key : string)
  | ErrEmpty
  | ErrKeys (index : nat)
  | ErrType (index : nat) (key : string) (expected received : py_type)
  | InfoMatches.

#[global] Instance event_eq_dec : EqDecision event.
Proof. solve_decision. Defined.

Section Validation.
(** The order in which [for key in template_keys] visits a set of strings:
    fixed within a run, but dependent on the hashes. *)
Variable set_iter : gset string → list string.

(** The inner loop over [template_keys] for the record at [index]:
    [Ok true] when every field has the kind of the template's. *)
Fixpoint check_types (index : nat) (entry template0 : gmap string value)
    (keys : list string) : list event * outcome bool :=
  match keys with
  | [] => ([], Ok true)
  | key :: keys' =>
    match entry !! key, template0 !! key with
    | Some v, Some t =>
      if decide (type_of v ≠ type_of t) then
        ([Compare index key; ErrType index key (type_of t) (type_of v)],
         Ok false)
      else
        let '(tr, r) := check_types index entry template0 keys' in
        (Compare index key :: tr, r)
    | _, _ => ([], Raise KeyError)
    end
  end.

(** The loop [for index, entry in enumerate(content)]. *)
Fixpoint validate_loop (index : nat) (content : list value)
    (template0 : gmap string value) (template_keys : gset string)
    : list event * outcome bool :=
  match content with
  | [] => ([InfoMatches], Ok true)
  | entry :: rest =>
    match entry with
    | VDict d =>
      if decide (dom d ≠ template_keys) then ([ErrKeys index], Ok false)
      else
        match check_types index d template0 (set_iter template_keys) with
        | (tr, Ok true) =>
          let '(tr', r) :=
            validate_loop (S index) rest template0 template_keys in
          (tr ++ tr', r)
        | (tr, r) => (tr, r)
        end
    | _ => ([], Raise AttributeError)
    end
  end.

Definition validate_content_trace (content : list value)
    (template : list (gmap string value)) : list event * outcome bool :=
  match content, template with
  | [], _ | _, [] => ([ErrEmpty], Ok false)
  | _, template0 :: _ => validate_loop 0 content template0 (dom template0)
  end.

Definition validate_content (content : list value)
    (template : list (gmap string value)) : outcome bool :=
  (validate_content_trace content template).2.
End Validation.

(** A record with the shape of the template: the four fields and no other,
    three strings and an integer. *)
Definition schema_keys : gset string :=
  {["endTime"; "artistName"; "trackName"; "msPlayed"]}.

Definition well_shaped (entry : value) : Prop :=
  ∃ d, entry = VDict d ∧ dom d = schema_keys ∧
    (∃ s, d !! "endTime" = Some (VStr s)) ∧
    (∃ s, d !! "artistName" = Some (VStr s)) ∧
    (∃ s, d !! "trackName" = Some (VStr s)) ∧
    (∃ z, d !! "msPlayed" = Some (VInt z)).

(** The extra promise of the data model: a playtime that is not negative. *)
Definition nonneg_playtime (entry : value) : Prop :=
  ∃ d z, entry = VDict d ∧ d !! "msPlayed" = Some (VInt z) ∧ 0 ≤ z.

Definition mk_record (end_time artist track : string) (ms : Z) : value :=
  VDict (<["endTime" := VStr end_time]> (<["artistName" := VStr artist]>
    (<["trackName" := VStr track]> (<["msPlayed" := VInt ms]> ∅)))).

(** ** Display formatting *)

Definition nl : string := String "010"%char "".

(** Printing an integer, as [str] and a replacement field of an f-string
    do.  Python integers are unbounded, but the interpreter refuses with
    [ValueError] to print one that has more decimal digits than
    [sys.int_max_str_digits], 4300 unless the interpreter was started with
    another limit; [pretty] prints an integer the way [str] does below the
    limit. *)
Definition int_max_str_digits : nat := 4300.

Definition num_digits (z : Z) : nat := String.length (pretty (Z.abs z)).

Definition str_int (z : Z) : outcome string :=
  if (num_digits z <=? int_max_str_digits)%nat then Ok (pretty z)
  else Raise ValueError.

(** [ms_to_min]: [//] and [%] are floor division and its remainder, which is
    what [Z.div] and [Z.modulo] are for a positive divisor; the f-string
    prints the minutes, then the seconds. *)
Definition ms_mins (ms : Z) : Z := ms `div` 60000.
Definition ms_sec (ms : Z) : Z := (ms `mod` 60000) `div` 1000.

Definition ms_to_min (ms : Z) : outcome string :=
  let mins := ms_mins ms in
  let sec := ms_sec ms in
  mins_text ←! str_int mins;
  sec_text ←! str_int sec;
  Ok (mins_text +:+ "m " +:+ sec_text +:+ "s").

(** [ms_to_min] applied to whatever the record holds: a bool is an int, a
    float is outside the model, anything else has no [//]. *)
Definition py_ms_to_min (v : value) : outcome string :=
  match v with
  | VInt z => ms_to_min z
  | VBool b => ms_to_min (Z.b2z b)
  | VFloat _ => Beyond
  | _ => Raise TypeError
  end.

(** *** The regular expression of [strptime]

    [datetime.strptime] turns the format into a regular expression and matches
    it against the start of the text with a backtracking matcher.  A matcher
    is modelled by the list of its ways to succeed, in the order the
    backtracking tries them.  Texts are sequences of characters with code
    point below 256, for which [\d] is [0-9]. *)
Definition rx (A : Type) : Type := string → list (A * string).

Definition rx_ret {A} (a : A) : rx A := λ s, [(a, s)].
Definition rx_bind {A B} (p : rx A) (f : A → rx B) : rx B :=
  λ s, flat_map (λ r : A * string, f r.1 r.2) (p s).
Definition rx_alt {A} (p q : rx A) : rx A := λ s, p s ++ q s.

Notation "x ←? p ; k" := (rx_bind p (λ x, k))
  (at level 20, p at level 100, k at level 200, right associativity,
   format "x  ←?  p ;  '/' k").
Infix "<|>" := rx_alt (at level 50, left associativity).

Definition code (c : ascii) : N := N_of_ascii c.

Definition between (lo hi : ascii) (c : ascii) : bool :=
  ((code lo <=? code c) && (code c <=? code hi))%N.
Arguments between (lo hi c)%_char.
Definition is_digit : ascii → bool := between "0" "9".
Definition is_char (x : ascii) (c : ascii) : bool := bool_decide (c = x).
Arguments is_char (x c)%_char.

(** [\s] for code points below 256. *)
Definition is_space (c : ascii) : bool :=
  between "009" "013" c || between "028" " " c ||
  is_char "133" c || is_char "160" c.

Definition digit_value (c : ascii) : Z := Z.of_N (code c) - 48.

Definition cls (p : ascii → bool) : rx ascii :=
  λ s, match s with
       | String c s' => if p c then [(c, s')] else []
       | EmptyString => []
       end.

Definition one (p : ascii → bool) : rx Z :=
  a ←? cls p; rx_ret (digit_value a).
Definition two (p q : ascii → bool) : rx Z :=
  a ←? cls p; b ←? cls q; rx_ret (10 * digit_value a + digit_value b).

(** [%Y]: [\d\d\d\d]. *)
Definition re_Y : rx Z :=
  a ←? one is_digit; b ←? one is_digit; c ←? one is_digit;
  d ←? one is_digit; rx_ret (1000 * a + 100 * b + 10 * c + d).
(** [%m]: [1[0-2]|0[1-9]|[1-9]]. *)
Definition re_m : rx Z :=
  two (is_char "1") (between "0" "2") <|> two (is_char "0") (between "1" "9")
  <|> one (between "1" "9").
(** [%d]: [3[01]|[12]\d|0[1-9]|[1-9]| [1-9]]. *)
Definition re_d : rx Z :=
  two (is_char "3") (between "0" "1") <|> two (between "1" "2") is_digit
  <|> two (is_char "0") (between "1" "9") <|> one (between "1" "9")
  <|> (_ ←? cls (is_char " "); one (between "1" "9")).
(** [%H]: [2[0-3]|[0-1]\d|\d]. *)
Definition re_H : rx Z :=
  two (is_char "2") (between "0" "3") <|> two (between "0" "1") is_digit
  <|> one is_digit.
(** [%M]: [[0-5]\d|\d]. *)
Definition re_M : rx Z := two (between "0" "5") is_digit <|> one is_digit.

(** [\s*], greedy: the longest run first, then shorter ones. *)
Fixpoint re_spaces0 (s : string) : list (unit * string) :=
  match s with
  | String c s' => if is_space c then re_spaces0 s' ++ [(tt, s)] else [(tt, s)]
  | EmptyString => [(tt, s)]
  end.
(** [\s+], which is what a blank of the format stands for. *)
Definition re_spaces : rx unit := _ ←? cls is_space; re_spaces0.

Record datetime := Datetime {
  year : Z; month : Z; day : Z; hour : Z; minute : Z
}.

(** The expression for ["%Y-%m-%d %H:%M"]. *)
Definition format_regex : rx datetime :=
  y ←? re_Y; _ ←? cls (is_char "-"); m ←? re_m; _ ←? cls (is_char "-");
  d ←? re_d; _ ←? re_spaces; H ←? re_H; _ ←? cls (is_char ":"); M ←? re_M;
  rx_ret (Datetime y m d H M).

Definition is_leap (y : Z) : bool :=
  (y `mod` 4 =? 0) && (negb (y `mod` 100 =? 0) || (y `mod` 400 =? 0)).

Definition days_in_month (y m : Z) : Z :=
  if m =? 2 then (if is_leap y then 29 else 28)
  else if (m =? 4) || (m =? 6) || (m =? 9) || (m =? 11) then 30 else 31.

(** The range checks of the [datetime] constructor. *)
Definition valid_datetime (dt : datetime) : bool :=
  (1 <=? year dt) && (year dt <=? 9999) &&
  (1 <=? month dt) && (month dt <=? 12) &&
  (1 <=? day dt) && (day dt <=? days_in_month (year dt) (month dt)) &&
  (0 <=? hour dt) && (hour dt <=? 23) &&
  (0 <=? minute dt) && (minute dt <=? 59).

(** [datetime.strptime(time_str, "%Y-%m-%d %H:%M")]: the first match of the
    expression must use up the whole text and denote a real date. *)
Definition strptime (time_str : string) : outcome datetime :=
  match format_regex time_str with
  | [] => Raise ValueError
  | (dt, rest) :: _ =>
    if bool_decide (rest = "") then
      if valid_datetime dt then Ok dt else Raise ValueError
    else Raise ValueError
  end.

Definition digit_char (d : Z) : ascii := ascii_of_N (Z.to_N (48 + d)).
Definition pad2 (n : Z) : string :=
  String (digit_char (n `div` 10)) (String (digit_char (n `mod` 10)) "").
Definition pad4 (n : Z) : string :=
  pad2 (n `div` 100) +:+ pad2 (n `mod` 100).

(** The text that the C library's [strftime] makes of a date and time for
    ["%m-%d-%Y %H:%M"]: month, day, hour and minute in two digits, and the
    year in decimal as glibc prints it, without padding, so in fewer than four
    digits before the year 1000. *)
Definition display_text (dt : datetime) : string :=
  pad2 (month dt) +:+ "-" +:+ pad2 (day dt) +:+ "-" +:+ pretty (year dt) +:+
  " " +:+ pad2 (hour dt) +:+ ":" +:+ pad2 (minute dt).

(** [dt.strftime("%m-%d-%Y %H:%M")]: the interpreter hands the fields to the
    C library. *)
Definition strftime (dt : datetime) : outcome string :=
  Ok (display_text dt).

Definition reformat_time (time_str : string) : outcome string :=
  dt ←! strptime time_str; strftime dt.

(** [reformat_time] applied to whatever the record holds: [strptime] wants a
    [str]. *)
Definition py_reformat_time (v : value) : outcome string :=
  match v with
  | VStr s => reformat_time s
  | _ => Raise TypeError
  end.

(** A text laid out exactly as [YYYY-MM-DD HH:MM]: sixteen characters, digits
    everywhere but at the four separators. *)
Definition strict_layout (s : string) : bool :=
  match s with
  | String y1 (String y2 (String y3 (String y4 (String s1 (String m1 (String m2
    (String s2 (String d1 (String d2 (String s3 (String h1 (String h2
    (String s4 (String n1 (String n2 EmptyString))))))))))))))) =>
    forallb is_digit [y1; y2; y3; y4; m1; m2; d1; d2; h1; h2; n1; n2] &&
    is_char "-" s1 && is_char "-" s2 && is_char " " s3 && is_char ":" s4
  | _ => false
  end.

(** The text [YYYY-MM-DD HH:MM] of a date and time. *)
Definition strict_text (dt : datetime) : string :=
  pad4 (year dt) +:+ "-" +:+ pad2 (month dt) +:+ "-" +:+ pad2 (day dt) +:+
  " " +:+ pad2 (hour dt) +:+ ":" +:+ pad2 (minute dt).

(** ** The rewriting loop of [display_content] *)

(** [entry[key] = v] on the dict [entry]. *)
Definition setitem (entry : value) (key : string) (v : value) : value :=
  match entry with
  | VDict d => VDict (<[key := v]> d)
  | _ => entry
  end.

(** One turn of the loop at lines 175-177.  The record is an object shared
    with the caller, so the turn yields the record as it is left behind, also
    when the turn raises: an exception in [reformat_time] leaves it untouched,
    one in [ms_to_min] leaves it with [endTime] already overwritten. *)
Definition normalize_entry (entry : value) : value * outcome unit :=
  match (t ←! getitem entry "endTime"; py_reformat_time t) with
  | Ok t' =>
    let entry1 := setitem entry "endTime" (VStr t') in
    match (m ←! getitem entry1 "msPlayed"; py_ms_to_min m) with
    | Ok m' => (setitem entry1 "msPlayed" (VStr m'), Ok tt)
    | Raise e => (entry1, Raise e)
    | Beyond => (entry1, Beyond)
    end
  | Raise e => (entry, Raise e)
  | Beyond => (entry, Beyond)
  end.

(** The loop over [content]: the records as the loop leaves them, and how it
    ends. *)
Fixpoint normalize_loop (content : list value) : list value * outcome unit :=
  match content with
  | [] => ([], Ok tt)
  | entry :: rest =>
    match normalize_entry entry with
    | (entry', Ok _) =>
      let '(rest', r) := normalize_loop rest in (entry' :: rest', r)
    | (entry', r) => (entry' :: rest, r)
    end
  end.

(** [display_content]: the records after the call, and either the rows handed
    to the table (the window opens) or the exception that ended the call
    before [mainloop].  The columns are the keys of the first record; a row
    holds the record's values under these keys. *)
Definition table_row (columns : gset string) (entry : value)
    : outcome (gmap string value) :=
  match entry with
  | VDict d =>
    if decide (columns ⊆ dom d) then Ok (filter (λ kv, kv.1 ∈ columns) d)
    else Raise KeyError
  | _ => Raise TypeError
  end.

Fixpoint traverse {A B} (f : A → outcome B) (l : list A) : outcome (list B) :=
  match l with
  | [] => Ok []
  | x :: l' => y ←! f x; ys ←! traverse f l'; Ok (y :: ys)
  end.

Definition display_content (content : list value)
    : list value * outcome (list (gmap string value)) :=
  match normalize_loop content with
  | (content', Ok _) =>
    (content',
     match content' with
     | [] => Raise IndexError
     | VDict first :: _ => traverse (table_row (dom first)) content'
     | _ => Raise AttributeError
     end)
  | (content', Raise e) => (content', Raise e)
  | (content', Beyond) => (content', Beyond)
  end.

(** ** Statistics *)

(** A [Counter] or [defaultdict(int)] with string keys: the items in the order
    in which the keys were first inserted, which is the order [items()] yields
    them in and so decides ties in the stable sorts below. *)
Fixpoint dict_add (d : list (string * Z)) (key : string) (v : Z)
    : list (string * Z) :=
  match d with
  | [] => [(key, 0 + v)]
  | (k, x) :: d' =>
    if decide (k = key) then (k, x + v) :: d'
    else (k, x) :: dict_add d' key v
  end.

(** [sorted(items, key=lambda x: x[1], reverse=True)]: a stable sort by
    descending score, as an insertion sort that puts an item in front of the
    first later item whose score is not greater. *)
Fixpoint insert_desc (x : string * Z) (l : list (string * Z))
    : list (string * Z) :=
  match l with
  | [] => [x]
  | y :: l' => if decide (y.2 ≤ x.2) then x :: l else y :: insert_desc x l'
  end.

Definition sorted_desc (items : list (string * Z)) : list (string * Z) :=
  foldr insert_desc [] items.

(** The slice [l[:n]] for an integer [n]; a negative [n] counts from the
    end. *)
Definition slice_to {A} (l : list A) (n : Z) : list A :=
  if n <? 0 then take (length l - Z.to_nat (- n)) l else take (Z.to_nat n) l.

(** [Counter.most_common(n)] is [heapq.nlargest(n, items, key=score)]: nothing
    for [n <= 0], else the first [n] items of the stable descending sort. *)
Definition most_common (counter : list (string * Z)) (n : Z)
    : list (string * Z) :=
  if n <=? 0 then [] else take (Z.to_nat n) (sorted_desc counter).

(** A key of the statistics must be hashable; only string keys are covered. *)
Definition hash_key (v : value) : outcome string :=
  match v with
  | VStr s => Ok s
  | VList _ | VDict _ => Raise TypeError
  | _ => Beyond
  end.

(** [0 + playtime] and [total + playtime] on an integer total. *)
Definition int_addend (v : value) : outcome Z :=
  match v with
  | VInt z => Ok z
  | VBool b => Ok (Z.b2z b)
  | VFloat _ => Beyond
  | _ => Raise TypeError
  end.

(** [Counter(track_names)]. *)
Fixpoint Counter (names : list value) (counter : list (string * Z))
    : outcome (list (string * Z)) :=
  match names with
  | [] => Ok counter
  | v :: names' => k ←! hash_key v; Counter names' (dict_add counter k 1)
  end.

Definition most_played_freq (content : list value) (top_n : Z)
    : outcome (list (string * Z)) :=
  track_names ←! traverse (λ entry, getitem entry "trackName") content;
  counter ←! Counter track_names [];
  Ok (most_common counter top_n).

(** The loop shared by the two playtime rankings, which differ in the field
    that names the key. *)
Fixpoint playtimes (field : string) (content : list value)
    (totals : list (string * Z)) : outcome (list (string * Z)) :=
  match content with
  | [] => Ok totals
  | entry :: rest =>
    name ←! getitem entry field;
    playtime ←! getitem entry "msPlayed";
    k ←! hash_key name;
    v ←! int_addend playtime;
    playtimes field rest (dict_add totals k v)
  end.

Definition most_played_by_playtime (content : list value) (top_n : Z)
    : outcome (list (string * Z)) :=
  track_playtimes ←! playtimes "trackName" content [];
  Ok (slice_to (sorted_desc track_playtimes) top_n).

Definition top_artist_by_playtime (content : list value) (top_n : Z)
    : outcome (list (string * Z)) :=
  artist_playtimes ←! playtimes "artistName" content [];
  Ok (slice_to (sorted_desc artist_playtimes) top_n).

(** ** The report and [main] *)

(** The argument of [file.write] in one turn of a loop over a ranking, the
    f-string [f"  {index + 1}. {key} - {value}\n"]: the rank is printed, then
    the key, then the value, which is the count itself in the first loop and
    [ms_to_min(time)] in the other two. *)
Definition entry_text (show : Z → outcome string) (index : nat)
    (key : string) (score : Z) : outcome string :=
  rank ←! str_int (Z.of_nat index + 1);
  value ←! show score;
  Ok ("  " +:+ rank +:+ ". " +:+ key +:+ " - " +:+ value +:+ nl).

Section Report.
(** Whether the encoding of the locale, which [open(output_file, "w")]
    selects, has a code for every character of a text. *)
Variable encodable : string → bool.

(** [file.write(text)] on the content of the file so far: the text is
    encoded as a whole before any of it is written, so a text that cannot be
    encoded raises [UnicodeEncodeError] and adds nothing. *)
Definition file_write (file text : string) : string * outcome unit :=
  if encodable text then (file +:+ text, Ok tt)
  else (file, Raise UnicodeEncodeError).

(** One of the three [for index, (key, score) in enumerate(ranking)] loops:
    each turn appends one line to the file.  The loop ends at the first line
    that cannot be made or written, with the file as the turns before left
    it. *)
Fixpoint write_entries (show : Z → outcome string) (index : nat)
    (ranking : list (string * Z)) (file : string) : string * outcome unit :=
  match ranking with
  | [] => (file, Ok tt)
  | (key, score) :: rest =>
    match entry_text show index key score with
    | Ok text =>
      match file_write file text with
      | (file', Ok _) => write_entries show (S index) rest file'
      | (file', r) => (file', r)
      end
    | Raise e => (file, Raise e)
    | Beyond => (file, Beyond)
    end
  end.

(** A step of the [with] block, run only if the steps before it ended
    without an exception. *)
Definition and_then (m : string * outcome unit)
    (k : string → string * outcome unit) : string * outcome unit :=
  match m with
  | (file, Ok _) => k file
  | (file, r) => (file, r)
  end.

(** The [with open(output_file, "w")] block of [main]: what it leaves in
    [stats.txt], which it has emptied on entry, and how it ends.  What was
    written before an exception stays in the file, which the [with] statement
    closes on the way out. *)
Definition write_report (top_freq top_playtime top_artist : list (string * Z))
    : string * outcome unit :=
  and_then (file_write "" ("Top 10 Most Played:" +:+ nl)) (λ file,
  and_then (write_entries str_int 0 top_freq file) (λ file,
  and_then (file_write file (nl +:+ "Top 10 Most Played by Playtime:" +:+ nl))
    (λ file,
  and_then (write_entries ms_to_min 0 top_playtime file) (λ file,
  and_then (file_write file (nl +:+ "Top 10 Artist by Playtime:" +:+ nl))
    (λ file,
  write_entries ms_to_min 0 top_artist file))))).
End Report.

(** The line the report format of the specification asks for. *)
Definition spec_line (rank : Z) (key value : string) : string :=
  pretty rank +:+ ". " +:+ key +:+ " - " +:+ value.

(** How a run ends. *)
Inductive ending :=
  | Exited (status : Z)
  | Returned
  | Uncaught (e : py_error)
  | Unmodelled.

(** What a run leaves behind: the content of [stats.txt] if it was opened
    for writing, the rows of the table if the window was opened, and how it
    ended. *)
Record run := Run {
  stats_file : option string;
  window : option (list (gmap string value));
  ending_of : ending
}.

Section Main.
Variable set_iter : gset string → list string.
Variable encodable : string → bool.

(** [get_data] on what [_read_file] returned: [None] after a load failure,
    else the parsed document.  [validate_content] iterates over its argument
    and asks each item for [keys()]: a document that is a non-empty dict or
    string yields strings, which have none, and a number cannot be iterated
    over. *)
Definition get_data (read : option value) : outcome (option (list value)) :=
  match read with
  | None => Ok None
  | Some content =>
    if negb (truthy content) then Ok None
    else
      match content with
      | VList l =>
        ok ←! validate_content set_iter l TEMPLATE;
        Ok (if ok : bool then Some l else None)
      | VDict _ | VStr _ => Raise AttributeError
      | _ => Raise TypeError
      end
  end.

Definition stopped (r : outcome run) : run :=
  match r with
  | Ok r => r
  | Raise e => Run None None (Uncaught e)
  | Beyond => Run None None Unmodelled
  end.

Definition main (read : option value) : run :=
  stopped (
    content ←! get_data read;
    match content with
    | Some ((_ :: _) as content) =>
      top_freq ←! most_played_freq content 10;
      top_playtime ←! most_played_by_playtime content 10;
      top_artist ←! top_artist_by_playtime content 10;
      Ok match write_report encodable top_freq top_playtime top_artist with
         | (file, Ok _) =>
           match (display_content content).2 with
           | Ok rows => Run (Some file) (Some rows) Returned
           | Raise e => Run (Some file) None (Uncaught e)
           | Beyond => Run (Some file) None Unmodelled
           end
         | (file, Raise e) => Run (Some file) None (Uncaught e)
         | (file, Beyond) => Run (Some file) None Unmodelled
         end
    | _ => Ok (Run None None (Exited 1))
    end).
End Main.

(** ** Logging *)

(** The ANSI escape sequences of lines 13-19. *)
Definition ESC : string := String "027"%char "".
Definition RESET : string := ESC +:+ "[0m".
Definition RED : string := ESC +:+ "[31m".
Definition GREEN : string := ESC +:+ "[32m".
Definition YELLOW : string := ESC +:+ "[33m".
Definition BOLD_BLUE : string := ESC +:+ "[1m" +:+ ESC +:+ "[34m".
Definition CYAN : string := ESC +:+ "[36m".
Definition BOLD_RED : string := ESC +:+ "[1m" +:+ ESC +:+ "[31m".

(** The fields of a [logging.LogRecord] that the formatter reads or
    writes; [created] is the time the record was made. *)
Record log_record := LogRecord {
  levelno : Z;
  levelname : string;
  msg : string;
  asctime : string;
  created : Z
}.

(** [log_colors.get(record.levelno, RESET)], the keys being the numbers of
    [logging.DEBUG] to [logging.CRITICAL]. *)
Definition log_color (level : Z) : string :=
  if level =? 10 then CYAN
  else if level =? 20 then GREEN
  else if level =? 30 then YELLOW
  else if level =? 40 then RED
  else if level =? 50 then BOLD_RED
  else RESET.

Section Logging.
(** [self.formatTime(record, self.datefmt)], which prints the time
    [record.created] in the local time zone. *)
Variable formatTime : Z → string.

(** [LogFormatter.format]: the record as the call leaves it, and the line
    returned. *)
Definition LogFormatter_format (record : log_record) : log_record * string :=
  let color := log_color (levelno record) in
  let record :=
    LogRecord (levelno record) (levelname record) (msg record)
      (BOLD_BLUE +:+ formatTime (created record) +:+ RESET) (created record) in
  let record :=
    LogRecord (levelno record) (color +:+ levelname record +:+ RESET)
      (msg record) (asctime record) (created record) in
  (record,
   asctime record +:+ ": " +:+ levelname record +:+ " - " +:+ msg record).

(** A logger with [handlers] handlers, each of them a [StreamHandler] with a
    [LogFormatter] as [init_logger] adds one: every handler formats the one
    record object in turn and writes the line. *)
Fixpoint emit (handlers : nat) (record : log_record) : list string :=
  match handlers with
  | O => []
  | S handlers' =>
    let '(record', line) := LogFormatter_format record in
    line :: emit handlers' record'
  end.
End Logging.

(** [init_logger] adds a new handler to the module's logger each time it is
    called. *)
Definition init_logger (handlers : nat) : nat := S handlers.

(** ** Vocabulary of the statements *)

(** The field [k] of the record [d] holds a value of the kind the template
    [t0] has there. *)
Definition kinds_match (d t0 : gmap string value) (k : string) : Prop :=
  ∃ v t, d !! k = Some v ∧ t0 !! k = Some t ∧ type_of v = type_of t.

(** The comparisons made for a run of records that pass, the first of which
    has index [n]. *)
Definition passing_trace (order : list string) (n : nat) (len : nat)
    : list event :=
  flat_map (λ i, Compare i <$> order) (seq n len).

(** The fields of the record at [index] on which the trace [tr] shows a
    comparison of kinds. *)
Definition compared (tr : list event) (index : nat) : list string :=
  omap (λ ev, match ev with
              | Compare i k => if decide (i = index) then Some k else None
              | _ => None
              end) tr.

(** A record with the four fields none of which has the right kind. *)
Definition all_wrong : value :=
  VDict (<["endTime" := VNone]> (<["artistName" := VNone]>
    (<["trackName" := VNone]> (<["msPlayed" := VNone]> ∅)))).

(** The string a record holds under [field], if it holds one. *)
Definition field_name (field : string) (entry : value) : option string :=
  match entry with
  | VDict d => match d !! field with Some (VStr s) => Some s | _ => None end
  | _ => None
  end.

(** The integer a record holds under [msPlayed], if it holds one. *)
Definition playtime_of (entry : value) : option Z :=
  match entry with
  | VDict d => match d !! "msPlayed" with Some (VInt z) => Some z | _ => None end
  | _ => None
  end.

(** The number of distinct keys a sequence of records has under [field]. *)
Definition distinct_keys (field : string) (content : list value) : nat :=
  size (list_to_set (omap (field_name field) content) : gset string).

(** A ranking whose scores never go up from one entry to a later one. *)
Definition non_increasing (ranking : list (string * Z)) : Prop :=
  ∀ i j x y, (i ≤ j)%nat →
    ranking !! i = Some x → ranking !! j = Some y → y.2 ≤ x.2.

Definition desc (x y : string * Z) : Prop := y.2 ≤ x.2.

(** The three records of the end-to-end scenario; the end times are left
    open, since no ranking reads them. *)
Definition scenario (t1 t2 t3 : string) : list value :=
  [mk_record t1 "artistX" "trackA" 30000;
   mk_record t2 "artistX" "trackA" 30000;
   mk_record t3 "artistY" "trackB" 600000].

(** The record's timestamp is one [reformat_time] returns on. *)
Definition timestamp_ok (entry : value) : Prop :=
  ∃ t t', getitem entry "endTime" = Ok (VStr t) ∧ reformat_time t = Ok t'.

(** The record's playtime is an integer [ms_to_min] returns on. *)
Definition playtime_ok (entry : value) : Prop :=
  ∃ ms m', getitem entry "msPlayed" = Ok (VInt ms) ∧ ms_to_min ms = Ok m'.

(** An integer that [str] prints: one of at most 4300 digits. *)
Definition printable (z : Z) : Prop :=
  (num_digits z ≤ int_max_str_digits)%nat.

(** The text [{mins}m {sec}s] of a playtime. *)
Definition duration_text (ms : Z) : string :=
  pretty (ms_mins ms) +:+ "m " +:+ pretty (ms_sec ms) +:+ "s".

(** [entry'] is [entry] with its timestamp replaced by the reformatted text
    and its integer playtime by the duration text. *)
Definition normalized (entry entry' : value) : Prop :=
  ∃ (d : gmap string value) t t' ms,
    entry = VDict d ∧ d !! "endTime" = Some (VStr t) ∧
    reformat_time t = Ok t' ∧ d !! "msPlayed" = Some (VInt ms) ∧
    entry' = VDict (<["msPlayed" := VStr (duration_text ms)]>
                      (<["endTime" := VStr t']> d)).

(** The text made of the given lines, each ended by a newline. *)
Definition unlines (lines : list string) : string :=
  foldr (λ line text, line +:+ nl +:+ text) "" lines.

(** The entry lines of a section of the report. *)
Definition entry_lines (show : Z → string) (ranking : list (string * Z))
    : list string :=
  imap (λ i kv, "  " +:+ spec_line (Z.of_nat i + 1) kv.1 (show kv.2)) ranking.

(** The lines of the report for three rankings. *)
Definition report_lines (top_freq top_playtime top_artist : list (string * Z))
    : list string :=
  ["Top 10 Most Played:"] ++ entry_lines pretty top_freq ++
  [""; "Top 10 Most Played by Playtime:"] ++
  entry_lines duration_text top_playtime ++
  [""; "Top 10 Artist by Playtime:"] ++
  entry_lines duration_text top_artist.

(** The texts one after the other. *)
Definition join (texts : list string) : string :=
  foldr (λ text rest, text +:+ rest) "" texts.

(** The texts that the [with] block of [main] hands to [file.write], in
    order: a heading, the entries of the first ranking, a heading that starts
    with an empty line, and so on. *)
Definition entry_writes (show : Z → string) (ranking : list (string * Z))
    : list string :=
  (λ line, line +:+ nl) <$> entry_lines show ranking.

Definition report_writes (top_freq top_playtime top_artist : list (string * Z))
    : list string :=
  ["Top 10 Most Played:" +:+ nl] ++ entry_writes pretty top_freq ++
  [nl +:+ "Top 10 Most Played by Playtime:" +:+ nl] ++
  entry_writes duration_text top_playtime ++
  [nl +:+ "Top 10 Artist by Playtime:" +:+ nl] ++
  entry_writes duration_text top_artist.

(** Writing a sequence of texts each of which is first to be made: the
    sequence ends at the first text that cannot be made or written. *)
Fixpoint write_all (encodable : string → bool)
    (requests : list (outcome string)) (file : string)
    : string * outcome unit :=
  match requests with
  | [] => (file, Ok tt)
  | Ok text :: requests' =>
    match file_write encodable file text with
    | (file', Ok _) => write_all encodable requests' file'
    | (file', r) => (file', r)
    end
  | Raise e :: _ => (file, Raise e)
  | Beyond :: _ => (file, Beyond)
  end.

(** The requests of a loop over a ranking that starts at [index], and those
    of the whole [with] block. *)
Definition entry_requests (show : Z → outcome string) (index : nat)
    (ranking : list (string * Z)) : list (outcome string) :=
  imap (λ i kv, entry_text show (index + i) kv.1 kv.2) ranking.

Definition report_requests
    (top_freq top_playtime top_artist : list (string * Z))
    : list (outcome string) :=
  [Ok ("Top 10 Most Played:" +:+ nl)] ++ entry_requests str_int 0 top_freq ++
  [Ok (nl +:+ "Top 10 Most Played by Playtime:" +:+ nl)] ++
  entry_requests ms_to_min 0 top_playtime ++
  [Ok (nl +:+ "Top 10 Artist by Playtime:" +:+ nl)] ++
  entry_requests ms_to_min 0 top_artist.

(** Two encodings for the examples: one that has a code for every
    character, as UTF-8 has, and one that has the ASCII characters only. *)
Definition any_text (text : string) : bool := true.

Fixpoint ascii_only (text : string) : bool :=
  match text with
  | EmptyString => true
  | String c rest => (code c <? 128)%N && ascii_only rest
  end.

(** The track name [café], whose last letter has the code point 233. *)
Definition cafe : string := "caf" +:+ String "233"%char "".

(** The first way in which a matcher succeeds. *)
Definition first_match {A} (l : list (A * string)) (r : A * string) : Prop :=
  ∃ tl, l = r :: tl.

(** *** The texts that ["%Y-%m-%d %H:%M"] reads

    Written out from the documentation of [strptime], not from the
    expression: the year takes four digits; month, day, hour and minute take
    two digits or one, the day also a blank and one digit; the blank of the
    format stands for one or more whitespace characters. *)
Definition digit_text (n : Z) : string := String (digit_char n) "".

Definition month_text (t : string) (m : Z) : Prop :=
  1 ≤ m ≤ 12 ∧ t = pad2 m ∨ 1 ≤ m ≤ 9 ∧ t = digit_text m.

Definition day_text (t : string) (d : Z) : Prop :=
  1 ≤ d ≤ 31 ∧ t = pad2 d ∨
  1 ≤ d ≤ 9 ∧ (t = digit_text d ∨ t = " " +:+ digit_text d).

Definition hour_text (t : string) (H : Z) : Prop :=
  0 ≤ H ≤ 23 ∧ t = pad2 H ∨ 0 ≤ H ≤ 9 ∧ t = digit_text H.

Definition minute_text (t : string) (M : Z) : Prop :=
  0 ≤ M ≤ 59 ∧ t = pad2 M ∨ 0 ≤ M ≤ 9 ∧ t = digit_text M.

Fixpoint all_space (s : string) : bool :=
  match s with
  | EmptyString => true
  | String c s' => is_space c && all_space s'
  end.

(** One or more whitespace characters. *)
Definition blank_run (s : string) : bool :=
  match s with
  | EmptyString => false
  | String c s' => is_space c && all_space s'
  end.

(** The text [s] is read as the date and time [dt]. *)
Definition reads (s : string) (dt : datetime) : Prop :=
  ∃ tm td ws tH tM,
    s = pad4 (year dt) +:+ "-" +:+ tm +:+ "-" +:+ td +:+ ws +:+ tH +:+ ":" +:+ tM ∧
    0 ≤ year dt ≤ 9999 ∧ month_text tm (month dt) ∧ day_text td (day dt) ∧
    blank_run ws = true ∧ hour_text tH (hour dt) ∧ minute_text tM (minute dt).

(** [d[key]] on a [Counter] or a [defaultdict(int)]: the stored total, and 0
    for a key that was never added. *)
Fixpoint dict_get (d : list (string * Z)) (key : string) : Z :=
  match d with
  | [] => 0
  | (k, x) :: d' => if decide (k = key) then x else dict_get d' key
  end.

(** The dictionary after adding the given amounts, one after the other. *)
Fixpoint add_all (items : list (string * Z)) (d : list (string * Z))
    : list (string * Z) :=
  match items with
  | [] => d
  | (k, v) :: items' => add_all items' (dict_add d k v)
  end.

(** The sum of [weight] over the records that hold [key] under [field]. *)
Fixpoint total_by (weight : value → Z) (field key : string)
    (content : list value) : Z :=
  match content with
  | [] => 0
  | entry :: rest =>
    (if decide (field_name field entry = Some key) then weight entry else 0)
    + total_by weight field key rest
  end.

(** How many records hold [key] under [field], and their summed playtime. *)
Definition count_of (field key : string) (content : list value) : Z :=
  total_by (λ _, 1) field key content.
Definition playtime_total (field key : string) (content : list value) : Z :=
  total_by (λ entry, default 0 (playtime_of entry)) field key content.

(** The distinct names of a list, in the order of their first occurrence. *)
Definition first_seen (names : list string) : list string :=
  foldl (λ seen k, if decide (k ∈ seen) then seen else seen ++ [k]) [] names.

(** What a validated record adds to the playtimes kept under [field]. *)
Definition play_item (field : string) (entry : value)
    : option (string * Z) :=
  k ← field_name field entry; z ← playtime_of entry; Some (k, z).

(** A record with the shape of an arbitrary template [t0]: a dict with the
    keys of [t0] and under each a value of the kind [t0] has there. *)
Definition matches_template (t0 : gmap string value) (entry : value) : Prop :=
  ∃ d, entry = VDict d ∧ dom d = dom t0 ∧
    ∀ k, k ∈ dom t0 → kinds_match d t0 k.

(** A text laid out exactly as [MM-DD-YYYY HH:MM]. *)
Definition display_layout (s : string) : bool :=
  match s with
  | String m1 (String m2 (String s1 (String d1 (String d2 (String s2 (String y1
    (String y2 (String y3 (String y4 (String s3 (String h1 (String h2
    (String s4 (String n1 (String n2 EmptyString))))))))))))))) =>
    forallb is_digit [m1; m2; d1; d2; y1; y2; y3; y4; h1; h2; n1; n2] &&
    is_char "-" s1 && is_char "-" s2 && is_char " " s3 && is_char ":" s4
  | _ => false
  end.

(** The fields of a date and time lie in the ranges the expression of
    [strptime] can read from a text in the exact layout. *)
Definition fields_in_range (dt : datetime) : Prop :=
  0 ≤ year dt ≤ 9999 ∧ 1 ≤ month dt ≤ 12 ∧ 1 ≤ day dt ≤ 31 ∧
  0 ≤ hour dt ≤ 23 ∧ 0 ≤ minute dt ≤ 59.

(** The character [c] does not occur in the text [s]. *)
Fixpoint lacks (c : ascii) (s : string) : Prop :=
  match s with
  | EmptyString => True
  | String x s' => x ≠ c ∧ lacks c s'
  end.

(** The text [s] put [n] times between the colour code [c] and [RESET]. *)
Fixpoint wrapped (n : nat) (c s : string) : string :=
  match n with
  | O => s
  | S n' => c +:+ wrapped n' c s +:+ RESET
  end.

(** The sum of the scores of a ranking, and the summed playtime of a list of
    records. *)
Definition sum_scores (ranking : list (string * Z)) : Z :=
  foldr (λ kv acc, kv.2 + acc) 0 ranking.
Definition total_playtime (content : list value) : Z :=
  foldr (λ entry acc, default 0 (playtime_of entry) + acc) 0 content.

(** Case analysis on an integer known to lie in a short range. *)
Ltac enum_range x lo len :=
  let Hin := fresh "Hin" in
  assert (Hin : x ∈ seqZ lo len) by (apply elem_of_seqZ; lia);
  let l := eval vm_compute in (seqZ lo len) in
  change (seqZ lo len) with l in Hin;
  repeat (apply elem_of_cons in Hin as [-> | Hin]);
  [.. | by apply elem_of_nil in Hin].

(** * Facts about validation *)

Lemma dom_TEMPLATE0 : dom TEMPLATE0 = schema_keys.
Proof. unfold TEMPLATE0, schema_keys. rewrite !dom_insert_L. set_solver. Qed.

Lemma well_shaped_kinds (d : gmap string value) :
  well_shaped (VDict d) ↔
  dom d = schema_keys ∧ ∀ k, k ∈ schema_keys → kinds_match d TEMPLATE0 k.
Proof.
  split.
  - intros (d' & [= <-] & Hdom & (s1 & H1) & (s2 & H2) & (s3 & H3) & (z & H4)).
    split; [done|]. intros k Hk. unfold schema_keys in Hk.
    apply elem_of_union in Hk as [Hk|Hk%elem_of_singleton];
      [apply elem_of_union in Hk as [Hk|Hk%elem_of_singleton];
        [apply elem_of_union in Hk as [Hk%elem_of_singleton|Hk%elem_of_singleton]|]|];
      subst k; eexists _, _; (split; [eassumption|]); split; reflexivity.
  - intros [Hdom Hk]. exists d. split; [done|]. split; [done|].
    assert (Hget : ∀ k, k ∈ schema_keys → ∀ t, TEMPLATE0 !! k = Some t →
                   ∃ v, d !! k = Some v ∧ type_of v = type_of t).
    { intros k Hin t Ht. destruct (Hk k Hin) as (v & t' & Hv & Ht' & Hty).
      exists v. split; [done|]. congruence. }
    repeat split.
    + destruct (Hget "endTime" ltac:(set_solver) (VStr "") eq_refl)
        as (v & Hv & Hty). destruct v; try discriminate. eauto.
    + destruct (Hget "artistName" ltac:(set_solver) (VStr "") eq_refl)
        as (v & Hv & Hty). destruct v; try discriminate. eauto.
    + destruct (Hget "trackName" ltac:(set_solver) (VStr "") eq_refl)
        as (v & Hv & Hty). destruct v; try discriminate. eauto.
    + destruct (Hget "msPlayed" ltac:(set_solver) (VInt 0) eq_refl)
        as (v & Hv & Hty). destruct v; try discriminate. eauto.
Qed.

Section ValidationFacts.
Variable set_iter : gset string → list string.
Hypothesis set_iter_perm : ∀ s, set_iter s ≡ₚ elements s.

Lemma set_iter_elem s k : k ∈ set_iter s ↔ k ∈ s.
Proof. rewrite (set_iter_perm s). apply elem_of_elements. Qed.

(** The inner loop either passes every key, or stops at the first key whose
    kind differs. *)
Lemma check_types_cases index d t0 keys :
  (∀ k, k ∈ keys → is_Some (d !! k) ∧ is_Some (t0 !! k)) →
  (Forall (kinds_match d t0) keys ∧
   check_types index d t0 keys = (Compare index <$> keys, Ok true)) ∨
  (∃ passed key later v t,
     keys = passed ++ key :: later ∧ Forall (kinds_match d t0) passed ∧
     d !! key = Some v ∧ t0 !! key = Some t ∧ type_of v ≠ type_of t ∧
     check_types index d t0 keys =
       ((Compare index <$> passed) ++
          [Compare index key; ErrType index key (type_of t) (type_of v)],
        Ok false)).
Proof.
  induction keys as [|key keys IH]; intros Hkeys.
  - left. split; [constructor|done].
  - destruct (Hkeys key ltac:(left)) as [[v Hv] [t Ht]].
    simpl. rewrite Hv, Ht. destruct (decide (type_of v ≠ type_of t)) as [Hne|Heq].
    + right. exists [], key, keys, v, t. repeat split; try done.
    + apply dec_stable in Heq.
      destruct IH as [[Hall ->]|(passed & k & later & v' & t' & -> & Hall & Hv' & Ht' & Hne & ->)].
      { intros k Hk. apply Hkeys. by right. }
      * left. split; [|done]. constructor; [|done]. by exists v, t.
      * right. exists (key :: passed), k, later, v', t'.
        repeat split; try done. constructor; [|done]. by exists v, t.
Qed.

Lemma schema_keys_present (d : gmap string value) k :
  dom d = schema_keys → k ∈ set_iter schema_keys →
  is_Some (d !! k) ∧ is_Some (TEMPLATE0 !! k).
Proof.
  intros Hdom Hk%set_iter_elem. split; apply elem_of_dom.
  - by rewrite Hdom.
  - by rewrite dom_TEMPLATE0.
Qed.

Lemma check_types_pass index (d : gmap string value) :
  well_shaped (VDict d) →
  check_types index d TEMPLATE0 (set_iter schema_keys) =
    (Compare index <$> set_iter schema_keys, Ok true).
Proof.
  intros [Hdom Hk]%well_shaped_kinds.
  destruct (check_types_cases index d TEMPLATE0 (set_iter schema_keys))
    as [[_ ->]|(passed & key & later & v & t & Hkeys & _ & Hv & Ht & Hne & _)];
    [by intros; apply schema_keys_present|done|].
  destruct (Hk key) as (v' & t' & Hv' & Ht' & Heq).
  { apply set_iter_elem. rewrite Hkeys. apply elem_of_app. right. left. }
  congruence.
Qed.

Lemma passing_trace_cons order n len :
  passing_trace order n (S len) =
    (Compare n <$> order) ++ passing_trace order (S n) len.
Proof. done. Qed.

Lemma passing_trace_snoc order n len :
  passing_trace order n (S len) =
    passing_trace order n len ++ (Compare (n + len)%nat <$> order).
Proof.
  unfold passing_trace. rewrite seq_S, flat_map_app. simpl.
  by rewrite app_nil_r.
Qed.

(** Records that pass only add their comparisons to the trace. *)
Lemma validate_loop_passing n pre rest :
  Forall well_shaped pre →
  validate_loop set_iter n (pre ++ rest) TEMPLATE0 schema_keys =
    let '(tr, r) := validate_loop set_iter (n + length pre) rest
                      TEMPLATE0 schema_keys in
    (passing_trace (set_iter schema_keys) n (length pre) ++ tr, r).
Proof.
  intros Hpre. revert n. induction Hpre as [|entry pre Hentry Hpre IH]; intros n.
  - simpl. rewrite Nat.add_0_r. by destruct (validate_loop _ _ _ _ _).
  - destruct Hentry as (d & -> & Hd).
    assert (Hshape : well_shaped (VDict d)) by (exists d; done).
    simpl. destruct (decide (dom d ≠ schema_keys)) as [Hne|_].
    { by destruct Hd. }
    rewrite (check_types_pass n d Hshape), IH.
    replace (n + S (length pre))%nat with (S n + length pre)%nat by lia.
    destruct (validate_loop _ _ rest _ _) as [tr r].
    by rewrite passing_trace_cons, app_assoc.
Qed.

Lemma validate_loop_true n content tr :
  validate_loop set_iter n content TEMPLATE0 schema_keys = (tr, Ok true) →
  Forall well_shaped content.
Proof.
  revert n tr. induction content as [|entry content IH]; intros n tr Hrun.
  - constructor.
  - simpl in Hrun. destruct entry as [| | | | | |d]; try discriminate.
    destruct (decide (dom d ≠ schema_keys)) as [|Hdom%dec_stable];
      [discriminate|].
    destruct (check_types_cases n d TEMPLATE0 (set_iter schema_keys))
      as [[Hall Hrun']|(passed & key & later & v & t & _ & _ & _ & _ & _ & Hrun')];
      [by intros; apply schema_keys_present| |];
      rewrite Hrun' in Hrun; [|discriminate].
    destruct (validate_loop _ _ content _ _) as [tr' r] eqn:Hrest.
    injection Hrun as _ ->. constructor; [|by eapply IH].
    apply well_shaped_kinds. split; [done|].
    intros k Hk. rewrite Forall_forall in Hall. by apply Hall, set_iter_elem.
Qed.

(** Validation against [TEMPLATE] answers true on exactly the non-empty
    sequences of well-shaped records. *)
Lemma validate_content_true_iff content :
  validate_content set_iter content TEMPLATE = Ok true ↔
  content ≠ [] ∧ Forall well_shaped content.
Proof.
  unfold validate_content, validate_content_trace, TEMPLATE.
  rewrite dom_TEMPLATE0. split.
  - destruct content as [|entry content]; [discriminate|].
    destruct (validate_loop _ _ _ _ _) as [tr r] eqn:Hrun. simpl.
    intros ->. split; [done|]. by eapply validate_loop_true.
  - intros [Hne Hall]. destruct content as [|entry content]; [done|].
    rewrite <- (app_nil_r (entry :: content)).
    by rewrite (validate_loop_passing 0 _ [] Hall).
Qed.

(** On a sequence of dicts the check always answers, true or false. *)
Lemma validate_loop_dicts n (records : list (gmap string value)) :
  ∃ tr b, validate_loop set_iter n (VDict <$> records) TEMPLATE0 schema_keys
          = (tr, Ok b).
Proof.
  revert n. induction records as [|d records IH]; intros n; [by eexists _, _|].
  rewrite fmap_cons. cbn [validate_loop]. destruct (decide (dom d ≠ schema_keys)) as [|Hdom%dec_stable];
    [by eexists _, _|].
  destruct (check_types_cases n d TEMPLATE0 (set_iter schema_keys))
    as [[_ ->]|(? & ? & ? & ? & ? & _ & _ & _ & _ & _ & ->)];
    [by intros; apply schema_keys_present| |by eexists _, _].
  destruct (IH (S n)) as (tr & b & ->). by eexists _, _.
Qed.

Lemma validate_content_dicts (records : list (gmap string value)) :
  ∃ b, validate_content set_iter (VDict <$> records) TEMPLATE = Ok b.
Proof.
  unfold validate_content, validate_content_trace, TEMPLATE.
  rewrite dom_TEMPLATE0. destruct records as [|d records]; [by eexists|].
  destruct (validate_loop_dicts 0 (d :: records)) as (tr & b & Hrun).
  exists b. rewrite fmap_cons in Hrun |- *. by rewrite Hrun.
Qed.

(** The record after a passing prefix decides the run when it is not
    well-shaped, whatever follows it. *)
Lemma validate_loop_offender n (bad : gmap string value) :
  ¬ well_shaped (VDict bad) →
  ∃ last,
    (∀ rest, validate_loop set_iter n (VDict bad :: rest) TEMPLATE0
               schema_keys = (last, Ok false)) ∧
    (last = [ErrKeys n] ∧ dom bad ≠ schema_keys ∨
     ∃ passed key later v t,
       set_iter schema_keys = passed ++ key :: later ∧
       Forall (kinds_match bad TEMPLATE0) passed ∧
       bad !! key = Some v ∧ TEMPLATE0 !! key = Some t ∧
       type_of v ≠ type_of t ∧
       last = (Compare n <$> passed) ++
                [Compare n key; ErrType n key (type_of t) (type_of v)]).
Proof.
  intros Hbad. simpl.
  destruct (decide (dom bad ≠ schema_keys)) as [Hne|Hdom%dec_stable].
  { exists [ErrKeys n]. split; [done|by left]. }
  destruct (check_types_cases n bad TEMPLATE0 (set_iter schema_keys))
    as [[Hall _]|(passed & key & later & v & t & Hk & Hall & Hv & Ht & Hne & ->)];
    [by intros; apply schema_keys_present| |].
  - destruct Hbad. apply well_shaped_kinds. split; [done|].
    intros k Hk. rewrite Forall_forall in Hall.
    by apply Hall, set_iter_elem.
  - eexists. split; [done|]. right. by exists passed, key, later, v, t.
Qed.
End ValidationFacts.

(** C1 (amended): on every record sequence for which [validate_content]
    answers true against [TEMPLATE], each record has exactly the four fields
    [endTime], [artistName], [trackName] and [msPlayed], the first three
    holding strings and the last an integer.  Nothing is promised about the
    sign of that integer. *)
Theorem validated_records_match_template set_iter content :
  (∀ s, set_iter s ≡ₚ elements s) →
  validate_content set_iter content TEMPLATE = Ok true →
  Forall well_shaped content.
Proof.
  intros Hperm Hrun. by apply (validate_content_true_iff set_iter Hperm).
Qed.

Lemma validated_records_match_template_witness :
  validate_content elements
    [mk_record "2023-01-05 14:30" "artistX" "trackA" 30000] TEMPLATE = Ok true ∧
  Forall well_shaped [mk_record "2023-01-05 14:30" "artistX" "trackA" 30000].
Proof.
  split; [vm_compute; reflexivity|].
  apply (validated_records_match_template elements);
    [intros s; reflexivity | vm_compute; reflexivity].
Defined.

(** C1, as stated, fails: a record whose [msPlayed] is [-1] passes the check,
    so passing does not make the playtime non-negative. *)
Lemma negative_playtime_passes :
  validate_content elements
    [mk_record "2023-01-05 14:30" "artistX" "trackA" (-1)] TEMPLATE = Ok true ∧
  ¬ Forall nonneg_playtime
      [mk_record "2023-01-05 14:30" "artistX" "trackA" (-1)].
Proof.
  split; [vm_compute; reflexivity|].
  intros Hall. apply Forall_cons_1 in Hall as [(d & z & Hd & Hz & Hpos) _].
  injection Hd as <-. vm_compute in Hz. injection Hz as <-. lia.
Qed.

(** C7: a sequence of records one of which holds a boolean under [msPlayed]
    is answered with false: [bool] is not the kind [int] of the template. *)
Theorem bool_playtime_rejected set_iter
    (records : list (gmap string value)) r b :
  (∀ s, set_iter s ≡ₚ elements s) →
  r ∈ records → r !! "msPlayed" = Some (VBool b) →
  validate_content set_iter (VDict <$> records) TEMPLATE = Ok false.
Proof.
  intros Hperm Hin Hb.
  destruct (validate_content_dicts set_iter Hperm records) as [[] Hrun];
    [|done].
  apply (validate_content_true_iff set_iter Hperm) in Hrun as [_ Hall].
  rewrite Forall_forall in Hall.
  destruct (Hall (VDict r)) as (d & [= <-] & _ & _ & _ & _ & z & Hz).
  { by apply list_elem_of_fmap_2. }
  congruence.
Qed.

Lemma bool_playtime_rejected_witness :
  validate_content elements
    (VDict <$> [<["endTime" := VStr "2023-01-05 14:30"]>
                 (<["artistName" := VStr "artistX"]>
                   (<["trackName" := VStr "trackA"]>
                     (<["msPlayed" := VBool true]> ∅)))]) TEMPLATE = Ok false.
Proof.
  eapply (bool_playtime_rejected elements _ _ true);
    [intros s; reflexivity | apply list_elem_of_here | vm_compute; reflexivity].
Defined.

(** C5 (amended): validation ends at the first record that is not
    well-shaped, with the answer false and without looking at what follows
    it; within that record the fields are compared in iteration order only up
    to the first one whose kind differs, which is the one reported. *)
Theorem validation_stops_at_first_mismatch set_iter pre
    (bad : gmap string value) :
  (∀ s, set_iter s ≡ₚ elements s) →
  Forall well_shaped pre → ¬ well_shaped (VDict bad) →
  ∃ last,
    (∀ rest,
       validate_content_trace set_iter (pre ++ VDict bad :: rest) TEMPLATE =
         (passing_trace (set_iter schema_keys) 0 (length pre) ++ last,
          Ok false)) ∧
    (last = [ErrKeys (length pre)] ∧ dom bad ≠ schema_keys ∨
     ∃ passed key later v t,
       set_iter schema_keys = passed ++ key :: later ∧
       Forall (kinds_match bad TEMPLATE0) passed ∧
       bad !! key = Some v ∧ TEMPLATE0 !! key = Some t ∧
       type_of v ≠ type_of t ∧
       last = (Compare (length pre) <$> passed) ++
                [Compare (length pre) key;
                 ErrType (length pre) key (type_of t) (type_of v)]).
Proof.
  intros Hperm Hpre Hbad.
  assert (Htrace : ∀ rest,
    validate_content_trace set_iter (pre ++ VDict bad :: rest) TEMPLATE =
    let '(tr, r) := validate_loop set_iter (length pre) (VDict bad :: rest)
                      TEMPLATE0 schema_keys in
    (passing_trace (set_iter schema_keys) 0 (length pre) ++ tr, r)).
  { intros rest. unfold validate_content_trace, TEMPLATE.
    rewrite dom_TEMPLATE0.
    rewrite <- (validate_loop_passing set_iter Hperm 0 pre _ Hpre).
    by destruct pre. }
  destruct (validate_loop_offender set_iter Hperm (length pre) bad Hbad)
    as (last & Hrun & Hlast).
  exists last. split; [|done].
  intros rest. by rewrite Htrace, Hrun.
Qed.

Lemma validation_stops_at_first_mismatch_witness :
  ∃ last,
    (∀ rest,
       validate_content_trace elements
         ([mk_record "2023-01-05 14:30" "artistX" "trackA" 30000] ++
          all_wrong :: rest) TEMPLATE =
         (passing_trace (elements schema_keys) 0 1 ++ last, Ok false)) ∧
    length last = 2%nat.
Proof.
  destruct (validation_stops_at_first_mismatch elements
              [mk_record "2023-01-05 14:30" "artistX" "trackA" 30000]
              (<["endTime" := VNone]> (<["artistName" := VNone]>
                (<["trackName" := VNone]> (<["msPlayed" := VNone]> ∅)))))
    as (last & Hrun & Hlast).
  - intros s. reflexivity.
  - apply (validate_content_true_iff elements);
      [intros s; reflexivity | vm_compute; reflexivity].
  - intros (d & [= <-] & _ & (s & Hs) & _). vm_compute in Hs. discriminate.
  - exists last. split; [exact Hrun|].
    specialize (Hrun []). vm_compute in Hrun.
    injection Hrun as Hrun. revert Hrun.
    repeat (destruct last as [|? last]; try discriminate). done.
Defined.

(** C5, as stated, fails in its second half: on a record whose four fields
    all have the wrong kind the check compares a single field and stops. *)
Lemma mismatch_ends_record_check :
  (validate_content_trace elements [all_wrong] TEMPLATE).2 = Ok false ∧
  compared (validate_content_trace elements [all_wrong] TEMPLATE).1 0
    = ["msPlayed"] ∧
  ¬ (∀ k, k ∈ schema_keys →
       k ∈ compared (validate_content_trace elements [all_wrong] TEMPLATE).1 0).
Proof.
  split; [vm_compute; reflexivity|]. split; [vm_compute; reflexivity|].
  intros Hall. specialize (Hall "endTime" ltac:(set_solver)).
  vm_compute in Hall. apply list_elem_of_singleton in Hall. discriminate.
Qed.

(** * The duration formatter *)

Lemma mk_record_well_shaped end_time artist track ms :
  well_shaped (mk_record end_time artist track ms).
Proof.
  eexists. split; [reflexivity|]. split.
  { unfold schema_keys. rewrite !dom_insert_L. set_solver. }
  repeat split; eexists; by simplify_map_eq.
Qed.

Lemma pretty_negative (z : Z) : z < 0 → pretty z = "-" +:+ pretty (- z).
Proof. destruct z; [lia|lia|reflexivity]. Qed.

(** ** Printing integers *)

Lemma pretty_N_go_length x s :
  String.length (pretty_N_go x s) =
    (String.length (pretty_N_go x "") + String.length s)%nat.
Proof.
  revert s. induction (N.lt_wf_0 x) as [x _ IH]; intros s.
  destruct (decide (0 < x)%N) as [Hpos|Hzero].
  - rewrite !(pretty_N_go_step x) by done.
    assert (Hlt : (x `div` 10 < x)%N) by (by apply N.div_lt).
    rewrite (IH _ Hlt (String _ s)), (IH _ Hlt (String _ "")).
    simpl. lia.
  - assert (x = 0%N) as -> by lia. by rewrite !pretty_N_go_0.
Qed.

(** A positive number is printed in at most [n] digits exactly when it is
    below [10 ^ n]. *)
Lemma pretty_N_go_digits n x :
  (String.length (pretty_N_go x "") ≤ n)%nat ↔ (x < 10 ^ N.of_nat n)%N.
Proof.
  revert x. induction n as [|n IH]; intros x.
  - destruct (decide (0 < x)%N) as [Hpos|Hzero].
    + rewrite pretty_N_go_step, pretty_N_go_length by done. simpl.
      change (10 ^ 0)%N with 1%N. lia.
    + assert (x = 0%N) as -> by lia. rewrite pretty_N_go_0. simpl.
      change (10 ^ 0)%N with 1%N. lia.
  - rewrite Nat2N.inj_succ, N.pow_succ_r'.
    destruct (decide (0 < x)%N) as [Hpos|Hzero].
    + rewrite pretty_N_go_step, pretty_N_go_length by done. simpl.
      rewrite Nat.add_1_r, <- Nat.succ_le_mono, IH.
      generalize (10 ^ N.of_nat n)%N. intros b.
      pose proof (N.div_mod x 10 ltac:(done)) as Hdiv.
      pose proof (N.mod_lt x 10 ltac:(done)) as Hmod.
      revert Hdiv Hmod. generalize (x `div` 10)%N (x `mod` 10)%N.
      intros q r. lia.
    + assert (x = 0%N) as -> by lia. rewrite pretty_N_go_0. simpl.
      assert (0 < 10 ^ N.of_nat n)%N
        by (apply N.neq_0_lt_0, N.pow_nonzero; lia).
      lia.
Qed.

Lemma num_digits_bound n z :
  (1 ≤ n)%nat → (num_digits z ≤ n)%nat ↔ Z.abs z < 10 ^ Z.of_nat n.
Proof.
  intros Hn. unfold num_digits.
  assert (Hpow : 10 ^ Z.of_nat n = Z.of_N (10 ^ N.of_nat n)).
  { by rewrite N2Z.inj_pow, nat_N_Z. }
  destruct (Z.abs z) as [|p|p] eqn:Habs; [| |lia].
  - simpl. split; [intros _|intros _; lia].
    apply Z.pow_pos_nonneg; lia.
  - change (pretty (Z.pos p)) with (pretty_N_go (N.pos p) "").
    rewrite pretty_N_go_digits, Hpow. lia.
Qed.

(** The integers that [str] prints are those below [10 ^ 4300] in absolute
    value. *)
Lemma printable_iff z : printable z ↔ Z.abs z < 10 ^ 4300.
Proof.
  unfold printable.
  rewrite num_digits_bound by (unfold int_max_str_digits; lia). done.
Qed.

Lemma printable_le a b : Z.abs a ≤ Z.abs b → printable b → printable a.
Proof. rewrite !printable_iff. generalize (10 ^ 4300). lia. Qed.

Lemma printable_small z : Z.abs z ≤ 99 → printable z.
Proof.
  intros Hz. apply (printable_le z 99); [lia|].
  apply Nat.leb_le. vm_compute. reflexivity.
Qed.

Lemma str_int_ok z : printable z → str_int z = Ok (pretty z).
Proof.
  intros Hz. unfold str_int.
  by destruct (Nat.leb_spec (num_digits z) int_max_str_digits);
    [|unfold printable in Hz; lia].
Qed.

Lemma str_int_raise z : ¬ printable z → str_int z = Raise ValueError.
Proof.
  intros Hz. unfold str_int.
  destruct (Nat.leb_spec (num_digits z) int_max_str_digits); [|done].
  by destruct Hz.
Qed.

Lemma str_int_inv z text : str_int z = Ok text → printable z ∧ text = pretty z.
Proof.
  unfold str_int, printable.
  destruct (Nat.leb_spec (num_digits z) int_max_str_digits); [|discriminate].
  by intros [= <-].
Qed.

Lemma str_int_error z e : str_int z = Raise e → e = ValueError.
Proof. unfold str_int. case_match; congruence. Qed.

Lemma str_int_not_beyond z : str_int z ≠ Beyond.
Proof. unfold str_int. case_match; congruence. Qed.

(** ** Texts *)

Lemma append_cons x (a b : string) : String x a +:+ b = String x (a +:+ b).
Proof. reflexivity. Qed.

Lemma append_assoc (a b c : string) : (a +:+ b) +:+ c = a +:+ b +:+ c.
Proof. induction a as [|x a IH]; [done|]. by rewrite !append_cons, IH. Qed.

Lemma append_empty_r (a : string) : a +:+ "" = a.
Proof. induction a as [|x a IH]; [done|]. by rewrite append_cons, IH. Qed.

Lemma append_empty_l (a : string) : "" +:+ a = a.
Proof. reflexivity. Qed.

Lemma pretty_N_char_digit x : is_digit (pretty_N_char x) = true.
Proof. unfold pretty_N_char. by repeat case_match. Qed.

Lemma pretty_N_go_lacks c x s :
  is_digit c = false → lacks c s → lacks c (pretty_N_go x s).
Proof.
  intros Hc. revert s. induction (N.lt_wf_0 x) as [x _ IH]; intros s Hs.
  destruct (decide (0 < x)%N) as [Hpos|Hzero].
  - rewrite pretty_N_go_step by done. apply IH.
    + by apply N.div_lt.
    + split; [|done]. intros <-. by rewrite pretty_N_char_digit in Hc.
  - assert (x = 0%N) as -> by lia. by rewrite pretty_N_go_0.
Qed.

Lemma pretty_Z_lacks c (z : Z) :
  is_digit c = false → c ≠ "-"%char → lacks c (pretty z).
Proof.
  intros Hc Hdash.
  assert (Hn : ∀ n : N, lacks c (pretty n)).
  { intros n. unfold pretty, pretty_N. case_decide.
    - split; [|done]. intros <-. discriminate.
    - by apply pretty_N_go_lacks. }
  destruct z as [|q|q].
  - split; [|done]. intros <-. discriminate.
  - apply (Hn (N.pos q)).
  - split; [done|]. apply (Hn (N.pos q)).
Qed.

(** A text is cut in one way only at the first occurrence of a character. *)
Lemma append_split c s1 s2 r1 r2 :
  lacks c s1 → lacks c s2 →
  s1 +:+ String c r1 = s2 +:+ String c r2 → s1 = s2 ∧ r1 = r2.
Proof.
  revert s2. induction s1 as [|x s1 IH]; intros [|y s2] H1 H2 Heq.
  - by injection Heq as ->.
  - injection Heq as <- _. by destruct H2.
  - injection Heq as -> _. by destruct H1.
  - rewrite !append_cons in Heq. injection Heq as -> Heq.
    destruct H1 as [_ H1], H2 as [_ H2].
    destruct (IH s2 H1 H2 Heq) as [-> ->]. done.
Qed.

(** ** [ms_to_min] *)

Lemma ms_sec_range ms : 0 ≤ ms_sec ms ≤ 59.
Proof. unfold ms_sec. Z.div_mod_to_equations. lia. Qed.

Lemma ms_to_min_ok ms :
  printable (ms_mins ms) → ms_to_min ms = Ok (duration_text ms).
Proof.
  intros Hmins. unfold ms_to_min. cbv zeta.
  rewrite (str_int_ok _ Hmins). simpl.
  rewrite str_int_ok; [done|].
  apply printable_small. pose proof (ms_sec_range ms). lia.
Qed.

Lemma ms_to_min_raise ms :
  ¬ printable (ms_mins ms) → ms_to_min ms = Raise ValueError.
Proof.
  intros Hmins. unfold ms_to_min. cbv zeta. by rewrite (str_int_raise _ Hmins).
Qed.

Lemma ms_to_min_inv ms text :
  ms_to_min ms = Ok text → printable (ms_mins ms) ∧ text = duration_text ms.
Proof.
  intros Hrun. destruct (decide (printable (ms_mins ms))) as [Hp|Hp].
  - split; [done|]. rewrite (ms_to_min_ok _ Hp) in Hrun. congruence.
  - rewrite (ms_to_min_raise _ Hp) in Hrun. discriminate.
Qed.

Lemma ms_to_min_error ms e : ms_to_min ms = Raise e → e = ValueError.
Proof.
  destruct (decide (printable (ms_mins ms))) as [Hp|Hp].
  - by rewrite (ms_to_min_ok _ Hp).
  - rewrite (ms_to_min_raise _ Hp). congruence.
Qed.

Lemma ms_to_min_not_beyond ms : ms_to_min ms ≠ Beyond.
Proof.
  destruct (decide (printable (ms_mins ms))) as [Hp|Hp].
  - by rewrite (ms_to_min_ok _ Hp).
  - by rewrite (ms_to_min_raise _ Hp).
Qed.

(** A playtime that [json.load] can have read, one of at most 4300 digits,
    has minutes that can be printed. *)
Lemma ms_mins_printable ms : printable ms → printable (ms_mins ms).
Proof.
  apply printable_le. unfold ms_mins. Z.div_mod_to_equations. lia.
Qed.

(** C10 (amended): [ms_to_min] needs no precondition on the sign, but it is
    not total.  It returns the text [{mins}m {sec}s] when the minutes are
    below [10 ^ 4300] in absolute value, which they are for every playtime of
    at most 4300 digits, and raises [ValueError] otherwise.  A record with a
    negative playtime passes validation; its minutes are negative, printed
    with a leading minus sign, and its seconds still lie between 0 and 59, as
    in [ms_to_min(-1) = "-1m 59s"]. *)
Theorem ms_to_min_negative set_iter end_time artist track ms :
  (∀ s, set_iter s ≡ₚ elements s) →
  (Z.abs (ms_mins ms) < 10 ^ 4300 → ms_to_min ms = Ok (duration_text ms)) ∧
  (10 ^ 4300 ≤ Z.abs (ms_mins ms) → ms_to_min ms = Raise ValueError) ∧
  (Z.abs ms < 10 ^ 4300 → Z.abs (ms_mins ms) < 10 ^ 4300) ∧
  (ms < 0 →
     validate_content set_iter [mk_record end_time artist track ms] TEMPLATE
       = Ok true ∧
     ms_mins ms < 0 ∧ 0 ≤ ms_sec ms ≤ 59 ∧
     duration_text ms =
       "-" +:+ pretty (- ms_mins ms) +:+ "m " +:+ pretty (ms_sec ms) +:+ "s") ∧
  ms_to_min (-1) = Ok "-1m 59s".
Proof.
  intros Hperm. split_and!.
  - intros Hmins. by apply ms_to_min_ok, printable_iff.
  - intros Hmins. apply ms_to_min_raise. rewrite printable_iff.
    revert Hmins. generalize (10 ^ 4300). lia.
  - rewrite <- !printable_iff. apply ms_mins_printable.
  - intros Hneg.
    assert (Hmins : ms_mins ms < 0).
    { unfold ms_mins. apply Z.div_lt_upper_bound; lia. }
    split_and!; [|done|apply ms_sec_range..|].
    + apply (validate_content_true_iff set_iter Hperm). split; [done|].
      constructor; [apply mk_record_well_shaped|constructor].
    + unfold duration_text. by rewrite (pretty_negative _ Hmins).
  - by vm_compute.
Qed.

Lemma ms_to_min_negative_witness :
  -61500 < 0 ∧ ms_to_min (-61500) = Ok "-2m 58s" ∧ ms_mins (-61500) = -2 ∧
  ms_sec (-61500) = 58.
Proof.
  split; [reflexivity|]. split; [|split; vm_compute; reflexivity].
  destruct (ms_to_min_negative elements "2023-01-05 14:30" "artistX" "trackA"
              (-61500)) as (Hok & _ & _ & Hneg & _); [intros s; reflexivity|].
  destruct Hneg as (_ & _ & _ & Htext); [reflexivity|].
  rewrite Hok, Htext; [vm_compute; reflexivity|].
  vm_compute. reflexivity.
Defined.

(** C10, as stated, fails: [ms_to_min] is not total.  On the negative
    playtime [-(60000 * 10 ^ 4300)] the minutes are [-(10 ^ 4300)], a number
    of 4301 digits, and printing them raises [ValueError]. *)
Lemma ms_to_min_fails_above_the_digit_limit :
  - (60000 * 10 ^ 4300) < 0 ∧
  ms_mins (- (60000 * 10 ^ 4300)) = - 10 ^ 4300 ∧
  ms_to_min (- (60000 * 10 ^ 4300)) = Raise ValueError.
Proof.
  assert (Hpos : 0 < 10 ^ 4300) by (by apply Z.pow_pos_nonneg).
  assert (Hmins : ms_mins (- (60000 * 10 ^ 4300)) = - 10 ^ 4300).
  { unfold ms_mins. generalize dependent (10 ^ 4300). intros x Hx.
    Z.div_mod_to_equations. lia. }
  split; [revert Hpos; generalize (10 ^ 4300); lia|]. split; [done|].
  apply ms_to_min_raise. rewrite Hmins, printable_iff.
  revert Hpos. generalize (10 ^ 4300). lia.
Qed.

(** * The rankings *)

Lemma insert_desc_perm x l : insert_desc x l ≡ₚ x :: l.
Proof.
  induction l as [|y l IH]; [done|]. simpl.
  destruct (decide (y.2 ≤ x.2)); [done|].
  rewrite IH. apply Permutation_swap.
Qed.

Lemma sorted_desc_perm items : sorted_desc items ≡ₚ items.
Proof.
  induction items as [|x items IH]; [done|]. unfold sorted_desc in *. simpl.
  by rewrite insert_desc_perm, IH.
Qed.

Lemma insert_desc_sorted x l :
  StronglySorted desc l → StronglySorted desc (insert_desc x l).
Proof.
  induction 1 as [|y l Hl IH Hy]; simpl.
  - repeat constructor.
  - destruct (decide (y.2 ≤ x.2)) as [Hle|Hgt].
    + constructor; [by constructor|]. constructor; [done|].
      eapply Forall_impl; [exact Hy|]. unfold desc. intros z Hz. lia.
    + constructor; [done|]. rewrite insert_desc_perm.
      constructor; [unfold desc; lia|done].
Qed.

Lemma sorted_desc_sorted items : StronglySorted desc (sorted_desc items).
Proof.
  induction items as [|x items IH]; [constructor|].
  by apply insert_desc_sorted.
Qed.

Lemma sorted_non_increasing l : StronglySorted desc l → non_increasing l.
Proof.
  induction 1 as [|x l Hl IH Hx]; intros i j a b Hij Ha Hb.
  - by rewrite lookup_nil in Ha.
  - destruct i as [|i], j as [|j]; simpl in *; try lia.
    + injection Ha as <-. injection Hb as <-. lia.
    + injection Ha as <-. rewrite Forall_forall in Hx.
      apply Hx. by eapply list_elem_of_lookup_2.
    + eapply IH; [|done..]. lia.
Qed.

Lemma take_non_increasing n l : non_increasing l → non_increasing (take n l).
Proof.
  intros Hl i j a b Hij [Ha _]%lookup_take_Some [Hb _]%lookup_take_Some.
  by eapply Hl.
Qed.

(** Adding to a dictionary keeps the keys distinct and inserts at most the
    key added. *)
Lemma dict_add_keys d k v :
  NoDup d.*1 →
  NoDup (dict_add d k v).*1 ∧
  (list_to_set (dict_add d k v).*1 : gset string) = {[k]} ∪ list_to_set d.*1.
Proof.
  induction d as [|[k' x] d IH]; intros Hnd.
  - split; [apply NoDup_singleton|]. simpl. clear. set_solver.
  - rewrite fmap_cons in Hnd. apply NoDup_cons in Hnd as [Hk' Hnd].
    cbn [dict_add]. destruct (decide (k' = k)) as [->|Hne]; rewrite !fmap_cons; cbn [fst].
    + split; [by apply NoDup_cons|]. rewrite !list_to_set_cons. clear. set_solver.
    + destruct (IH Hnd) as [Hnd' Hset]. rewrite !list_to_set_cons, Hset. split.
      * apply NoDup_cons. split; [|done].
        intros Hin%(elem_of_list_to_set (C:=gset string)).
        rewrite Hset in Hin.
        apply elem_of_union in Hin as [Hin%elem_of_singleton|Hin]; [done|].
        by apply Hk', (elem_of_list_to_set (C:=gset string)).
      * clear. set_solver.
Qed.

Lemma Counter_names names counter :
  NoDup counter.*1 →
  ∃ c, Counter (VStr <$> names) counter = Ok c ∧ NoDup c.*1 ∧
    (list_to_set c.*1 : gset string) =
      list_to_set counter.*1 ∪ list_to_set names.
Proof.
  revert counter. induction names as [|k names IH]; intros counter Hnd.
  - exists counter. split; [done|]. split; [done|]. clear. set_solver.
  - destruct (dict_add_keys counter k 1 Hnd) as [Hnd' Hset].
    destruct (IH _ Hnd') as (c & Hc & Hndc & Hsetc).
    exists c. split; [exact Hc|]. split; [done|]. rewrite Hsetc, Hset.
    clear. set_solver.
Qed.

Lemma well_shaped_fields entry :
  well_shaped entry →
  (∃ s, getitem entry "trackName" = Ok (VStr s) ∧
        field_name "trackName" entry = Some s) ∧
  (∃ s, getitem entry "artistName" = Ok (VStr s) ∧
        field_name "artistName" entry = Some s) ∧
  (∃ s, getitem entry "endTime" = Ok (VStr s)) ∧
  (∃ z, getitem entry "msPlayed" = Ok (VInt z) ∧ playtime_of entry = Some z).
Proof.
  intros (d & -> & _ & (s1 & H1) & (s2 & H2) & (s3 & H3) & (z & H4)).
  simpl. rewrite H1, H2, H3, H4. naive_solver.
Qed.

Lemma traverse_track_names content :
  Forall well_shaped content →
  traverse (λ entry, getitem entry "trackName") content =
    Ok (VStr <$> omap (field_name "trackName") content).
Proof.
  induction 1 as [|entry content Hentry _ IH]; [done|].
  destruct (well_shaped_fields entry Hentry) as ((s & Hget & Hname) & _).
  cbn [traverse omap list_omap]. rewrite Hget, Hname, IH. done.
Qed.

Lemma playtimes_keys field content totals :
  field = "trackName" ∨ field = "artistName" →
  Forall well_shaped content → NoDup totals.*1 →
  ∃ t, playtimes field content totals = Ok t ∧ NoDup t.*1 ∧
    (list_to_set t.*1 : gset string) =
      list_to_set totals.*1 ∪ list_to_set (omap (field_name field) content).
Proof.
  intros Hfield Hall. revert totals.
  induction Hall as [|entry content Hentry _ IH]; intros totals Hnd.
  - exists totals. split; [done|]. split; [done|]. clear. set_solver.
  - destruct (well_shaped_fields entry Hentry)
      as ((s1 & Hg1 & Hn1) & (s2 & Hg2 & Hn2) & _ & (z & Hz & _)).
    assert (∃ s, getitem entry field = Ok (VStr s) ∧
                 field_name field entry = Some s) as (s & Hg & Hn).
    { destruct Hfield as [-> | ->]; eauto. }
    destruct (dict_add_keys totals s z Hnd) as [Hnd' Hset].
    destruct (IH _ Hnd') as (t & Ht & Hndt & Hsett).
    exists t. cbn [playtimes omap list_omap]. rewrite Hg, Hz, Hn. simpl.
    split; [exact Ht|]. split; [done|]. rewrite Hsett, Hset. clear.
    set_solver.
Qed.

Lemma top_of_sorted n (items : list (string * Z)) (keys : list string) :
  NoDup items.*1 →
  (list_to_set items.*1 : gset string) = list_to_set keys →
  length (take n (sorted_desc items)) =
    Nat.min n (size (list_to_set keys : gset string)) ∧
  non_increasing (take n (sorted_desc items)).
Proof.
  intros Hnd Hset. split.
  - rewrite length_take, (Permutation_length (sorted_desc_perm items)).
    by rewrite <- Hset, size_list_to_set, length_fmap.
  - apply take_non_increasing, sorted_non_increasing, sorted_desc_sorted.
Qed.

(** C6: on a non-empty validated sequence and for [top_n >= 1], the three
    aggregation functions return rankings of length
    [min(top_n, number of distinct keys)] with non-increasing scores. *)
Theorem rankings_length_and_order set_iter content top_n :
  (∀ s, set_iter s ≡ₚ elements s) →
  validate_content set_iter content TEMPLATE = Ok true → 1 ≤ top_n →
  ∃ top_freq top_playtime top_artist,
    most_played_freq content top_n = Ok top_freq ∧
    most_played_by_playtime content top_n = Ok top_playtime ∧
    top_artist_by_playtime content top_n = Ok top_artist ∧
    length top_freq =
      Nat.min (Z.to_nat top_n) (distinct_keys "trackName" content) ∧
    length top_playtime =
      Nat.min (Z.to_nat top_n) (distinct_keys "trackName" content) ∧
    length top_artist =
      Nat.min (Z.to_nat top_n) (distinct_keys "artistName" content) ∧
    non_increasing top_freq ∧ non_increasing top_playtime ∧
    non_increasing top_artist.
Proof.
  intros Hperm Hvalid Hn.
  apply (validate_content_true_iff set_iter Hperm) in Hvalid as [_ Hall].
  destruct (Counter_names (omap (field_name "trackName") content) [])
    as (c & Hc & Hndc & Hsetc); [constructor|].
  destruct (playtimes_keys "trackName" content [] ltac:(by left) Hall)
    as (t & Ht & Hndt & Hsett); [constructor|].
  destruct (playtimes_keys "artistName" content [] ltac:(by right) Hall)
    as (a & Ha & Hnda & Hseta); [constructor|].
  rewrite fmap_nil, list_to_set_nil, (left_id_L ∅ (∪)) in Hsetc, Hsett, Hseta.
  destruct (top_of_sorted (Z.to_nat top_n) c _ Hndc Hsetc) as [Hlc Hsc].
  destruct (top_of_sorted (Z.to_nat top_n) t _ Hndt Hsett) as [Hlt Hst].
  destruct (top_of_sorted (Z.to_nat top_n) a _ Hnda Hseta) as [Hla Hsa].
  exists (take (Z.to_nat top_n) (sorted_desc c)),
    (take (Z.to_nat top_n) (sorted_desc t)),
    (take (Z.to_nat top_n) (sorted_desc a)).
  unfold most_played_freq, most_played_by_playtime, top_artist_by_playtime.
  rewrite (traverse_track_names content Hall). simpl. rewrite Hc, Ht, Ha. simpl.
  unfold most_common, slice_to.
  destruct (Z.leb_spec top_n 0); [lia|]. destruct (Z.ltb_spec top_n 0); [lia|].
  done.
Qed.

Lemma rankings_length_and_order_witness :
  validate_content elements
    (scenario "2023-01-05 14:30" "2023-01-05 14:35" "2023-01-05 14:40")
    TEMPLATE = Ok true ∧
  ∃ top_freq top_playtime top_artist,
    most_played_freq
      (scenario "2023-01-05 14:30" "2023-01-05 14:35" "2023-01-05 14:40") 1
      = Ok top_freq ∧
    most_played_by_playtime
      (scenario "2023-01-05 14:30" "2023-01-05 14:35" "2023-01-05 14:40") 1
      = Ok top_playtime ∧
    top_artist_by_playtime
      (scenario "2023-01-05 14:30" "2023-01-05 14:35" "2023-01-05 14:40") 1
      = Ok top_artist ∧
    length top_freq = 1%nat ∧ length top_playtime = 1%nat ∧
    length top_artist = 1%nat.
Proof.
  split; [vm_compute; reflexivity|].
  destruct (rankings_length_and_order elements
              (scenario "2023-01-05 14:30" "2023-01-05 14:35"
                 "2023-01-05 14:40") 1)
    as (f & p & a & Hf & Hp & Ha & Hlf & Hlp & Hla & _);
    [intros s; reflexivity | vm_compute; reflexivity | lia |].
  exists f, p, a. repeat split; assumption.
Defined.

(** C2: on the three records (trackA, artistX, 30000), (trackA, artistX,
    30000), (trackB, artistY, 600000) and with [top_n = 2], the ranking by
    frequency is [(trackA, 2), (trackB, 1)], the ranking of tracks by playtime
    is [(trackB, 600000), (trackA, 60000)] and the ranking of artists by
    playtime is [(artistY, 600000), (artistX, 60000)]. *)
Theorem scenario_rankings t1 t2 t3 :
  most_played_freq (scenario t1 t2 t3) 2 = Ok [("trackA", 2); ("trackB", 1)] ∧
  most_played_by_playtime (scenario t1 t2 t3) 2
    = Ok [("trackB", 600000); ("trackA", 60000)] ∧
  top_artist_by_playtime (scenario t1 t2 t3) 2
    = Ok [("artistY", 600000); ("artistX", 60000)].
Proof. repeat split; vm_compute; reflexivity. Qed.

(** * The rewriting loop *)

Lemma playtime_ok_printable entry ms :
  playtime_ok entry → getitem entry "msPlayed" = Ok (VInt ms) →
  ms_to_min ms = Ok (duration_text ms).
Proof.
  intros (ms' & m' & Hms' & Hrun) Hms. rewrite Hms in Hms'.
  injection Hms' as <-. by apply ms_to_min_ok, (ms_to_min_inv ms m').
Qed.

Lemma normalize_entry_ok entry :
  well_shaped entry → timestamp_ok entry → playtime_ok entry →
  ∃ entry', normalize_entry entry = (entry', Ok tt) ∧ normalized entry entry'.
Proof.
  intros (d & -> & _ & _ & _ & _ & (ms & Hms)) (t & t' & Ht & Ht') Hplay.
  simpl in Ht. destruct (d !! "endTime") as [v|] eqn:Hend; [|done].
  injection Ht as ->.
  eexists. split; [|by exists d, t, t', ms].
  unfold normalize_entry. simpl. rewrite Hend. simpl. rewrite Ht'.
  rewrite lookup_insert_ne, Hms by done. simpl.
  rewrite (playtime_ok_printable (VDict d) ms Hplay); [done|].
  simpl. by rewrite Hms.
Qed.

Lemma normalize_entry_raises entry t e :
  getitem entry "endTime" = Ok (VStr t) → reformat_time t = Raise e →
  normalize_entry entry = (entry, Raise e).
Proof. intros Ht He. unfold normalize_entry. rewrite Ht. simpl. by rewrite He. Qed.

(** On a record of the right shape whose timestamp reformats, a turn of the
    loop either rewrites both fields or, if the playtime cannot be printed,
    stops with [ValueError] after it has overwritten [endTime]. *)
Lemma normalize_entry_cases (d : gmap string value) t t' :
  well_shaped (VDict d) → d !! "endTime" = Some (VStr t) →
  reformat_time t = Ok t' →
  ∃ d', (normalize_entry (VDict d) = (VDict d', Ok tt) ∨
         normalize_entry (VDict d) = (VDict d', Raise ValueError)) ∧
        d' !! "endTime" = Some (VStr t').
Proof.
  intros (d0 & [= <-] & _ & _ & _ & _ & (ms & Hms)) Hend Ht'.
  unfold normalize_entry. simpl. rewrite Hend. simpl. rewrite Ht'.
  rewrite lookup_insert_ne, Hms by done. simpl.
  destruct (ms_to_min ms) as [m'|e|] eqn:Hrun.
  - eexists. split; [by left|].
    by rewrite lookup_insert_ne, lookup_insert_eq.
  - apply ms_to_min_error in Hrun as ->.
    eexists. split; [by right|]. by rewrite lookup_insert_eq.
  - by apply ms_to_min_not_beyond in Hrun.
Qed.

Lemma normalize_loop_ok content :
  Forall well_shaped content → Forall timestamp_ok content →
  Forall playtime_ok content →
  ∃ content', normalize_loop content = (content', Ok tt) ∧
    Forall2 normalized content content'.
Proof.
  induction 1 as [|entry content Hentry _ IH]; intros Hok Hplay.
  - exists []. split; [done|constructor].
  - apply Forall_cons_1 in Hok as [Hok1 Hok].
    apply Forall_cons_1 in Hplay as [Hplay1 Hplay].
    destruct (normalize_entry_ok entry Hentry Hok1 Hplay1)
      as (entry' & Hrun & Hn).
    destruct (IH Hok Hplay) as (content' & Hloop & Hall).
    exists (entry' :: content'). simpl. rewrite Hrun, Hloop.
    split; [done|by constructor].
Qed.

(** The loop stops at the first timestamp that [reformat_time] rejects: the
    records before it are rewritten, the others are as they were. *)
Lemma normalize_loop_raises pre bad rest t e :
  Forall well_shaped pre → Forall timestamp_ok pre → Forall playtime_ok pre →
  getitem bad "endTime" = Ok (VStr t) → reformat_time t = Raise e →
  ∃ pre', normalize_loop (pre ++ bad :: rest) = (pre' ++ bad :: rest, Raise e) ∧
    Forall2 normalized pre pre'.
Proof.
  intros Hpre Hok Hplay Ht He. induction Hpre as [|entry pre Hentry _ IH].
  - exists []. split; [|constructor].
    simpl. by rewrite (normalize_entry_raises bad t e Ht He).
  - apply Forall_cons_1 in Hok as [Hok1 Hok].
    apply Forall_cons_1 in Hplay as [Hplay1 Hplay].
    destruct (normalize_entry_ok entry Hentry Hok1 Hplay1)
      as (entry' & Hrun & Hn).
    destruct (IH Hok Hplay) as (pre' & Hloop & Hall).
    exists (entry' :: pre'). simpl. rewrite Hrun, Hloop.
    split; [done|by constructor].
Qed.

(** Whether or not the playtimes before it can be printed, a timestamp that
    [reformat_time] rejects ends the loop with [ValueError], the only
    exception of the two formatters. *)
Lemma normalize_loop_value_error pre bad rest t :
  Forall well_shaped pre → Forall timestamp_ok pre →
  getitem bad "endTime" = Ok (VStr t) → reformat_time t = Raise ValueError →
  (normalize_loop (pre ++ bad :: rest)).2 = Raise ValueError.
Proof.
  intros Hpre Hok Ht He. induction Hpre as [|entry pre Hentry _ IH].
  - simpl. by rewrite (normalize_entry_raises bad t ValueError Ht He).
  - apply Forall_cons_1 in Hok as [(t1 & t1' & Ht1 & Ht1') Hok].
    pose proof Hentry as (d & -> & _).
    simpl in Ht1. destruct (d !! "endTime") as [v|] eqn:Hend; [|done].
    injection Ht1 as ->.
    assert (Hcases : ∃ d',
      (normalize_entry (VDict d) = (VDict d', Ok tt) ∨
       normalize_entry (VDict d) = (VDict d', Raise ValueError)) ∧
      d' !! "endTime" = Some (VStr t1')).
    { by apply (normalize_entry_cases d t1 t1'). }
    destruct Hcases as (d' & [Hrun|Hrun] & _); rewrite <- app_comm_cons;
      cbn [normalize_loop]; rewrite Hrun; [|done].
    specialize (IH Hok).
    by destruct (normalize_loop (pre ++ bad :: rest)).
Qed.

(** C3 (amended): [display_content] does not leave its input alone.  On a
    validated sequence all of whose timestamps reformat and all of whose
    playtimes print, it overwrites every record in place: [endTime] then
    holds the reformatted text and [msPlayed] the duration text instead of
    the integer; the other two fields and the set of fields of the record
    are kept. *)
Theorem display_content_rewrites_in_place set_iter content :
  (∀ s, set_iter s ≡ₚ elements s) →
  validate_content set_iter content TEMPLATE = Ok true →
  Forall timestamp_ok content → Forall playtime_ok content →
  Forall2 normalized content (display_content content).1.
Proof.
  intros Hperm Hvalid Hok Hplay.
  apply (validate_content_true_iff set_iter Hperm) in Hvalid as [_ Hall].
  destruct (normalize_loop_ok content Hall Hok Hplay)
    as (content' & Hloop & Hn).
  unfold display_content. by rewrite Hloop.
Qed.

Lemma display_content_rewrites_in_place_witness :
  validate_content elements
    [mk_record "2023-01-05 14:30" "artistX" "trackA" 65000] TEMPLATE
    = Ok true ∧
  Forall2 normalized [mk_record "2023-01-05 14:30" "artistX" "trackA" 65000]
    (display_content
       [mk_record "2023-01-05 14:30" "artistX" "trackA" 65000]).1.
Proof.
  split; [vm_compute; reflexivity|].
  apply (display_content_rewrites_in_place elements);
    [intros s; reflexivity | vm_compute; reflexivity | |].
  - constructor; [|constructor].
    exists "2023-01-05 14:30", "01-05-2023 14:30".
    split; vm_compute; reflexivity.
  - constructor; [|constructor].
    exists 65000, "1m 5s". split; vm_compute; reflexivity.
Defined.

(** C3, as stated, fails: after [display_content] the one record of this
    validated sequence holds the texts ["01-05-2023 14:30"] and ["1m 5s"]
    where it held ["2023-01-05 14:30"] and the integer 65000. *)
Lemma display_content_mutates_input :
  validate_content elements
    [mk_record "2023-01-05 14:30" "artistX" "trackA" 65000] TEMPLATE
    = Ok true ∧
  (display_content [mk_record "2023-01-05 14:30" "artistX" "trackA" 65000]).1
    = [VDict (<["endTime" := VStr "01-05-2023 14:30"]>
               (<["artistName" := VStr "artistX"]>
                 (<["trackName" := VStr "trackA"]>
                   (<["msPlayed" := VStr "1m 5s"]> ∅))))] ∧
  (display_content [mk_record "2023-01-05 14:30" "artistX" "trackA" 65000]).1
    ≠ [mk_record "2023-01-05 14:30" "artistX" "trackA" 65000].
Proof.
  split; [vm_compute; reflexivity|].
  assert (Hrun :
    (display_content [mk_record "2023-01-05 14:30" "artistX" "trackA" 65000]).1
    = [VDict (<["endTime" := VStr "01-05-2023 14:30"]>
               (<["artistName" := VStr "artistX"]>
                 (<["trackName" := VStr "trackA"]>
                   (<["msPlayed" := VStr "1m 5s"]> ∅))))]).
  { vm_compute. reflexivity. }
  split; [exact Hrun|]. rewrite Hrun. intros Heq.
  apply (f_equal (λ l : list value, playtime_of <$> l)) in Heq.
  vm_compute in Heq. discriminate.
Qed.

(** * The run *)

(** On validated records the three rankings are always computed. *)
Lemma rankings_total content top_n :
  Forall well_shaped content →
  ∃ top_freq top_playtime top_artist,
    most_played_freq content top_n = Ok top_freq ∧
    most_played_by_playtime content top_n = Ok top_playtime ∧
    top_artist_by_playtime content top_n = Ok top_artist.
Proof.
  intros Hall.
  destruct (Counter_names (omap (field_name "trackName") content) [])
    as (c & Hc & _); [constructor|].
  destruct (playtimes_keys "trackName" content [] ltac:(by left) Hall)
    as (t & Ht & _); [constructor|].
  destruct (playtimes_keys "artistName" content [] ltac:(by right) Hall)
    as (a & Ha & _); [constructor|].
  unfold most_played_freq, most_played_by_playtime, top_artist_by_playtime.
  rewrite (traverse_track_names content Hall). simpl. rewrite Hc, Ht, Ha.
  by eexists _, _, _.
Qed.

Section RunFacts.
Variable set_iter : gset string → list string.
Variable encodable : string → bool.
Hypothesis set_iter_perm : ∀ s, set_iter s ≡ₚ elements s.

(** A run on validated records computes the rankings and enters the [with]
    block.  If the block ends with an exception, so does the run, with what
    was written by then in the file; otherwise the run calls
    [display_content], whose outcome decides how it ends. *)
Lemma main_validated content :
  validate_content set_iter content TEMPLATE = Ok true →
  ∃ top_freq top_playtime top_artist,
    most_played_freq content 10 = Ok top_freq ∧
    most_played_by_playtime content 10 = Ok top_playtime ∧
    top_artist_by_playtime content 10 = Ok top_artist ∧
    main set_iter encodable (Some (VList content)) =
      match write_report encodable top_freq top_playtime top_artist with
      | (file, Ok _) =>
        match (display_content content).2 with
        | Ok rows => Run (Some file) (Some rows) Returned
        | Raise e => Run (Some file) None (Uncaught e)
        | Beyond => Run (Some file) None Unmodelled
        end
      | (file, Raise e) => Run (Some file) None (Uncaught e)
      | (file, Beyond) => Run (Some file) None Unmodelled
      end.
Proof.
  intros Hvalid.
  destruct (proj1 (validate_content_true_iff set_iter set_iter_perm content)
              Hvalid) as [Hne Hall].
  destruct (rankings_total content 10 Hall) as (f & p & a & Hf & Hp & Ha).
  exists f, p, a. repeat split; try done.
  unfold main, get_data. destruct content as [|entry content]; [done|].
  cbn [truthy negb length bool_decide]. rewrite Hvalid. simpl.
  rewrite Hf, Hp, Ha. done.
Qed.

Lemma main_rejected content :
  validate_content set_iter content TEMPLATE = Ok false →
  main set_iter encodable (Some (VList content)) = Run None None (Exited 1).
Proof.
  intros Hvalid. unfold main, get_data.
  destruct content as [|entry content]; [done|].
  cbn [truthy negb length bool_decide]. by rewrite Hvalid.
Qed.
End RunFacts.

(** C4 (amended): a load failure and a schema mismatch end the run with
    status 1 before anything is written or shown.  A timestamp that
    [reformat_time] rejects is met only in [display_content], which [main]
    calls after the [with] block that writes the report: when that block has
    written the report without an exception, the run ends with the uncaught
    [ValueError], no window, and the whole report in [stats.txt]. *)
Theorem main_error_paths set_iter encodable :
  (∀ s, set_iter s ≡ₚ elements s) →
  main set_iter encodable None = Run None None (Exited 1) ∧
  (∀ content,
     validate_content set_iter content TEMPLATE = Ok false →
     main set_iter encodable (Some (VList content)) =
       Run None None (Exited 1)) ∧
  (∀ pre bad rest t,
     validate_content set_iter (pre ++ bad :: rest) TEMPLATE = Ok true →
     Forall timestamp_ok pre →
     getitem bad "endTime" = Ok (VStr t) →
     reformat_time t = Raise ValueError →
     ∃ top_freq top_playtime top_artist,
       most_played_freq (pre ++ bad :: rest) 10 = Ok top_freq ∧
       most_played_by_playtime (pre ++ bad :: rest) 10 = Ok top_playtime ∧
       top_artist_by_playtime (pre ++ bad :: rest) 10 = Ok top_artist ∧
       ∀ file,
         write_report encodable top_freq top_playtime top_artist
           = (file, Ok tt) →
         main set_iter encodable (Some (VList (pre ++ bad :: rest))) =
           Run (Some file) None (Uncaught ValueError)).
Proof.
  intros Hperm. split; [done|]. split; [apply main_rejected|].
  intros pre bad rest t Hvalid Hok Ht He.
  destruct (main_validated set_iter encodable Hperm _ Hvalid)
    as (f & p & a & Hf & Hp & Ha & Hmain).
  exists f, p, a. repeat split; try done.
  intros file Hfile. rewrite Hmain, Hfile.
  apply (validate_content_true_iff set_iter Hperm) in Hvalid as [_ Hall].
  apply Forall_app in Hall as [Hpre _].
  pose proof (normalize_loop_value_error pre bad rest t Hpre Hok Ht He)
    as Hloop.
  unfold display_content.
  destruct (normalize_loop (pre ++ bad :: rest)) as [content' r].
  simpl in Hloop. by rewrite Hloop.
Qed.

Lemma main_error_paths_witness :
  validate_content elements
    ([mk_record "2023-01-05 14:30" "artistX" "trackA" 30000] ++
     mk_record "2023/01/05 14:30" "artistY" "trackB" 600000 :: []) TEMPLATE
    = Ok true ∧
  reformat_time "2023/01/05 14:30" = Raise ValueError ∧
  ending_of (main elements any_text (Some (VList
    ([mk_record "2023-01-05 14:30" "artistX" "trackA" 30000] ++
     mk_record "2023/01/05 14:30" "artistY" "trackB" 600000 :: []))))
    = Uncaught ValueError.
Proof.
  split; [vm_compute; reflexivity|]. split; [vm_compute; reflexivity|].
  destruct (main_error_paths elements any_text ltac:(intros s; reflexivity))
    as (_ & _ & Hformat).
  destruct (Hformat [mk_record "2023-01-05 14:30" "artistX" "trackA" 30000]
              (mk_record "2023/01/05 14:30" "artistY" "trackB" 600000) []
              "2023/01/05 14:30")
    as (f & p & a & Hf & Hp & Ha & Hmain).
  - vm_compute. reflexivity.
  - constructor; [|constructor].
    exists "2023-01-05 14:30", "01-05-2023 14:30".
    split; vm_compute; reflexivity.
  - vm_compute. reflexivity.
  - vm_compute. reflexivity.
  - vm_compute in Hf, Hp, Ha.
    injection Hf as <-. injection Hp as <-. injection Ha as <-.
    erewrite Hmain; [reflexivity|]. vm_compute. reflexivity.
Defined.

(** C4, as stated, fails for the format failure: on a validated record whose
    timestamp is ["2023/01/05 14:30"] the run ends with the [ValueError] of
    [reformat_time], and [stats.txt] has been written in full by then. *)
Lemma format_failure_after_report :
  reformat_time "2023/01/05 14:30" = Raise ValueError ∧
  main elements any_text
    (Some (VList [mk_record "2023/01/05 14:30" "artistX" "trackA" 30000])) =
    Run (Some (unlines ["Top 10 Most Played:"; "  1. trackA - 1"; "";
                        "Top 10 Most Played by Playtime:";
                        "  1. trackA - 0m 30s"; "";
                        "Top 10 Artist by Playtime:";
                        "  1. artistX - 0m 30s"]))
      None (Uncaught ValueError) ∧
  stats_file (main elements any_text
    (Some (VList [mk_record "2023/01/05 14:30" "artistX" "trackA" 30000])))
    ≠ None.
Proof.
  split; [vm_compute; reflexivity|].
  assert (Hrun : main elements any_text
    (Some (VList [mk_record "2023/01/05 14:30" "artistX" "trackA" 30000])) =
    Run (Some (unlines ["Top 10 Most Played:"; "  1. trackA - 1"; "";
                        "Top 10 Most Played by Playtime:";
                        "  1. trackA - 0m 30s"; "";
                        "Top 10 Artist by Playtime:";
                        "  1. artistX - 0m 30s"]))
      None (Uncaught ValueError)) by (vm_compute; reflexivity).
  split; [exact Hrun|]. by rewrite Hrun.
Qed.

(** * The report *)

Lemma unlines_cons line lines :
  unlines (line :: lines) = line +:+ nl +:+ unlines lines.
Proof. reflexivity. Qed.

Lemma unlines_app l1 l2 : unlines (l1 ++ l2) = unlines l1 +:+ unlines l2.
Proof.
  induction l1 as [|line l1 IH]; [done|].
  rewrite <- app_comm_cons, !unlines_cons, IH. by rewrite !append_assoc.
Qed.

Lemma join_app l1 l2 : join (l1 ++ l2) = join l1 +:+ join l2.
Proof.
  induction l1 as [|text l1 IH]; [done|].
  rewrite <- app_comm_cons. cbn [join foldr]. fold (join (l1 ++ l2)).
  fold (join l1). by rewrite IH, append_assoc.
Qed.

Lemma unlines_join lines : unlines lines = join ((λ line, line +:+ nl) <$> lines).
Proof.
  induction lines as [|line lines IH]; [done|].
  rewrite unlines_cons, fmap_cons, IH. cbn [join foldr].
  by rewrite append_assoc.
Qed.

Lemma report_writes_join top_freq top_playtime top_artist :
  join (report_writes top_freq top_playtime top_artist) =
    unlines (report_lines top_freq top_playtime top_artist).
Proof.
  unfold report_writes, report_lines, entry_writes.
  rewrite !unlines_app, !join_app, <- !unlines_join.
  cbn [join foldr unlines]. by rewrite !append_assoc, ?append_empty_r.
Qed.

(** ** The [with] block as a sequence of writes *)

Lemma and_then_ext m k k' :
  (∀ file, k file = k' file) → and_then m k = and_then m k'.
Proof. intros Hk. destruct m as [file [u|e|]]; simpl; by rewrite ?Hk. Qed.

Lemma write_all_app encodable l1 l2 file :
  write_all encodable (l1 ++ l2) file =
    and_then (write_all encodable l1 file) (write_all encodable l2).
Proof.
  revert file. induction l1 as [|[text|e|] l1 IH]; intros file;
    [reflexivity| |reflexivity..].
  rewrite <- app_comm_cons. cbn [write_all]. unfold file_write.
  destruct (encodable text); [apply IH|reflexivity].
Qed.

Lemma write_all_one encodable text file :
  write_all encodable [Ok text] file = file_write encodable file text.
Proof. simpl. unfold file_write. by destruct (encodable text). Qed.

Lemma write_entries_all encodable show index ranking file :
  write_entries encodable show index ranking file =
    write_all encodable (entry_requests show index ranking) file.
Proof.
  revert index file. induction ranking as [|[key score] ranking IH];
    intros index file; [done|].
  unfold entry_requests. rewrite imap_cons. cbn [write_entries fst snd].
  rewrite Nat.add_0_r.
  rewrite (imap_ext _ (λ i kv, entry_text show (S index + i) kv.1 kv.2)).
  2:{ intros i kv _. simpl. by rewrite Nat.add_succ_r. }
  destruct (entry_text show index key score) as [text|e|]; cbn [write_all];
    [|done..].
  destruct (file_write encodable file text) as [file' [u|e|]]; [|done..].
  apply IH.
Qed.

Lemma write_report_all encodable top_freq top_playtime top_artist :
  write_report encodable top_freq top_playtime top_artist =
    write_all encodable (report_requests top_freq top_playtime top_artist) "".
Proof.
  unfold write_report, report_requests.
  rewrite write_all_app, write_all_one. apply and_then_ext. intros file1.
  rewrite write_all_app, write_entries_all. apply and_then_ext. intros file2.
  rewrite write_all_app, write_all_one. apply and_then_ext. intros file3.
  rewrite write_all_app, write_entries_all. apply and_then_ext. intros file4.
  rewrite write_all_app, write_all_one. apply and_then_ext. intros file5.
  apply write_entries_all.
Qed.

(** A sequence of requests each of which either makes its text or raises
    [ValueError] leaves in the file the texts before the first request that
    fails or cannot be encoded, and ends there. *)
Lemma write_all_spec encodable requests writes file :
  Forall2 (λ request text, request = Ok text ∨ request = Raise ValueError)
    requests writes →
  ∃ n, (n ≤ length writes)%nat ∧
    (write_all encodable requests file).1 = file +:+ join (take n writes) ∧
    ((write_all encodable requests file).2 = Ok tt ∧ n = length writes ∨
     (n < length writes)%nat ∧
     ((write_all encodable requests file).2 = Raise ValueError ∧
      requests !! n = Some (Raise ValueError) ∨
      (write_all encodable requests file).2 = Raise UnicodeEncodeError ∧
      ∃ text, writes !! n = Some text ∧ encodable text = false)).
Proof.
  intros Hall. revert file.
  induction Hall as [|request text requests writes Hreq _ IH]; intros file.
  - exists 0%nat. split; [done|]. split; [by rewrite append_empty_r|by left].
  - destruct Hreq as [-> | ->].
    + cbn [write_all]. unfold file_write.
      destruct (encodable text) eqn:Henc.
      * destruct (IH (file +:+ text)) as (n & Hn & Hfile & Hend).
        exists (S n). split; [simpl; lia|]. split.
        { rewrite Hfile. cbn [take join foldr]. fold (join (take n writes)).
          by rewrite append_assoc. }
        destruct Hend as [[Hok ->]|[Hlt Hend]]; [by left|].
        right. split; [simpl; lia|]. exact Hend.
      * exists 0%nat. split; [simpl; lia|].
        split; [by rewrite append_empty_r|].
        right. split; [simpl; lia|]. right. split; [done|]. by exists text.
    + exists 0%nat. split; [simpl; lia|].
      split; [by rewrite append_empty_r|].
      right. split; [simpl; lia|]. by left.
Qed.

Lemma write_all_complete encodable writes file :
  Forall (λ text, encodable text = true) writes →
  write_all encodable (Ok <$> writes) file = (file +:+ join writes, Ok tt).
Proof.
  intros Hall. revert file.
  induction Hall as [|text writes Henc _ IH]; intros file.
  - by rewrite append_empty_r.
  - rewrite fmap_cons. cbn [write_all]. unfold file_write. rewrite Henc, IH.
    cbn [join foldr]. by rewrite append_assoc.
Qed.

Lemma entry_text_line rank key value :
  "  " +:+ pretty rank +:+ ". " +:+ key +:+ " - " +:+ value +:+ nl =
    ("  " +:+ spec_line rank key value) +:+ nl.
Proof. unfold spec_line. by rewrite !append_assoc. Qed.

Lemma entry_text_makes show show' index key score :
  (∀ z, show z = Ok (show' z) ∨ show z = Raise ValueError) →
  entry_text show index key score =
    Ok (("  " +:+ spec_line (Z.of_nat index + 1) key (show' score)) +:+ nl) ∨
  entry_text show index key score = Raise ValueError.
Proof.
  intros Hshow. unfold entry_text.
  destruct (decide (printable (Z.of_nat index + 1))) as [Hp|Hp].
  - rewrite (str_int_ok _ Hp). simpl.
    destruct (Hshow score) as [-> | ->]; [left|by right].
    simpl. by rewrite entry_text_line.
  - rewrite (str_int_raise _ Hp). by right.
Qed.

Lemma entry_requests_make show show' ranking :
  (∀ z, show z = Ok (show' z) ∨ show z = Raise ValueError) →
  Forall2 (λ request text, request = Ok text ∨ request = Raise ValueError)
    (entry_requests show 0 ranking) (entry_writes show' ranking).
Proof.
  intros Hshow. unfold entry_requests, entry_writes, entry_lines.
  rewrite fmap_imap. apply Forall2_lookup. intros i.
  rewrite !list_lookup_imap.
  destruct (ranking !! i) as [[key score]|]; simpl; constructor.
  by apply entry_text_makes.
Qed.

Lemma str_int_shows z : str_int z = Ok (pretty z) ∨ str_int z = Raise ValueError.
Proof.
  destruct (decide (printable z)) as [Hp|Hp].
  - left. by apply str_int_ok.
  - right. by apply str_int_raise.
Qed.

Lemma ms_to_min_shows ms :
  ms_to_min ms = Ok (duration_text ms) ∨ ms_to_min ms = Raise ValueError.
Proof.
  destruct (decide (printable (ms_mins ms))) as [Hp|Hp].
  - left. by apply ms_to_min_ok.
  - right. by apply ms_to_min_raise.
Qed.

Lemma report_requests_make top_freq top_playtime top_artist :
  Forall2 (λ request text, request = Ok text ∨ request = Raise ValueError)
    (report_requests top_freq top_playtime top_artist)
    (report_writes top_freq top_playtime top_artist).
Proof.
  unfold report_requests, report_writes.
  assert (Hone : ∀ text : string,
    Forall2 (λ request text, request = Ok text ∨ request = Raise ValueError)
      [Ok text] [text]).
  { intros text. constructor; [by left|constructor]. }
  repeat first
    [ apply Hone
    | apply (entry_requests_make str_int pretty), str_int_shows
    | apply (entry_requests_make ms_to_min duration_text), ms_to_min_shows
    | apply Forall2_app ].
Qed.

(** The requests all make their texts when the ranks and the values print. *)
Lemma entry_requests_print show show' ranking :
  (length ranking ≤ 10)%nat →
  Forall (λ kv, show kv.2 = Ok (show' kv.2)) ranking →
  entry_requests show 0 ranking = Ok <$> entry_writes show' ranking.
Proof.
  intros Hlen Hall. unfold entry_requests, entry_writes, entry_lines.
  rewrite !fmap_imap. apply imap_ext. intros i [key score] Hi. simpl.
  rewrite Forall_forall in Hall.
  pose proof (Hall _ (list_elem_of_lookup_2 _ _ _ Hi)) as Hshow.
  simpl in Hshow. unfold entry_text.
  apply lookup_lt_Some in Hi.
  rewrite str_int_ok by (apply printable_small; lia). simpl.
  rewrite Hshow. simpl. by rewrite entry_text_line.
Qed.

(** What the [with] block leaves in the file: the first so many of the
    texts of the report, all of them when the block ends without an
    exception; and the only exceptions that can end it. *)
Lemma write_report_spec encodable top_freq top_playtime top_artist :
  ∃ n, (n ≤ length (report_writes top_freq top_playtime top_artist))%nat ∧
    (write_report encodable top_freq top_playtime top_artist).1 =
      join (take n (report_writes top_freq top_playtime top_artist)) ∧
    ((write_report encodable top_freq top_playtime top_artist).2 = Ok tt ∧
     n = length (report_writes top_freq top_playtime top_artist) ∨
     (n < length (report_writes top_freq top_playtime top_artist))%nat ∧
     ((write_report encodable top_freq top_playtime top_artist).2
        = Raise ValueError ∧
      report_requests top_freq top_playtime top_artist !! n
        = Some (Raise ValueError) ∨
      (write_report encodable top_freq top_playtime top_artist).2
        = Raise UnicodeEncodeError ∧
      ∃ text, report_writes top_freq top_playtime top_artist !! n = Some text ∧
              encodable text = false)).
Proof.
  rewrite write_report_all.
  destruct (write_all_spec encodable _ _ ""
              (report_requests_make top_freq top_playtime top_artist))
    as (n & Hn & Hfile & Hend).
  exists n. split; [done|]. split; [|done]. by rewrite Hfile.
Qed.

Lemma write_report_ok encodable top_freq top_playtime top_artist file :
  write_report encodable top_freq top_playtime top_artist = (file, Ok tt) →
  file = unlines (report_lines top_freq top_playtime top_artist).
Proof.
  intros Hrun.
  destruct (write_report_spec encodable top_freq top_playtime top_artist)
    as (n & _ & Hfile & Hend).
  rewrite Hrun in Hfile, Hend. cbn [fst snd] in Hfile, Hend.
  destruct Hend as [[_ Hn]|[_ [[? _]|[? _]]]]; [|discriminate..].
  by rewrite Hfile, take_ge, report_writes_join by lia.
Qed.

Lemma write_report_complete encodable top_freq top_playtime top_artist :
  (length top_freq ≤ 10)%nat → (length top_playtime ≤ 10)%nat →
  (length top_artist ≤ 10)%nat →
  Forall (λ kv, printable kv.2) top_freq →
  Forall (λ kv, printable (ms_mins kv.2)) top_playtime →
  Forall (λ kv, printable (ms_mins kv.2)) top_artist →
  Forall (λ text, encodable text = true)
    (report_writes top_freq top_playtime top_artist) →
  write_report encodable top_freq top_playtime top_artist =
    (unlines (report_lines top_freq top_playtime top_artist), Ok tt).
Proof.
  intros Hlf Hlp Hla Hf Hp Ha Henc.
  rewrite write_report_all, <- report_writes_join.
  assert (Hreq : report_requests top_freq top_playtime top_artist =
                 Ok <$> report_writes top_freq top_playtime top_artist).
  { unfold report_requests, report_writes. rewrite !fmap_app.
    rewrite (entry_requests_print str_int pretty top_freq Hlf).
    2:{ eapply Forall_impl; [exact Hf|]. intros kv. apply str_int_ok. }
    rewrite (entry_requests_print ms_to_min duration_text top_playtime Hlp).
    2:{ eapply Forall_impl; [exact Hp|]. intros kv. apply ms_to_min_ok. }
    rewrite (entry_requests_print ms_to_min duration_text top_artist Hla).
    2:{ eapply Forall_impl; [exact Ha|]. intros kv. apply ms_to_min_ok. }
    done. }
  rewrite Hreq. apply (write_all_complete encodable _ "" Henc).
Qed.

(** C9 (amended): when the [with] block ends without an exception, the
    report has three sections in this order: the counts under
    ["Top 10 Most Played:"], the track playtimes under
    ["Top 10 Most Played by Playtime:"] and the artist playtimes under
    ["Top 10 Artist by Playtime:"], the last two separated from what precedes
    by an empty line and rendered as [ms_to_min] does.  The entry of rank
    [i + 1] is the line made of two spaces followed by
    ["{rank}. {key} - {value}"].  The block does end so for rankings of at
    most ten entries when every count and the minutes of every playtime can
    be printed and every text written can be encoded. *)
Theorem report_layout encodable top_freq top_playtime top_artist :
  (∀ file,
     write_report encodable top_freq top_playtime top_artist = (file, Ok tt) →
     file =
       unlines (["Top 10 Most Played:"] ++ entry_lines pretty top_freq ++
                [""; "Top 10 Most Played by Playtime:"] ++
                entry_lines duration_text top_playtime ++
                [""; "Top 10 Artist by Playtime:"] ++
                entry_lines duration_text top_artist)) ∧
  ((length top_freq ≤ 10)%nat → (length top_playtime ≤ 10)%nat →
   (length top_artist ≤ 10)%nat →
   Forall (λ kv, printable kv.2) top_freq →
   Forall (λ kv, printable (ms_mins kv.2)) top_playtime →
   Forall (λ kv, printable (ms_mins kv.2)) top_artist →
   Forall (λ text, encodable text = true)
     (report_writes top_freq top_playtime top_artist) →
   ∃ file,
     write_report encodable top_freq top_playtime top_artist = (file, Ok tt)).
Proof.
  split.
  - intros file. apply write_report_ok.
  - intros Hlf Hlp Hla Hf Hp Ha Henc. eexists.
    by apply write_report_complete.
Qed.

Lemma report_layout_witness :
  write_report any_text [("trackA", 2)] [("trackA", 60000)]
    [("artistX", 60000)] =
    (unlines ["Top 10 Most Played:"; "  1. trackA - 2"; "";
              "Top 10 Most Played by Playtime:"; "  1. trackA - 1m 0s"; "";
              "Top 10 Artist by Playtime:"; "  1. artistX - 1m 0s"], Ok tt).
Proof.
  destruct (report_layout any_text [("trackA", 2)] [("trackA", 60000)]
              [("artistX", 60000)]) as [Hlayout Hends].
  destruct Hends as [file Hrun].
  - simpl. lia.
  - simpl. lia.
  - simpl. lia.
  - constructor; [|constructor]. apply Nat.leb_le. vm_compute. reflexivity.
  - constructor; [|constructor]. apply Nat.leb_le. vm_compute. reflexivity.
  - constructor; [|constructor]. apply Nat.leb_le. vm_compute. reflexivity.
  - apply Forall_forall. reflexivity.
  - rewrite Hrun. f_equal. rewrite (Hlayout file Hrun).
    vm_compute. reflexivity.
Defined.

(** C9, as stated, fails on the form of an entry line: the line written for
    the first entry (trackA, 2) is indented by two spaces, so it is not the
    text ["1. trackA - 2"]. *)
Lemma entry_line_is_indented :
  write_report any_text [("trackA", 2)] [("trackA", 60000)]
    [("artistX", 60000)] =
    (unlines ["Top 10 Most Played:"; "  1. trackA - 2"; "";
              "Top 10 Most Played by Playtime:"; "  1. trackA - 1m 0s"; "";
              "Top 10 Artist by Playtime:"; "  1. artistX - 1m 0s"], Ok tt) ∧
  spec_line 1 "trackA" (pretty 2) = "1. trackA - 2" ∧
  "  1. trackA - 2" ≠ spec_line 1 "trackA" (pretty 2).
Proof. repeat split; [vm_compute; reflexivity .. | discriminate]. Qed.

(** * The timestamp formatter *)

Lemma digit_char_facts k :
  0 ≤ k ≤ 9 →
  is_digit (digit_char k) = true ∧ is_space (digit_char k) = false ∧
  digit_value (digit_char k) = k.
Proof. intros Hk. enum_range k 0 10; by vm_compute. Qed.

Lemma rx_bind_first {A B} (p : rx A) (f : A → rx B) s a s' r :
  first_match (p s) (a, s') → first_match (f a s') r →
  first_match (rx_bind p f s) r.
Proof.
  intros [tl Hp] [tl' Hf]. unfold rx_bind. rewrite Hp. simpl. rewrite Hf.
  by eexists.
Qed.

Lemma cls_first (p : ascii → bool) c rest :
  p c = true → first_match (cls p (String c rest)) (c, rest).
Proof. intros Hp. simpl. rewrite Hp. by eexists. Qed.

Lemma one_digit_first k rest :
  0 ≤ k ≤ 9 →
  first_match (one is_digit (String (digit_char k) rest)) (k, rest).
Proof.
  intros Hk. destruct (digit_char_facts k Hk) as (Hd & _ & Hv).
  eapply rx_bind_first; [by apply cls_first|]. rewrite Hv. by eexists.
Qed.

Lemma re_Y_first y rest :
  0 ≤ y ≤ 9999 → first_match (re_Y (pad4 y +:+ rest)) (y, rest).
Proof.
  intros Hy. unfold re_Y, pad4, pad2. rewrite !append_cons.
  repeat (eapply rx_bind_first;
            [apply one_digit_first; Z.div_mod_to_equations; lia|]).
  eexists. unfold rx_ret. do 2 f_equal. Z.div_mod_to_equations. lia.
Qed.

Lemma re_m_first m rest :
  1 ≤ m ≤ 12 → first_match (re_m (pad2 m +:+ rest)) (m, rest).
Proof. intros Hm. enum_range m 1 12; by eexists. Qed.

Lemma re_d_first d rest :
  1 ≤ d ≤ 31 → first_match (re_d (pad2 d +:+ rest)) (d, rest).
Proof. intros Hd. enum_range d 1 31; by eexists. Qed.

Lemma re_H_first H rest :
  0 ≤ H ≤ 23 → first_match (re_H (pad2 H +:+ rest)) (H, rest).
Proof. intros HH. enum_range H 0 24; by eexists. Qed.

Lemma re_M_first M rest :
  0 ≤ M ≤ 59 → first_match (re_M (pad2 M +:+ rest)) (M, rest).
Proof. intros HM. enum_range M 0 60; by eexists. Qed.

Lemma re_spaces_first n rest :
  0 ≤ n ≤ 99 →
  first_match (re_spaces (" " +:+ pad2 n +:+ rest)) (tt, pad2 n +:+ rest).
Proof.
  intros Hn. unfold pad2. rewrite !append_cons.
  destruct (digit_char_facts (n `div` 10)) as (_ & Hs & _);
    [Z.div_mod_to_equations; lia|].
  eapply rx_bind_first; [by apply cls_first|].
  simpl. rewrite Hs. by eexists.
Qed.

Lemma valid_datetime_ranges dt :
  valid_datetime dt = true →
  1 ≤ year dt ≤ 9999 ∧ 1 ≤ month dt ≤ 12 ∧ 1 ≤ day dt ≤ 31 ∧
  0 ≤ hour dt ≤ 23 ∧ 0 ≤ minute dt ≤ 59.
Proof.
  unfold valid_datetime. rewrite !andb_true_iff, !Z.leb_le.
  assert (days_in_month (year dt) (month dt) ≤ 31).
  { unfold days_in_month. repeat case_match; lia. }
  lia.
Qed.

(** A text in the exact layout is matched field by field. *)
Lemma format_regex_strict dt :
  valid_datetime dt = true →
  first_match (format_regex (strict_text dt)) (dt, "").
Proof.
  intros (Hy & Hm & Hd & HH & HM)%valid_datetime_ranges.
  destruct dt as [y m d H M]. simpl in *.
  unfold format_regex, strict_text. cbn [year month day hour minute].
  eapply rx_bind_first; [apply re_Y_first; lia|].
  eapply rx_bind_first; [by apply cls_first|].
  eapply rx_bind_first; [by apply re_m_first|].
  eapply rx_bind_first; [by apply cls_first|].
  eapply rx_bind_first; [by apply re_d_first|].
  eapply rx_bind_first; [apply re_spaces_first; lia|].
  eapply rx_bind_first; [by apply re_H_first|].
  eapply rx_bind_first; [by apply cls_first|].
  eapply rx_bind_first; [rewrite <- (append_empty_r (pad2 M)); by apply re_M_first|].
  by eexists.
Qed.

Lemma is_digit_digit_char k : 0 ≤ k ≤ 9 → is_digit (digit_char k) = true.
Proof. intros Hk. by destruct (digit_char_facts k Hk). Qed.

Lemma strict_text_layout dt :
  valid_datetime dt = true → strict_layout (strict_text dt) = true.
Proof.
  intros (Hy & Hm & Hd & HH & HM)%valid_datetime_ranges.
  destruct dt as [y m d H M]. simpl in *.
  cbv [strict_text pad4 pad2 String.append year month day hour minute].
  cbn [strict_layout forallb].
  rewrite !is_digit_digit_char by (Z.div_mod_to_equations; lia). done.
Qed.

(** ** What the expression can match *)

Lemma rx_bind_elem {A B} (p : rx A) (f : A → rx B) s r :
  r ∈ rx_bind p f s ↔ ∃ a s', (a, s') ∈ p s ∧ r ∈ f a s'.
Proof.
  unfold rx_bind. rewrite list_elem_of_In, in_flat_map. split.
  - intros ([a s'] & Hin & Hr). exists a, s'.
    by rewrite !list_elem_of_In.
  - intros (a & s' & Hin & Hr). exists (a, s').
    by rewrite <- !list_elem_of_In.
Qed.

Lemma cls_elem (p : ascii → bool) s c rest :
  (c, rest) ∈ cls p s → s = String c rest ∧ p c = true.
Proof.
  destruct s as [|x s]; simpl; [by intros ?%elem_of_nil|].
  destruct (p x) eqn:Hp; [|by intros ?%elem_of_nil].
  by intros [= -> ->]%list_elem_of_singleton.
Qed.

Lemma is_char_eq x c : is_char x c = true → c = x.
Proof. unfold is_char. by intros ?%bool_decide_eq_true. Qed.

Lemma code_digit_value c :
  is_digit c = true → 0 ≤ digit_value c ≤ 9 ∧ digit_char (digit_value c) = c.
Proof.
  unfold is_digit, between, digit_value, digit_char, code.
  rewrite andb_true_iff, !N.leb_le.
  change (N_of_ascii "0") with 48%N. change (N_of_ascii "9") with 57%N.
  intros [Hlo Hhi]. split; [lia|].
  replace (48 + (Z.of_N (N_of_ascii c) - 48)) with (Z.of_N (N_of_ascii c))
    by lia.
  by rewrite N2Z.id, ascii_N_embedding.
Qed.

Lemma between_range lo hi c :
  is_digit lo = true → is_digit hi = true → between lo hi c = true →
  is_digit c = true ∧ digit_value lo ≤ digit_value c ≤ digit_value hi.
Proof.
  unfold is_digit, between, digit_value, code.
  rewrite !andb_true_iff, !N.leb_le.
  change (N_of_ascii "0") with 48%N. change (N_of_ascii "9") with 57%N. lia.
Qed.

Lemma pad2_digits a b :
  is_digit a = true → is_digit b = true →
  pad2 (10 * digit_value a + digit_value b) = String a (String b "").
Proof.
  intros [Ha Ha']%code_digit_value [Hb Hb']%code_digit_value. unfold pad2.
  replace ((10 * digit_value a + digit_value b) `div` 10)
    with (digit_value a) by (Z.div_mod_to_equations; lia).
  replace ((10 * digit_value a + digit_value b) `mod` 10)
    with (digit_value b) by (Z.div_mod_to_equations; lia).
  by rewrite Ha', Hb'.
Qed.

(** Two characters of the classes [p] and [q], which hold digits only, are
    the two-digit text of the number they are read as. *)
Lemma two_elem (p q : ascii → bool) s v rest :
  (∀ c, p c = true → is_digit c = true) →
  (∀ c, q c = true → is_digit c = true) →
  (v, rest) ∈ two p q s →
  ∃ a b, p a = true ∧ q b = true ∧ s = pad2 v +:+ rest ∧
         v = 10 * digit_value a + digit_value b.
Proof.
  intros Hp Hq. unfold two.
  intros (a & s1 & [-> Ha]%cls_elem & Hin)%rx_bind_elem.
  apply rx_bind_elem in Hin as (b & s2 & [-> Hb]%cls_elem & Hin).
  apply list_elem_of_singleton in Hin as [= -> ->].
  exists a, b. split_and!; try done.
  by rewrite pad2_digits by auto.
Qed.

Lemma one_elem (p : ascii → bool) s v rest :
  (∀ c, p c = true → is_digit c = true) →
  (v, rest) ∈ one p s →
  ∃ a, p a = true ∧ s = digit_text v +:+ rest ∧ v = digit_value a.
Proof.
  intros Hp. unfold one.
  intros (a & s1 & [-> Ha]%cls_elem & Hin)%rx_bind_elem.
  apply list_elem_of_singleton in Hin as [= -> ->].
  exists a. split_and!; try done. unfold digit_text.
  by destruct (code_digit_value a (Hp a Ha)) as [_ ->].
Qed.

Lemma is_char_digit x c : is_digit x = true → is_char x c = true → is_digit c = true.
Proof. by intros Hx ->%is_char_eq. Qed.

Lemma between_digit lo hi c :
  is_digit lo = true → is_digit hi = true → between lo hi c = true →
  is_digit c = true.
Proof. intros Hlo Hhi Hc. by destruct (between_range lo hi c). Qed.

Ltac digit_class :=
  let c := fresh "c" in
  let Hc := fresh "Hc" in
  intros c Hc;
  first [ exact Hc
        | by eapply is_char_digit; [|exact Hc]
        | by eapply between_digit; [| |exact Hc] ].

Ltac class_value H :=
  first
    [ apply is_char_eq in H as ->
    | apply between_range in H as [_ H]; [|done..];
      vm_compute (digit_value "0") in H; vm_compute (digit_value "1") in H;
      vm_compute (digit_value "2") in H; vm_compute (digit_value "3") in H;
      vm_compute (digit_value "5") in H; vm_compute (digit_value "9") in H
    | apply code_digit_value in H as [H _] ].

Lemma re_Y_elem s y rest :
  (y, rest) ∈ re_Y s → s = pad4 y +:+ rest ∧ 0 ≤ y ≤ 9999.
Proof.
  unfold re_Y, one.
  intros (a & s1 & Ha & Hin)%rx_bind_elem.
  apply rx_bind_elem in Ha as (ca & ? & [-> Hca]%cls_elem & [= -> ->]%list_elem_of_singleton).
  apply rx_bind_elem in Hin as (b & s2 & Hb & Hin).
  apply rx_bind_elem in Hb as (cb & ? & [-> Hcb]%cls_elem & [= -> ->]%list_elem_of_singleton).
  apply rx_bind_elem in Hin as (c & s3 & Hc & Hin).
  apply rx_bind_elem in Hc as (cc & ? & [-> Hcc]%cls_elem & [= -> ->]%list_elem_of_singleton).
  apply rx_bind_elem in Hin as (d & s4 & Hd & Hin).
  apply rx_bind_elem in Hd as (cd & ? & [-> Hcd]%cls_elem & [= -> ->]%list_elem_of_singleton).
  apply list_elem_of_singleton in Hin as [= -> ->].
  pose proof (code_digit_value ca Hca) as [Ra _].
  pose proof (code_digit_value cb Hcb) as [Rb _].
  pose proof (code_digit_value cc Hcc) as [Rc _].
  pose proof (code_digit_value cd Hcd) as [Rd _].
  split; [|lia]. unfold pad4.
  replace ((1000 * digit_value ca + 100 * digit_value cb + 10 * digit_value cc
            + digit_value cd) `div` 100)
    with (10 * digit_value ca + digit_value cb)
    by (Z.div_mod_to_equations; lia).
  replace ((1000 * digit_value ca + 100 * digit_value cb + 10 * digit_value cc
            + digit_value cd) `mod` 100)
    with (10 * digit_value cc + digit_value cd)
    by (Z.div_mod_to_equations; lia).
  by rewrite !pad2_digits.
Qed.

Lemma re_m_elem s m rest :
  (m, rest) ∈ re_m s → ∃ t, s = t +:+ rest ∧ month_text t m.
Proof.
  unfold re_m, rx_alt. rewrite !elem_of_app. intros [[Hin|Hin]|Hin].
  - apply two_elem in Hin as (a & b & Ha & Hb & -> & Hv); [|digit_class..].
    class_value Ha. class_value Hb. vm_compute (digit_value "1") in Hv.
    eexists. split; [done|]. left. split; [lia|done].
  - apply two_elem in Hin as (a & b & Ha & Hb & -> & Hv); [|digit_class..].
    class_value Ha. class_value Hb. vm_compute (digit_value "0") in Hv.
    eexists. split; [done|]. left. split; [lia|done].
  - apply one_elem in Hin as (a & Ha & -> & Hv); [|digit_class..].
    class_value Ha. eexists. split; [done|]. right. split; [lia|done].
Qed.

Lemma re_d_elem s d rest :
  (d, rest) ∈ re_d s → ∃ t, s = t +:+ rest ∧ day_text t d.
Proof.
  unfold re_d, rx_alt. rewrite !elem_of_app. intros [[[[Hin|Hin]|Hin]|Hin]|Hin].
  - apply two_elem in Hin as (a & b & Ha & Hb & -> & Hv); [|digit_class..].
    class_value Ha. class_value Hb. vm_compute (digit_value "3") in Hv.
    eexists. split; [done|]. left. split; [lia|done].
  - apply two_elem in Hin as (a & b & Ha & Hb & -> & Hv); [|digit_class..].
    class_value Ha. class_value Hb.
    eexists. split; [done|]. left. split; [lia|done].
  - apply two_elem in Hin as (a & b & Ha & Hb & -> & Hv); [|digit_class..].
    class_value Ha. class_value Hb. vm_compute (digit_value "0") in Hv.
    eexists. split; [done|]. left. split; [lia|done].
  - apply one_elem in Hin as (a & Ha & -> & Hv); [|digit_class..].
    class_value Ha. eexists. split; [done|]. right. split; [lia|by left].
  - apply rx_bind_elem in Hin as (c & s1 & [-> ->%is_char_eq]%cls_elem & Hin).
    apply one_elem in Hin as (a & Ha & -> & Hv); [|digit_class..].
    class_value Ha. exists (" " +:+ digit_text d).
    split; [done|]. right. split; [lia|by right].
Qed.

Lemma re_H_elem s H rest :
  (H, rest) ∈ re_H s → ∃ t, s = t +:+ rest ∧ hour_text t H.
Proof.
  unfold re_H, rx_alt. rewrite !elem_of_app. intros [[Hin|Hin]|Hin].
  - apply two_elem in Hin as (a & b & Ha & Hb & -> & Hv); [|digit_class..].
    class_value Ha. class_value Hb. vm_compute (digit_value "2") in Hv.
    eexists. split; [done|]. left. split; [lia|done].
  - apply two_elem in Hin as (a & b & Ha & Hb & -> & Hv); [|digit_class..].
    class_value Ha. class_value Hb.
    eexists. split; [done|]. left. split; [lia|done].
  - apply one_elem in Hin as (a & Ha & -> & Hv); [|digit_class..].
    class_value Ha. eexists. split; [done|]. right. split; [lia|done].
Qed.

Lemma re_M_elem s M rest :
  (M, rest) ∈ re_M s → ∃ t, s = t +:+ rest ∧ minute_text t M.
Proof.
  unfold re_M, rx_alt. rewrite !elem_of_app. intros [Hin|Hin].
  - apply two_elem in Hin as (a & b & Ha & Hb & -> & Hv); [|digit_class..].
    class_value Ha. class_value Hb.
    eexists. split; [done|]. left. split; [lia|done].
  - apply one_elem in Hin as (a & Ha & -> & Hv); [|digit_class..].
    class_value Ha. eexists. split; [done|]. right. split; [lia|done].
Qed.

Lemma re_spaces0_elem s u rest :
  (u, rest) ∈ re_spaces0 s → ∃ ws, s = ws +:+ rest ∧ all_space ws = true.
Proof.
  induction s as [|c s IH]; simpl.
  - intros [= _ ->]%list_elem_of_singleton. by exists "".
  - destruct (is_space c) eqn:Hc.
    + rewrite elem_of_app, list_elem_of_singleton.
      intros [Hin|[= _ ->]]; [|by exists ""].
      destruct (IH Hin) as (ws & -> & Hws). exists (String c ws).
      split; [done|]. simpl. by rewrite Hc.
    + intros [= _ ->]%list_elem_of_singleton. by exists "".
Qed.

Lemma re_spaces_elem s u rest :
  (u, rest) ∈ re_spaces s → ∃ ws, s = ws +:+ rest ∧ blank_run ws = true.
Proof.
  unfold re_spaces.
  intros (c & s1 & [-> Hc]%cls_elem & Hin)%rx_bind_elem.
  apply re_spaces0_elem in Hin as (ws & -> & Hws).
  exists (String c ws). split; [done|]. simpl. by rewrite Hc.
Qed.

(** A way for the expression to match a whole text reads the text. *)
Lemma format_regex_elem s dt : (dt, "") ∈ format_regex s → reads s dt.
Proof.
  unfold format_regex.
  intros (y & s1 & [-> Hy]%re_Y_elem & Hin)%rx_bind_elem.
  apply rx_bind_elem in Hin as (? & s2 & [-> ->%is_char_eq]%cls_elem & Hin).
  apply rx_bind_elem in Hin as (m & s3 & (tm & -> & Hm)%re_m_elem & Hin).
  apply rx_bind_elem in Hin as (? & s4 & [-> ->%is_char_eq]%cls_elem & Hin).
  apply rx_bind_elem in Hin as (d & s5 & (td & -> & Hd)%re_d_elem & Hin).
  apply rx_bind_elem in Hin as (? & s6 & (ws & -> & Hws)%re_spaces_elem & Hin).
  apply rx_bind_elem in Hin as (H & s7 & (tH & -> & HH)%re_H_elem & Hin).
  apply rx_bind_elem in Hin as (? & s8 & [-> ->%is_char_eq]%cls_elem & Hin).
  apply rx_bind_elem in Hin as (M & s9 & (tM & -> & HM)%re_M_elem & Hin).
  apply list_elem_of_singleton in Hin as [= -> <-].
  exists tm, td, ws, tH, tM. rewrite append_empty_r. done.
Qed.

(** ** What the expression does match *)

Lemma is_space_not_digit c :
  is_space c = true →
  is_digit c = false ∧ between "0" "1" c = false ∧ between "1" "9" c = false.
Proof.
  destruct c as [[] [] [] [] [] [] [] []]; intros Hc;
    try (by vm_compute in Hc); by vm_compute.
Qed.

Lemma re_m_reads tm m rest :
  month_text tm m →
  first_match (re_m (tm +:+ "-" +:+ rest)) (m, "-" +:+ rest).
Proof.
  intros [[Hm ->]|[Hm ->]]; [by apply re_m_first|].
  enum_range m 1 9; by eexists.
Qed.

Lemma re_d_reads td d c rest :
  day_text td d → is_space c = true →
  first_match (re_d (td +:+ String c rest)) (d, String c rest).
Proof.
  intros [[Hd ->]|[Hd [-> | ->]]] Hc; [by apply re_d_first| |].
  - destruct (is_space_not_digit c Hc) as (Hdig & H01 & H19).
    enum_range d 1 9; unfold re_d, rx_alt, two, one, rx_bind, cls, rx_ret;
      simpl; rewrite ?Hdig, ?H01, ?H19; by eexists.
  - enum_range d 1 9; by eexists.
Qed.

Lemma re_spaces0_reads ws c rest :
  all_space ws = true → is_space c = false →
  first_match (re_spaces0 (ws +:+ String c rest)) (tt, String c rest).
Proof.
  intros Hws Hc. induction ws as [|w ws IH].
  - simpl. rewrite Hc. by eexists.
  - simpl in Hws. apply andb_true_iff in Hws as [Hw Hws].
    destruct (IH Hws) as [tl Htl]. rewrite append_cons.
    cbn [re_spaces0]. rewrite Hw, Htl. by eexists.
Qed.

Lemma re_spaces_reads ws c rest :
  blank_run ws = true → is_space c = false →
  first_match (re_spaces (ws +:+ String c rest)) (tt, String c rest).
Proof.
  intros Hws Hc. destruct ws as [|w ws]; [done|].
  simpl in Hws. apply andb_true_iff in Hws as [Hw Hws].
  rewrite append_cons. unfold re_spaces.
  eapply rx_bind_first; [by apply cls_first|].
  by apply re_spaces0_reads.
Qed.

Lemma hour_text_head tH H :
  hour_text tH H → ∃ c r, tH = String c r ∧ is_space c = false.
Proof.
  intros [[HH ->]|[HH ->]]; eexists _, _; (split; [reflexivity|]);
    apply digit_char_facts; Z.div_mod_to_equations; lia.
Qed.

Lemma re_H_reads tH H rest :
  hour_text tH H →
  first_match (re_H (tH +:+ ":" +:+ rest)) (H, ":" +:+ rest).
Proof.
  intros [[HH ->]|[HH ->]]; [by apply re_H_first|].
  enum_range H 0 10; by eexists.
Qed.

Lemma re_M_reads tM M : minute_text tM M → first_match (re_M tM) (M, "").
Proof.
  intros [[HM ->]|[HM ->]].
  - rewrite <- (append_empty_r (pad2 M)). by apply re_M_first.
  - enum_range M 0 10; by eexists.
Qed.

(** A text that is read is matched at the first attempt and as a whole. *)
Lemma format_regex_reads s dt :
  reads s dt → first_match (format_regex s) (dt, "").
Proof.
  intros (tm & td & ws & tH & tM & -> & Hy & Hm & Hd & Hws & HH & HM).
  destruct dt as [y m d H M]. cbn [year month day hour minute] in *.
  destruct (hour_text_head tH H HH) as (c & r & -> & Hc).
  destruct ws as [|w ws]; [done|].
  pose proof Hws as Hw. simpl in Hw. apply andb_true_iff in Hw as [Hw _].
  unfold format_regex.
  eapply rx_bind_first; [by apply re_Y_first|].
  eapply rx_bind_first; [by apply cls_first|].
  eapply rx_bind_first; [by apply re_m_reads|].
  eapply rx_bind_first; [by apply cls_first|].
  eapply rx_bind_first; [rewrite append_cons; by apply re_d_reads|].
  rewrite <- append_cons.
  eapply rx_bind_first; [rewrite (append_cons c); by apply re_spaces_reads|].
  rewrite <- (append_cons c).
  eapply rx_bind_first; [by apply re_H_reads|].
  eapply rx_bind_first; [by apply cls_first|].
  eapply rx_bind_first; [by apply re_M_reads|].
  by eexists.
Qed.

Lemma reformat_time_iff s out :
  reformat_time s = Ok out ↔
  ∃ dt, reads s dt ∧ valid_datetime dt = true ∧ out = display_text dt.
Proof.
  unfold reformat_time, strptime, strftime. split.
  - destruct (format_regex s) as [|[dt rest] tl] eqn:Hmatch; [discriminate|].
    destruct (bool_decide (rest = "")) eqn:Hrest; [|discriminate].
    apply bool_decide_eq_true in Hrest as ->.
    destruct (valid_datetime dt) eqn:Hvalid; [|discriminate].
    simpl. intros [= <-]. exists dt. split_and!; try done.
    apply format_regex_elem. rewrite Hmatch. apply list_elem_of_here.
  - intros (dt & [tl Hmatch]%format_regex_reads & Hvalid & ->).
    rewrite Hmatch. simpl. by rewrite Hvalid.
Qed.

Lemma reformat_time_cases s :
  (∃ out, reformat_time s = Ok out) ∨ reformat_time s = Raise ValueError.
Proof.
  unfold reformat_time, strptime, strftime.
  destruct (format_regex s) as [|[dt rest] tl]; [by right|].
  destruct (bool_decide (rest = "")); [|by right].
  destruct (valid_datetime dt); [|by right]. left. by eexists.
Qed.

Lemma strict_text_reads dt : fields_in_range dt → reads (strict_text dt) dt.
Proof.
  intros (Hy & Hm & Hd & HH & HM).
  exists (pad2 (month dt)), (pad2 (day dt)), " ", (pad2 (hour dt)),
    (pad2 (minute dt)).
  split_and!; first [done | lia | by left | reflexivity].
Qed.





(** * More on the rankings *)

Lemma dict_get_add d k v k' :
  dict_get (dict_add d k v) k' =
    dict_get d k' + (if decide (k = k') then v else 0).
Proof.
  induction d as [|[k0 x] d IH]; simpl.
  - destruct (decide (k = k')); lia.
  - destruct (decide (k0 = k)) as [->|Hne]; simpl.
    + destruct (decide (k = k')); lia.
    + destruct (decide (k0 = k')) as [->|]; [|done].
      destruct (decide (k = k')); [congruence|lia].
Qed.

Lemma dict_add_fst d k v :
  (dict_add d k v).*1 = if decide (k ∈ d.*1) then d.*1 else d.*1 ++ [k].
Proof.
  induction d as [|[k0 x] d IH]; [done|]. cbn [dict_add].
  destruct (decide (k0 = k)) as [->|Hne]; rewrite !fmap_cons; cbn [fst].
  - by rewrite decide_True by left.
  - rewrite IH. destruct (decide (k ∈ d.*1)) as [Hin|Hout].
    + by rewrite decide_True by (by right).
    + rewrite decide_False; [done|].
      intros [?|?]%elem_of_cons; congruence.
Qed.

Lemma dict_get_elem d k v : NoDup d.*1 → (k, v) ∈ d → dict_get d k = v.
Proof.
  induction d as [|[k0 x] d IH]; intros Hnd Hin.
  - by apply elem_of_nil in Hin.
  - rewrite fmap_cons in Hnd. apply NoDup_cons in Hnd as [Hk0 Hnd].
    simpl. apply elem_of_cons in Hin as [[= <- <-]|Hin].
    + by rewrite decide_True.
    + rewrite decide_False; [by apply IH|].
      intros ->. apply Hk0. apply list_elem_of_fmap. by exists (k, v).
Qed.

Lemma dict_get_key d k : k ∈ d.*1 → (k, dict_get d k) ∈ d.
Proof.
  induction d as [|[k0 x] d IH]; intros Hin.
  - by apply elem_of_nil in Hin.
  - rewrite fmap_cons in Hin. simpl in Hin |- *.
    destruct (decide (k0 = k)) as [->|Hne]; [by left|].
    right. apply IH. apply elem_of_cons in Hin as [?|?]; [congruence|done].
Qed.

Lemma add_all_get items d k :
  dict_get (add_all items d) k =
    dict_get d k +
    foldr (λ kv acc, (if decide (kv.1 = k) then kv.2 else 0) + acc) 0 items.
Proof.
  revert d. induction items as [|[k0 v] items IH]; intros d; simpl; [lia|].
  rewrite IH, dict_get_add. lia.
Qed.

Lemma add_all_fst items d :
  (add_all items d).*1 =
    foldl (λ seen k, if decide (k ∈ seen) then seen else seen ++ [k])
      d.*1 items.*1.
Proof.
  revert d. induction items as [|[k0 v] items IH]; intros d; [done|].
  cbn [add_all]. by rewrite IH, dict_add_fst.
Qed.

Lemma add_all_NoDup items d : NoDup d.*1 → NoDup (add_all items d).*1.
Proof.
  revert d. induction items as [|[k0 v] items IH]; intros d Hnd; [done|].
  apply IH. by apply dict_add_keys.
Qed.

Lemma add_all_keys items d k :
  k ∈ (add_all items d).*1 ↔ k ∈ d.*1 ∨ k ∈ items.*1.
Proof.
  revert d. induction items as [|[k0 v] items IH]; intros d.
  - simpl. rewrite elem_of_nil. tauto.
  - cbn [add_all]. rewrite IH, dict_add_fst, fmap_cons, elem_of_cons. cbn [fst].
    destruct (decide (k0 ∈ d.*1)) as [Hin|Hout].
    + split; [tauto|]. intros [?|[->|?]]; tauto.
    + rewrite elem_of_app, list_elem_of_singleton. tauto.
Qed.

Lemma add_all_length items d :
  (length (add_all items d) ≤ length d + length items)%nat.
Proof.
  revert d. induction items as [|[k0 v] items IH]; intros d; simpl; [lia|].
  etrans; [apply IH|].
  assert (length (dict_add d k0 v) ≤ S (length d))%nat; [|lia].
  clear. induction d as [|[k x] d IH]; simpl; [lia|].
  destruct (decide (k = k0)); simpl; lia.
Qed.

Lemma Counter_add_all names counter :
  Counter (VStr <$> names) counter =
    Ok (add_all ((λ k, (k, 1)) <$> names) counter).
Proof.
  revert counter. induction names as [|k names IH]; intros counter; [done|].
  rewrite !fmap_cons. cbn [Counter hash_key bind add_all]. apply IH.
Qed.

Lemma well_shaped_items entry :
  well_shaped entry →
  ∃ track artist z,
    getitem entry "trackName" = Ok (VStr track) ∧
    getitem entry "artistName" = Ok (VStr artist) ∧
    getitem entry "msPlayed" = Ok (VInt z) ∧
    field_name "trackName" entry = Some track ∧
    field_name "artistName" entry = Some artist ∧
    playtime_of entry = Some z.
Proof.
  intros (d & -> & _ & _ & (a & Ha) & (t & Ht) & (z & Hz)).
  exists t, a, z. simpl. by rewrite Ha, Ht, Hz.
Qed.

Lemma omap_cons {A B} (f : A → option B) x l :
  omap f (x :: l) =
    match f x with Some y => y :: omap f l | None => omap f l end.
Proof. reflexivity. Qed.

Lemma playtimes_add_all field content totals :
  field = "trackName" ∨ field = "artistName" →
  Forall well_shaped content →
  playtimes field content totals =
    Ok (add_all (omap (play_item field) content) totals).
Proof.
  intros Hfield Hall. revert totals.
  induction Hall as [|entry content Hentry _ IH]; intros totals; [done|].
  destruct (well_shaped_items entry Hentry)
    as (t & a & z & Hgt & Hga & Hgz & Hnt & Hna & Hpz).
  rewrite omap_cons. cbn [playtimes]. unfold play_item at 1.
  destruct Hfield as [-> | ->].
  - rewrite Hgt, Hgz, Hnt, Hpz. simpl. apply IH.
  - rewrite Hga, Hgz, Hna, Hpz. simpl. apply IH.
Qed.

Lemma freq_add_all content top_n :
  Forall well_shaped content →
  most_played_freq content top_n =
    Ok (most_common
          (add_all ((λ k, (k, 1)) <$> omap (field_name "trackName") content) [])
          top_n).
Proof.
  intros Hall. unfold most_played_freq.
  rewrite (traverse_track_names content Hall). simpl.
  by rewrite Counter_add_all.
Qed.

Lemma items_fst_count (names : list string) :
  ((λ k, (k, 1)) <$> names).*1 = names.
Proof. rewrite <- list_fmap_compose. apply list_fmap_id. Qed.

Lemma items_fst_play field content :
  Forall well_shaped content →
  (omap (play_item field) content).*1 = omap (field_name field) content.
Proof.
  induction 1 as [|entry content Hentry _ IH]; [done|].
  destruct (well_shaped_items entry Hentry) as (t & a & z & _ & _ & _ & _ & _ & Hz).
  rewrite !omap_cons. unfold play_item at 1. rewrite Hz.
  destruct (field_name field entry); cbn [mbind option_bind];
    rewrite ?fmap_cons, IH; done.
Qed.

Lemma items_total_count field key content :
  foldr (λ kv acc, (if decide (kv.1 = key) then kv.2 else 0) + acc) 0
    ((λ k, (k, 1)) <$> omap (field_name field) content)
  = count_of field key content.
Proof.
  unfold count_of. induction content as [|entry content IH]; [done|].
  rewrite omap_cons. cbn [total_by].
  destruct (field_name field entry) as [k|].
  - rewrite fmap_cons. cbn [foldr fst snd]. rewrite IH.
    destruct (decide (k = key)) as [->|Hne].
    + by rewrite decide_True.
    + rewrite decide_False; [done|congruence].
  - by rewrite IH.
Qed.

Lemma items_total_play field key content :
  Forall well_shaped content →
  foldr (λ kv acc, (if decide (kv.1 = key) then kv.2 else 0) + acc) 0
    (omap (play_item field) content) = playtime_total field key content.
Proof.
  unfold playtime_total. induction 1 as [|entry content Hentry _ IH]; [done|].
  destruct (well_shaped_items entry Hentry) as (t & a & z & _ & _ & _ & _ & _ & Hz).
  rewrite omap_cons. cbn [total_by]. unfold play_item at 1. rewrite Hz.
  destruct (field_name field entry) as [k|]; cbn [mbind option_bind default].
  - cbn [foldr fst snd]. rewrite IH. destruct (decide (k = key)) as [->|Hne].
    + by rewrite decide_True.
    + rewrite decide_False; [done|congruence].
  - by rewrite IH.
Qed.

(** Whatever [top_n], a ranking is the beginning of the sorted items. *)
Lemma most_common_prefix d n : ∃ m, most_common d n = take m (sorted_desc d).
Proof.
  unfold most_common. destruct (n <=? 0); [by exists 0%nat|by eexists].
Qed.

Lemma slice_to_prefix {A} (l : list A) n : ∃ m, slice_to l n = take m l.
Proof. unfold slice_to. destruct (n <? 0); by eexists. Qed.

Lemma count_of_pos field key content :
  key ∈ omap (field_name field) content → 1 ≤ count_of field key content.
Proof.
  unfold count_of. induction content as [|entry content IH]; intros Hin.
  - by apply elem_of_nil in Hin.
  - assert (Hnn : ∀ l, 0 ≤ total_by (λ _, 1) field key l).
    { clear. induction l as [|e l IH]; simpl; [lia|]. case_decide; lia. }
    rewrite omap_cons in Hin. cbn [total_by].
    destruct (field_name field entry) as [k|] eqn:Hk.
    + apply elem_of_cons in Hin as [->|Hin].
      * rewrite decide_True by done. specialize (Hnn content). lia.
      * specialize (IH Hin). case_decide; lia.
    + specialize (IH Hin). rewrite decide_False by done. lia.
Qed.

Lemma rankings_structure content top_n :
  Forall well_shaped content →
  most_played_freq content top_n =
    Ok (most_common
          (add_all ((λ k, (k, 1)) <$> omap (field_name "trackName") content) [])
          top_n) ∧
  most_played_by_playtime content top_n =
    Ok (slice_to
          (sorted_desc (add_all (omap (play_item "trackName") content) []))
          top_n) ∧
  top_artist_by_playtime content top_n =
    Ok (slice_to
          (sorted_desc (add_all (omap (play_item "artistName") content) []))
          top_n).
Proof.
  intros Hall. split; [by apply freq_add_all|].
  unfold most_played_by_playtime, top_artist_by_playtime.
  rewrite (playtimes_add_all "trackName") by (done || by left).
  rewrite (playtimes_add_all "artistName") by (done || by right). done.
Qed.

(** An entry of a beginning of the sorted items is an item of the
    dictionary, and no key comes twice. *)
Lemma sorted_prefix_entries m (d : list (string * Z)) :
  NoDup d.*1 →
  NoDup (take m (sorted_desc d)).*1 ∧
  ∀ k v, (k, v) ∈ take m (sorted_desc d) → k ∈ d.*1 ∧ dict_get d k = v.
Proof.
  intros Hnd. split.
  - eapply sublist_NoDup; [|apply fmap_sublist, sublist_take].
    by rewrite (sorted_desc_perm d).
  - intros k v Hin%subseteq_take. rewrite (sorted_desc_perm d) in Hin.
    split; [|by apply dict_get_elem].
    apply list_elem_of_fmap. by exists (k, v).
Qed.

(** The stable sort leaves the items of one score in the order they had. *)
Lemma insert_desc_filter (v : Z) x l :
  filter (λ kv : string * Z, kv.2 = v) (insert_desc x l) =
  filter (λ kv : string * Z, kv.2 = v) (x :: l).
Proof.
  induction l as [|y l IH]; [done|]. cbn [insert_desc].
  destruct (decide (y.2 ≤ x.2)) as [Hle|Hgt]; [done|].
  rewrite (filter_cons _ y), IH, !(filter_cons _ x), (filter_cons _ y).
  destruct (decide (x.2 = v)), (decide (y.2 = v)); try done. lia.
Qed.

Lemma sorted_desc_filter (v : Z) items :
  filter (λ kv : string * Z, kv.2 = v) (sorted_desc items) =
  filter (λ kv : string * Z, kv.2 = v) items.
Proof.
  induction items as [|x items IH]; [done|].
  change (sorted_desc (x :: items)) with (insert_desc x (sorted_desc items)).
  by rewrite insert_desc_filter, !(filter_cons _ x), IH.
Qed.

Lemma sorted_prefix_ties m v (d : list (string * Z)) :
  (filter (λ kv : string * Z, kv.2 = v) (take m (sorted_desc d))).*1
    `sublist_of` d.*1.
Proof.
  apply fmap_sublist. etrans; [|apply (sublist_filter (λ kv, kv.2 = v))].
  rewrite <- (sorted_desc_filter v d).
  rewrite <- (take_drop m (sorted_desc d)) at 2.
  rewrite filter_app. by apply sublist_inserts_r.
Qed.

(** What is cut off a beginning of the sorted items scores no higher than
    anything kept. *)
Lemma sorted_prefix_largest m (d : list (string * Z)) k k' v' :
  k ∈ d.*1 → k ∉ (take m (sorted_desc d)).*1 →
  (k', v') ∈ take m (sorted_desc d) → dict_get d k ≤ v'.
Proof.
  intros Hk Hout Hin.
  assert (Hs : (k, dict_get d k) ∈ sorted_desc d).
  { rewrite (sorted_desc_perm d). by apply dict_get_key. }
  rewrite <- (take_drop m (sorted_desc d)) in Hs.
  apply elem_of_app in Hs as [Hs|Hs].
  { destruct Hout. apply list_elem_of_fmap. by exists (k, dict_get d k). }
  pose proof (sorted_desc_sorted d) as Hsorted.
  rewrite <- (take_drop m (sorted_desc d)) in Hsorted.
  apply (StronglySorted_app_1_elem_of _ _ _ _ _ Hsorted Hin Hs).
Qed.

Section RankingFacts.
Variable set_iter : gset string → list string.
Hypothesis set_iter_perm : ∀ s, set_iter s ≡ₚ elements s.
Variable content : list value.
Hypothesis validated : validate_content set_iter content TEMPLATE = Ok true.

Lemma validated_well_shaped : Forall well_shaped content.
Proof. by apply (validate_content_true_iff set_iter set_iter_perm). Qed.

(** The three dictionaries behind the rankings: their keys are the names in
    the order of first occurrence, and each key holds its total. *)
Lemma counter_facts :
  let c := add_all ((λ k, (k, 1)) <$> omap (field_name "trackName") content) []
  in NoDup c.*1 ∧ c.*1 = first_seen (omap (field_name "trackName") content) ∧
     (∀ k, k ∈ c.*1 ↔ k ∈ omap (field_name "trackName") content) ∧
     ∀ k, dict_get c k = count_of "trackName" k content.
Proof.
  simpl. split; [apply add_all_NoDup, NoDup_nil_2|]. split.
  { by rewrite add_all_fst, items_fst_count. }
  split.
  - intros k. rewrite add_all_keys, items_fst_count, fmap_nil, elem_of_nil.
    tauto.
  - intros k. by rewrite add_all_get, items_total_count.
Qed.

Lemma playtimes_facts field :
  field = "trackName" ∨ field = "artistName" →
  let t := add_all (omap (play_item field) content) [] in
  NoDup t.*1 ∧ t.*1 = first_seen (omap (field_name field) content) ∧
  (∀ k, k ∈ t.*1 ↔ k ∈ omap (field_name field) content) ∧
  ∀ k, dict_get t k = playtime_total field k content.
Proof.
  intros Hfield. pose proof validated_well_shaped as Hall. simpl.
  split; [apply add_all_NoDup, NoDup_nil_2|]. split.
  { by rewrite add_all_fst, items_fst_play. }
  split.
  - intros k. rewrite add_all_keys, items_fst_play, fmap_nil, elem_of_nil by done.
    tauto.
  - intros k. by rewrite add_all_get, items_total_play.
Qed.
End RankingFacts.

Lemma rankings_prefixes content top_n :
  Forall well_shaped content →
  ∃ mf mp ma,
    most_played_freq content top_n =
      Ok (take mf (sorted_desc (add_all
            ((λ k, (k, 1)) <$> omap (field_name "trackName") content) []))) ∧
    most_played_by_playtime content top_n =
      Ok (take mp (sorted_desc
            (add_all (omap (play_item "trackName") content) []))) ∧
    top_artist_by_playtime content top_n =
      Ok (take ma (sorted_desc
            (add_all (omap (play_item "artistName") content) []))).
Proof.
  intros Hall.
  destruct (rankings_structure content top_n Hall) as (-> & -> & ->).
  destruct (most_common_prefix (add_all
    ((λ k, (k, 1)) <$> omap (field_name "trackName") content) []) top_n)
    as [mf ->].
  destruct (slice_to_prefix (sorted_desc
    (add_all (omap (play_item "trackName") content) [])) top_n) as [mp ->].
  destruct (slice_to_prefix (sorted_desc
    (add_all (omap (play_item "artistName") content) [])) top_n) as [ma ->].
  by exists mf, mp, ma.
Qed.

(** X1: on validated records and for any [top_n], every entry of a ranking
    carries the true total of its key: the number of records naming the track
    (at least 1), or the sum of [msPlayed] over the records naming the track
    or the artist; and no key is listed twice. *)
Theorem ranking_scores_are_totals set_iter content top_n :
  (∀ s, set_iter s ≡ₚ elements s) →
  validate_content set_iter content TEMPLATE = Ok true →
  ∃ top_freq top_playtime top_artist,
    most_played_freq content top_n = Ok top_freq ∧
    most_played_by_playtime content top_n = Ok top_playtime ∧
    top_artist_by_playtime content top_n = Ok top_artist ∧
    NoDup top_freq.*1 ∧ NoDup top_playtime.*1 ∧ NoDup top_artist.*1 ∧
    (∀ k v, (k, v) ∈ top_freq →
       v = count_of "trackName" k content ∧ 1 ≤ v) ∧
    (∀ k v, (k, v) ∈ top_playtime →
       v = playtime_total "trackName" k content) ∧
    (∀ k v, (k, v) ∈ top_artist →
       v = playtime_total "artistName" k content).
Proof.
  intros Hperm Hvalid.
  pose proof (validated_well_shaped set_iter Hperm content Hvalid) as Hall.
  destruct (rankings_prefixes content top_n Hall)
    as (mf & mp & ma & Hf & Hp & Ha).
  destruct (counter_facts content) as (Hndc & _ & Hkc & Hgc).
  destruct (playtimes_facts set_iter Hperm content Hvalid "trackName")
    as (Hndt & _ & _ & Hgt); [by left|].
  destruct (playtimes_facts set_iter Hperm content Hvalid "artistName")
    as (Hnda & _ & _ & Hga); [by right|].
  destruct (sorted_prefix_entries mf _ Hndc) as [Hnf Hef].
  destruct (sorted_prefix_entries mp _ Hndt) as [Hnp Hep].
  destruct (sorted_prefix_entries ma _ Hnda) as [Hna Hea].
  eexists _, _, _. split_and!; try eassumption.
  - intros k v Hin. destruct (Hef k v Hin) as [Hk <-]. rewrite Hgc.
    split; [done|]. by apply count_of_pos, Hkc.
  - intros k v Hin. destruct (Hep k v Hin) as [_ <-]. apply Hgt.
  - intros k v Hin. destruct (Hea k v Hin) as [_ <-]. apply Hga.
Qed.

Lemma ranking_scores_are_totals_witness :
  validate_content elements
    (scenario "2023-01-05 14:30" "2023-01-05 14:35" "2023-01-05 14:40")
    TEMPLATE = Ok true ∧
  ∃ top_freq,
    most_played_freq
      (scenario "2023-01-05 14:30" "2023-01-05 14:35" "2023-01-05 14:40") 1
      = Ok top_freq ∧
    ∀ k v, (k, v) ∈ top_freq →
      v = count_of "trackName" k
            (scenario "2023-01-05 14:30" "2023-01-05 14:35" "2023-01-05 14:40").
Proof.
  split; [vm_compute; reflexivity|].
  destruct (ranking_scores_are_totals elements
              (scenario "2023-01-05 14:30" "2023-01-05 14:35"
                 "2023-01-05 14:40") 1)
    as (f & p & a & Hf & _ & _ & _ & _ & _ & Hscore & _);
    [intros s; reflexivity | vm_compute; reflexivity |].
  exists f. split; [exact Hf|]. intros k v Hin. by apply Hscore.
Defined.

(** X2: a ranking keeps the largest totals.  On validated records and for
    any [top_n], a key of the input that a ranking leaves out has a total no
    greater than the score of any entry the ranking lists. *)
Theorem ranking_keeps_largest set_iter content top_n :
  (∀ s, set_iter s ≡ₚ elements s) →
  validate_content set_iter content TEMPLATE = Ok true →
  ∃ top_freq top_playtime top_artist,
    most_played_freq content top_n = Ok top_freq ∧
    most_played_by_playtime content top_n = Ok top_playtime ∧
    top_artist_by_playtime content top_n = Ok top_artist ∧
    (∀ k k' v', k ∈ omap (field_name "trackName") content →
       k ∉ top_freq.*1 → (k', v') ∈ top_freq →
       count_of "trackName" k content ≤ v') ∧
    (∀ k k' v', k ∈ omap (field_name "trackName") content →
       k ∉ top_playtime.*1 → (k', v') ∈ top_playtime →
       playtime_total "trackName" k content ≤ v') ∧
    (∀ k k' v', k ∈ omap (field_name "artistName") content →
       k ∉ top_artist.*1 → (k', v') ∈ top_artist →
       playtime_total "artistName" k content ≤ v').
Proof.
  intros Hperm Hvalid.
  pose proof (validated_well_shaped set_iter Hperm content Hvalid) as Hall.
  destruct (rankings_prefixes content top_n Hall)
    as (mf & mp & ma & Hf & Hp & Ha).
  destruct (counter_facts content) as (_ & _ & Hkc & Hgc).
  destruct (playtimes_facts set_iter Hperm content Hvalid "trackName")
    as (_ & _ & Hkt & Hgt); [by left|].
  destruct (playtimes_facts set_iter Hperm content Hvalid "artistName")
    as (_ & _ & Hka & Hga); [by right|].
  eexists _, _, _. split_and!; try eassumption.
  - intros k k' v' Hk Hout Hin. rewrite <- Hgc.
    eapply sorted_prefix_largest; [by apply Hkc|done..].
  - intros k k' v' Hk Hout Hin. rewrite <- Hgt.
    eapply sorted_prefix_largest; [by apply Hkt|done..].
  - intros k k' v' Hk Hout Hin. rewrite <- Hga.
    eapply sorted_prefix_largest; [by apply Hka|done..].
Qed.

Lemma ranking_keeps_largest_witness :
  validate_content elements
    (scenario "2023-01-05 14:30" "2023-01-05 14:35" "2023-01-05 14:40")
    TEMPLATE = Ok true ∧
  ∃ top_playtime,
    most_played_by_playtime
      (scenario "2023-01-05 14:30" "2023-01-05 14:35" "2023-01-05 14:40") 1
      = Ok top_playtime ∧
    ∀ k' v', (k', v') ∈ top_playtime →
      playtime_total "trackName" "trackA"
        (scenario "2023-01-05 14:30" "2023-01-05 14:35" "2023-01-05 14:40")
      ≤ v'.
Proof.
  split; [vm_compute; reflexivity|].
  destruct (ranking_keeps_largest elements
              (scenario "2023-01-05 14:30" "2023-01-05 14:35"
                 "2023-01-05 14:40") 1)
    as (f & p & a & _ & Hp & _ & _ & Hlargest & _);
    [intros s; reflexivity | vm_compute; reflexivity |].
  exists p. split; [exact Hp|]. intros k' v' Hin.
  apply (Hlargest "trackA" k' v'); [| |exact Hin].
  - vm_compute. apply list_elem_of_here.
  - assert (Hv : p = [("trackB", 600000)]).
    { vm_compute in Hp. by injection Hp as <-. }
    rewrite Hv. intros [?|[]%elem_of_nil]%elem_of_cons. discriminate.
Defined.

(** X3: ties keep the order of the input.  On validated records and for any
    [top_n], the keys that a ranking lists with one and the same score stand
    in the order in which they first occur in the records. *)
Theorem ranking_ties_in_input_order set_iter content top_n :
  (∀ s, set_iter s ≡ₚ elements s) →
  validate_content set_iter content TEMPLATE = Ok true →
  ∃ top_freq top_playtime top_artist,
    most_played_freq content top_n = Ok top_freq ∧
    most_played_by_playtime content top_n = Ok top_playtime ∧
    top_artist_by_playtime content top_n = Ok top_artist ∧
    ∀ v : Z,
      (filter (λ kv, kv.2 = v) top_freq).*1
        `sublist_of` first_seen (omap (field_name "trackName") content) ∧
      (filter (λ kv, kv.2 = v) top_playtime).*1
        `sublist_of` first_seen (omap (field_name "trackName") content) ∧
      (filter (λ kv, kv.2 = v) top_artist).*1
        `sublist_of` first_seen (omap (field_name "artistName") content).
Proof.
  intros Hperm Hvalid.
  pose proof (validated_well_shaped set_iter Hperm content Hvalid) as Hall.
  destruct (rankings_prefixes content top_n Hall)
    as (mf & mp & ma & Hf & Hp & Ha).
  destruct (counter_facts content) as (_ & Hfc & _).
  destruct (playtimes_facts set_iter Hperm content Hvalid "trackName")
    as (_ & Hft & _); [by left|].
  destruct (playtimes_facts set_iter Hperm content Hvalid "artistName")
    as (_ & Hfa & _); [by right|].
  eexists _, _, _. split_and!; try eassumption. intros v. split_and!.
  - rewrite <- Hfc. apply sorted_prefix_ties.
  - rewrite <- Hft. apply sorted_prefix_ties.
  - rewrite <- Hfa. apply sorted_prefix_ties.
Qed.

Lemma ranking_ties_in_input_order_witness :
  validate_content elements
    [mk_record "2023-01-05 14:30" "artistX" "trackB" 1000;
     mk_record "2023-01-05 14:35" "artistY" "trackA" 1000] TEMPLATE = Ok true ∧
  most_played_by_playtime
    [mk_record "2023-01-05 14:30" "artistX" "trackB" 1000;
     mk_record "2023-01-05 14:35" "artistY" "trackA" 1000] 2
    = Ok [("trackB", 1000); ("trackA", 1000)] ∧
  ∃ top_playtime,
    most_played_by_playtime
      [mk_record "2023-01-05 14:30" "artistX" "trackB" 1000;
       mk_record "2023-01-05 14:35" "artistY" "trackA" 1000] 2
      = Ok top_playtime ∧
    (filter (λ kv, kv.2 = 1000) top_playtime).*1
      `sublist_of` ["trackB"; "trackA"].
Proof.
  split; [vm_compute; reflexivity|]. split; [vm_compute; reflexivity|].
  destruct (ranking_ties_in_input_order elements
              [mk_record "2023-01-05 14:30" "artistX" "trackB" 1000;
               mk_record "2023-01-05 14:35" "artistY" "trackA" 1000] 2)
    as (f & p & a & _ & Hp & _ & Hties);
    [intros s; reflexivity | vm_compute; reflexivity |].
  exists p. split; [exact Hp|]. by destruct (Hties 1000) as (_ & Htie & _).
Defined.

Lemma length_omap_le {A B} (f : A → option B) l :
  (length (omap f l) ≤ length l)%nat.
Proof.
  induction l as [|x l IH]; [done|]. rewrite omap_cons.
  destruct (f x); simpl; lia.
Qed.

(** X4: a [top_n] of 0 empties all three rankings.  A negative [top_n]
    empties the ranking by frequency, but makes the two playtime rankings
    drop their last [-top_n] entries, the slice [[:top_n]] counting from the
    end. *)
Theorem rankings_nonpositive_top_n set_iter content top_n :
  (∀ s, set_iter s ≡ₚ elements s) →
  validate_content set_iter content TEMPLATE = Ok true → top_n ≤ 0 →
  ∃ all_playtime all_artist,
    most_played_by_playtime content (Z.of_nat (length content))
      = Ok all_playtime ∧
    top_artist_by_playtime content (Z.of_nat (length content))
      = Ok all_artist ∧
    most_played_freq content top_n = Ok [] ∧
    most_played_by_playtime content top_n =
      Ok (if top_n =? 0 then []
          else take (length all_playtime - Z.to_nat (- top_n)) all_playtime) ∧
    top_artist_by_playtime content top_n =
      Ok (if top_n =? 0 then []
          else take (length all_artist - Z.to_nat (- top_n)) all_artist).
Proof.
  intros Hperm Hvalid Hn.
  pose proof (validated_well_shaped set_iter Hperm content Hvalid) as Hall.
  destruct (rankings_structure content top_n Hall) as (-> & -> & ->).
  destruct (rankings_structure content (Z.of_nat (length content)) Hall)
    as (_ & -> & ->).
  assert (Hfull : ∀ items : list (string * Z),
    (length items ≤ length content)%nat →
    slice_to (sorted_desc (add_all items [])) (Z.of_nat (length content))
      = sorted_desc (add_all items [])).
  { intros items Hlen. unfold slice_to.
    destruct (Z.ltb_spec (Z.of_nat (length content)) 0); [lia|].
    apply take_ge. rewrite (Permutation_length (sorted_desc_perm _)).
    pose proof (add_all_length items []). simpl in *. lia. }
  rewrite !Hfull by apply length_omap_le.
  eexists _, _. split_and!; try done.
  - unfold most_common. by destruct (Z.leb_spec top_n 0); [|lia].
  - unfold slice_to. destruct (Z.eqb_spec top_n 0) as [->|Hne]; [done|].
    by destruct (Z.ltb_spec top_n 0); [|lia].
  - unfold slice_to. destruct (Z.eqb_spec top_n 0) as [->|Hne]; [done|].
    by destruct (Z.ltb_spec top_n 0); [|lia].
Qed.

Lemma rankings_nonpositive_top_n_witness :
  validate_content elements
    (scenario "2023-01-05 14:30" "2023-01-05 14:35" "2023-01-05 14:40")
    TEMPLATE = Ok true ∧
  most_played_freq
    (scenario "2023-01-05 14:30" "2023-01-05 14:35" "2023-01-05 14:40") (-1)
    = Ok [] ∧
  most_played_by_playtime
    (scenario "2023-01-05 14:30" "2023-01-05 14:35" "2023-01-05 14:40") (-1)
    = Ok [("trackB", 600000)].
Proof.
  split; [vm_compute; reflexivity|].
  destruct (rankings_nonpositive_top_n elements
              (scenario "2023-01-05 14:30" "2023-01-05 14:35"
                 "2023-01-05 14:40") (-1))
    as (p & a & Hp & _ & Hf & Hp' & _);
    [intros s; reflexivity | vm_compute; reflexivity | lia |].
  split; [exact Hf|]. rewrite Hp'.
  vm_compute in Hp. injection Hp as <-. vm_compute. reflexivity.
Defined.

Lemma traverse_app_raise {A B} (f : A → outcome B) pre x rest e :
  Forall (λ y, ∃ b, f y = Ok b) pre → f x = Raise e →
  traverse f (pre ++ x :: rest) = Raise e.
Proof.
  intros Hpre Hx. induction Hpre as [|y pre [b Hy] _ IH]; simpl.
  - by rewrite Hx.
  - by rewrite Hy, IH.
Qed.

Lemma playtimes_app field pre rest totals :
  field = "trackName" ∨ field = "artistName" →
  Forall well_shaped pre →
  playtimes field (pre ++ rest) totals =
    playtimes field rest (add_all (omap (play_item field) pre) totals).
Proof.
  intros Hfield Hpre. revert totals.
  induction Hpre as [|entry pre Hentry _ IH]; intros totals; [done|].
  destruct (well_shaped_items entry Hentry)
    as (t & a & z & Hgt & Hga & Hgz & Hnt & Hna & Hpz).
  rewrite <- app_comm_cons, omap_cons. cbn [playtimes]. unfold play_item at 1.
  destruct Hfield as [-> | ->].
  - rewrite Hgt, Hgz, Hnt, Hpz. simpl. apply IH.
  - rewrite Hga, Hgz, Hna, Hpz. simpl. apply IH.
Qed.

(** X5: the rankings fail on the first record that cannot be read.  After
    well-shaped records, an entry that is not a dict makes all three raise
    [TypeError]; a dict without [trackName] makes the two track rankings
    raise [KeyError], one without [artistName] the artist ranking, and one
    without [msPlayed] whichever playtime ranking finds its name field. *)
Theorem rankings_unreadable_record pre entry rest top_n :
  Forall well_shaped pre →
  (type_of entry ≠ TDict →
     most_played_freq (pre ++ entry :: rest) top_n = Raise TypeError ∧
     most_played_by_playtime (pre ++ entry :: rest) top_n = Raise TypeError ∧
     top_artist_by_playtime (pre ++ entry :: rest) top_n = Raise TypeError) ∧
  (∀ d, entry = VDict d → d !! "trackName" = None →
     most_played_freq (pre ++ entry :: rest) top_n = Raise KeyError ∧
     most_played_by_playtime (pre ++ entry :: rest) top_n = Raise KeyError) ∧
  (∀ d, entry = VDict d → d !! "artistName" = None →
     top_artist_by_playtime (pre ++ entry :: rest) top_n = Raise KeyError) ∧
  (∀ d, entry = VDict d → d !! "msPlayed" = None →
     (is_Some (d !! "trackName") →
        most_played_by_playtime (pre ++ entry :: rest) top_n
          = Raise KeyError) ∧
     (is_Some (d !! "artistName") →
        top_artist_by_playtime (pre ++ entry :: rest) top_n
          = Raise KeyError)).
Proof.
  intros Hpre.
  assert (Hfreq : ∀ e, getitem entry "trackName" = Raise e →
    most_played_freq (pre ++ entry :: rest) top_n = Raise e).
  { intros e He. unfold most_played_freq.
    rewrite (traverse_app_raise _ pre entry rest e); [reflexivity| |done].
    eapply Forall_impl; [exact Hpre|]. intros y Hy.
    destruct (well_shaped_items y Hy) as (t & _ & _ & -> & _). by eexists. }
  assert (Hplay : ∀ field e, field = "trackName" ∨ field = "artistName" →
    (name ←! getitem entry field; getitem entry "msPlayed") = Raise e →
    playtimes field (pre ++ entry :: rest) [] = Raise e).
  { intros field e Hfield He. rewrite playtimes_app by done.
    cbn [playtimes]. destruct (getitem entry field) as [name| |];
      simpl in He |- *.
    - by rewrite He.
    - by injection He as ->.
    - discriminate. }
  unfold most_played_by_playtime, top_artist_by_playtime. split_and!.
  - intros Hty.
    assert (Hget : ∀ key, getitem entry key = Raise TypeError).
    { intros key. by destruct entry. }
    split_and!.
    + apply Hfreq, Hget.
    + rewrite (Hplay "trackName" TypeError); [reflexivity|by left|].
      by rewrite Hget.
    + rewrite (Hplay "artistName" TypeError); [reflexivity|by right|].
      by rewrite Hget.
  - intros d -> Hnone. split.
    + apply Hfreq. simpl. by rewrite Hnone.
    + rewrite (Hplay "trackName" KeyError); [reflexivity|by left|].
      simpl. by rewrite Hnone.
  - intros d -> Hnone.
    rewrite (Hplay "artistName" KeyError); [reflexivity|by right|].
    simpl. by rewrite Hnone.
  - intros d -> Hnone. split; intros [name Hname].
    + rewrite (Hplay "trackName" KeyError); [reflexivity|by left|].
      simpl. by rewrite Hname, Hnone.
    + rewrite (Hplay "artistName" KeyError); [reflexivity|by right|].
      simpl. by rewrite Hname, Hnone.
Qed.

Lemma rankings_unreadable_record_witness :
  Forall well_shaped [mk_record "2023-01-05 14:30" "artistX" "trackA" 30000] ∧
  most_played_freq
    ([mk_record "2023-01-05 14:30" "artistX" "trackA" 30000] ++
     VDict (<["artistName" := VStr "artistY"]> ∅) :: []) 10 = Raise KeyError ∧
  top_artist_by_playtime
    ([mk_record "2023-01-05 14:30" "artistX" "trackA" 30000] ++
     VDict (<["artistName" := VStr "artistY"]> ∅) :: []) 10 = Raise KeyError.
Proof.
  assert (Hpre : Forall well_shaped
            [mk_record "2023-01-05 14:30" "artistX" "trackA" 30000]).
  { constructor; [apply mk_record_well_shaped|constructor]. }
  split; [exact Hpre|].
  destruct (rankings_unreadable_record
              [mk_record "2023-01-05 14:30" "artistX" "trackA" 30000]
              (VDict (<["artistName" := VStr "artistY"]> ∅)) [] 10 Hpre)
    as (_ & Htrack & _ & Hms).
  split.
  - by apply (Htrack _ eq_refl).
  - apply (Hms _ eq_refl); [done|]. by eexists.
Defined.


(** * More on validation *)

Section TemplateFacts.
Variable set_iter : gset string → list string.
Hypothesis set_iter_perm : ∀ s, set_iter s ≡ₚ elements s.
Variable t0 : gmap string value.

Lemma check_types_dom n (d : gmap string value) :
  dom d = dom t0 →
  (∀ k, k ∈ dom t0 → kinds_match d t0 k) ∧
  (check_types n d t0 (set_iter (dom t0))).2 = Ok true ∨
  ¬ (∀ k, k ∈ dom t0 → kinds_match d t0 k) ∧
  (check_types n d t0 (set_iter (dom t0))).2 = Ok false.
Proof.
  intros Hdom.
  destruct (check_types_cases n d t0 (set_iter (dom t0)))
    as [[Hall ->]|(passed & key & later & v & t & Hk & _ & Hv & Ht & Hne & ->)].
  - intros k Hk%(set_iter_elem set_iter set_iter_perm).
    split; apply elem_of_dom; [by rewrite Hdom|done].
  - left. split; [|done]. intros k Hk. rewrite Forall_forall in Hall.
    by apply Hall, (set_iter_elem set_iter set_iter_perm).
  - right. split; [|done]. intros Hall.
    destruct (Hall key) as (v' & t' & Hv' & Ht' & Heq); [|congruence].
    apply (set_iter_elem set_iter set_iter_perm). rewrite Hk.
    apply elem_of_app. right. left.
Qed.

Lemma validate_loop_head_other n v rest :
  type_of v ≠ TDict →
  (validate_loop set_iter n (v :: rest) t0 (dom t0)).2 = Raise AttributeError.
Proof. by destruct v. Qed.

Lemma validate_loop_head_match n v rest :
  matches_template t0 v →
  (validate_loop set_iter n (v :: rest) t0 (dom t0)).2 =
  (validate_loop set_iter (S n) rest t0 (dom t0)).2.
Proof.
  intros (d & -> & Hdom & Hkinds). cbn [validate_loop].
  rewrite decide_False by (by intros []).
  destruct (check_types_dom n d Hdom) as [[_ Hrun]|[Hno _]]; [|done].
  destruct (check_types n d t0 (set_iter (dom t0))) as [tr r].
  simpl in Hrun. subst r.
  by destruct (validate_loop set_iter (S n) rest t0 (dom t0)).
Qed.

Lemma validate_loop_head_mismatch n (d : gmap string value) rest :
  ¬ matches_template t0 (VDict d) →
  (validate_loop set_iter n (VDict d :: rest) t0 (dom t0)).2 = Ok false.
Proof.
  intros Hno. cbn [validate_loop].
  destruct (decide (dom d ≠ dom t0)) as [|Hdom%dec_stable]; [done|].
  destruct (check_types_dom n d Hdom) as [[Hall _]|[_ Hrun]].
  { destruct Hno. by exists d. }
  destruct (check_types n d t0 (set_iter (dom t0))) as [tr r].
  simpl in Hrun. by subst r.
Qed.

Lemma validate_loop_skip n pre rest :
  Forall (matches_template t0) pre →
  (validate_loop set_iter n (pre ++ rest) t0 (dom t0)).2 =
  (validate_loop set_iter (n + length pre) rest t0 (dom t0)).2.
Proof.
  intros Hpre. revert n. induction Hpre as [|v pre Hv _ IH]; intros n.
  - simpl. by rewrite Nat.add_0_r.
  - rewrite <- app_comm_cons, (validate_loop_head_match _ _ _ Hv), IH.
    simpl. by rewrite Nat.add_succ_r.
Qed.

(** The loop ends in one of three ways, told apart by the first entry that
    does not match the template. *)
Lemma validate_loop_ways n content :
  (validate_loop set_iter n content t0 (dom t0)).2 = Ok true ∧
    Forall (matches_template t0) content ∨
  (validate_loop set_iter n content t0 (dom t0)).2 = Ok false ∧
    (∃ pre d rest, content = pre ++ VDict d :: rest ∧
       Forall (matches_template t0) pre ∧ ¬ matches_template t0 (VDict d)) ∨
  (validate_loop set_iter n content t0 (dom t0)).2 = Raise AttributeError ∧
    (∃ pre v rest, content = pre ++ v :: rest ∧
       Forall (matches_template t0) pre ∧ type_of v ≠ TDict).
Proof.
  revert n. induction content as [|v content IH]; intros n.
  - left. split; [done|constructor].
  - destruct (decide (type_of v = TDict)) as [Hdict|Hother].
    2:{ right. right. split; [by apply validate_loop_head_other|].
        by exists [], v, content. }
    destruct v as [| | | | | |d]; try done.
    destruct (decide (dom d ≠ dom t0)) as [Hne|Hdom%dec_stable].
    { right. left. assert (Hno : ¬ matches_template t0 (VDict d)).
      { by intros (d' & [= <-] & Hd & _). }
      split; [by apply validate_loop_head_mismatch|].
      by exists [], d, content. }
    destruct (check_types_dom n d Hdom) as [[Hall _]|[Hno _]].
    + assert (Hm : matches_template t0 (VDict d)) by (by exists d).
      rewrite (validate_loop_head_match n _ content Hm).
      destruct (IH (S n)) as [[-> Hrest]|[[-> (pre & d' & rest & -> & Hpre & Hno)]
        |[-> (pre & v & rest & -> & Hpre & Hv)]]].
      * left. split; [done|by constructor].
      * right. left. split; [done|].
        exists (VDict d :: pre), d', rest. split; [done|].
        split; [by constructor|done].
      * right. right. split; [done|].
        exists (VDict d :: pre), v, rest. split; [done|].
        split; [by constructor|done].
    + right. left. assert (Hno' : ¬ matches_template t0 (VDict d)).
      { by intros (d' & [= <-] & _ & Hall). }
      split; [by apply validate_loop_head_mismatch|].
      by exists [], d, content.
Qed.
End TemplateFacts.

Lemma well_shaped_matches entry :
  well_shaped entry → matches_template TEMPLATE0 entry.
Proof.
  intros Hshape. pose proof Hshape as (d & -> & _).
  apply well_shaped_kinds in Hshape as [Hdom Hkinds].
  exists d. rewrite dom_TEMPLATE0. by split_and!.
Qed.

(** X6: for any template, only its first element counts, and
    [validate_content] answers true on exactly the non-empty sequences of
    dicts that have the keys of that element, each holding a value of the
    same kind as the element's. *)
Theorem validate_content_any_template set_iter content t0 more :
  (∀ s, set_iter s ≡ₚ elements s) →
  validate_content set_iter content (t0 :: more) = Ok true ↔
  content ≠ [] ∧ Forall (matches_template t0) content.
Proof.
  intros Hperm. unfold validate_content, validate_content_trace.
  destruct content as [|v content].
  { split; [discriminate|by intros []]. }
  destruct (validate_loop_ways set_iter Hperm t0 0 (v :: content))
    as [[Hrun Hall]|[[Hrun _]|[Hrun _]]]; rewrite Hrun.
  - by split.
  - split; [discriminate|]. intros [_ Hall].
    pose proof (validate_loop_skip set_iter Hperm t0 0 _ [] Hall) as Hskip.
    rewrite app_nil_r, Hrun in Hskip. discriminate.
  - split; [discriminate|]. intros [_ Hall].
    pose proof (validate_loop_skip set_iter Hperm t0 0 _ [] Hall) as Hskip.
    rewrite app_nil_r, Hrun in Hskip. discriminate.
Qed.

Lemma validate_content_any_template_witness :
  validate_content elements
    [VDict (<["id" := VInt 7]> ∅); VDict (<["id" := VInt 8]> ∅)]
    [<["id" := VInt 0]> ∅; ∅] = Ok true.
Proof.
  apply (validate_content_any_template elements); [intros s; reflexivity|].
  split; [done|].
  repeat constructor; eexists; (split; [reflexivity|]); (split; [done|]);
    intros k Hk; rewrite dom_insert_L in Hk;
    assert (k = "id") as -> by set_solver; by eexists _, _.
Defined.

(** X7: [validate_content] raises nothing but [AttributeError], and raises
    it exactly when the first entry that does not match the template is not
    a dict; entries after that one are never looked at. *)
Theorem validate_content_raises set_iter content t0 more :
  (∀ s, set_iter s ≡ₚ elements s) →
  (validate_content set_iter content (t0 :: more) = Raise AttributeError ↔
   ∃ pre v rest, content = pre ++ v :: rest ∧
     Forall (matches_template t0) pre ∧ type_of v ≠ TDict) ∧
  (∀ e, validate_content set_iter content (t0 :: more) = Raise e →
        e = AttributeError) ∧
  validate_content set_iter content (t0 :: more) ≠ Beyond.
Proof.
  intros Hperm. unfold validate_content, validate_content_trace.
  destruct content as [|v0 content].
  { split_and!; [|discriminate..]. split; [discriminate|].
    by intros ([|??] & ? & ? & ? & _). }
  destruct (validate_loop_ways set_iter Hperm t0 0 (v0 :: content))
    as [[Hrun Hall]|[[Hrun Hcase]|[Hrun Hcase]]]; rewrite Hrun;
    (split_and!; [|congruence..]).
  - split; [discriminate|]. intros (pre & v & rest & Heq & Hpre & Hv).
    rewrite Heq in Hrun.
    rewrite (validate_loop_skip set_iter Hperm t0 0 pre _ Hpre) in Hrun.
    by rewrite (validate_loop_head_other set_iter t0 _ v rest Hv) in Hrun.
  - split; [discriminate|]. intros (pre & v & rest & Heq & Hpre & Hv).
    rewrite Heq in Hrun.
    rewrite (validate_loop_skip set_iter Hperm t0 0 pre _ Hpre) in Hrun.
    by rewrite (validate_loop_head_other set_iter t0 _ v rest Hv) in Hrun.
  - by split.
Qed.

Lemma validate_content_raises_witness :
  validate_content elements
    ([mk_record "2023-01-05 14:30" "artistX" "trackA" 30000] ++
     VInt 3 :: [VDict ∅]) TEMPLATE = Raise AttributeError.
Proof.
  destruct (validate_content_raises elements
              ([mk_record "2023-01-05 14:30" "artistX" "trackA" 30000] ++
               VInt 3 :: [VDict ∅]) TEMPLATE0 [])
    as ([_ Hraise] & _); [intros s; reflexivity|].
  apply Hraise. eexists _, (VInt 3), _. split; [reflexivity|].
  split; [|done]. constructor; [|constructor].
  apply well_shaped_matches, mk_record_well_shaped.
Defined.

Lemma compared_app tr1 tr2 i :
  compared (tr1 ++ tr2) i = compared tr1 i ++ compared tr2 i.
Proof.
  unfold compared. induction tr1 as [|ev tr1 IH]; [done|].
  rewrite <- app_comm_cons, !omap_cons, IH. by case_match.
Qed.

Lemma compared_record order n i :
  compared (Compare n <$> order) i = if decide (n = i) then order else [].
Proof.
  unfold compared. induction order as [|k order IH].
  - by case_decide.
  - rewrite fmap_cons, omap_cons, IH. by case_decide.
Qed.

Lemma compared_passing order n len i :
  compared (passing_trace order n len) i =
    if decide (n ≤ i < n + len)%nat then order else [].
Proof.
  revert n. induction len as [|len IH]; intros n.
  - rewrite decide_False by lia. done.
  - rewrite passing_trace_cons, compared_app, compared_record, IH.
    destruct (decide (n = i)) as [->|Hne].
    + rewrite decide_False, decide_True by lia. by rewrite app_nil_r.
    + simpl. repeat case_decide; try done; lia.
Qed.

(** X8: when validation succeeds, the kind of every field of every record
    has been compared exactly once, record after record and within a record
    in the iteration order of the key set, and the only message logged is
    the final one that the content matches. *)
Theorem validation_success_trace set_iter content :
  (∀ s, set_iter s ≡ₚ elements s) →
  validate_content set_iter content TEMPLATE = Ok true →
  validate_content_trace set_iter content TEMPLATE =
    (passing_trace (set_iter schema_keys) 0 (length content) ++ [InfoMatches],
     Ok true) ∧
  ∀ i, (i < length content)%nat →
    compared (validate_content_trace set_iter content TEMPLATE).1 i
      = set_iter schema_keys.
Proof.
  intros Hperm Hvalid.
  apply (validate_content_true_iff set_iter Hperm) in Hvalid as [Hne Hall].
  assert (Htrace : validate_content_trace set_iter content TEMPLATE =
    (passing_trace (set_iter schema_keys) 0 (length content) ++ [InfoMatches],
     Ok true)).
  { unfold validate_content_trace, TEMPLATE. rewrite dom_TEMPLATE0.
    destruct content as [|entry content]; [done|].
    rewrite <- (app_nil_r (entry :: content)) at 1.
    by rewrite (validate_loop_passing set_iter Hperm 0 _ [] Hall). }
  split; [exact Htrace|]. intros i Hi. rewrite Htrace. simpl.
  rewrite compared_app, compared_passing, decide_True by lia.
  by rewrite app_nil_r.
Qed.

Lemma validation_success_trace_witness :
  validate_content elements
    (scenario "2023-01-05 14:30" "2023-01-05 14:35" "2023-01-05 14:40")
    TEMPLATE = Ok true ∧
  compared (validate_content_trace elements
    (scenario "2023-01-05 14:30" "2023-01-05 14:35" "2023-01-05 14:40")
    TEMPLATE).1 2 = elements schema_keys.
Proof.
  split; [vm_compute; reflexivity|].
  destruct (validation_success_trace elements
              (scenario "2023-01-05 14:30" "2023-01-05 14:35"
                 "2023-01-05 14:40")) as [_ Hcompared];
    [intros s; reflexivity | vm_compute; reflexivity |].
  apply Hcompared. simpl. lia.
Defined.

(** * More on the run *)

Lemma get_data_some set_iter read content :
  get_data set_iter read = Ok (Some content) →
  read = Some (VList content) ∧
  validate_content set_iter content TEMPLATE = Ok true.
Proof.
  unfold get_data. destruct read as [doc|]; [|discriminate].
  destruct (truthy doc); [|discriminate]. simpl.
  destruct doc as [| | | | |l|]; try discriminate.
  destruct (validate_content set_iter l TEMPLATE) as [[]| |] eqn:Hrun;
    try discriminate.
  simpl. by intros [= <-].
Qed.

(** X9: [get_data] hands back a list only if the file held a list on which
    [validate_content] answered true against [TEMPLATE], and then it is that
    very list, unchanged. *)
Theorem get_data_returns_validated set_iter read content :
  get_data set_iter read = Ok (Some content) ↔
  read = Some (VList content) ∧
  validate_content set_iter content TEMPLATE = Ok true.
Proof.
  split; [apply get_data_some|].
  intros [-> Hvalid]. unfold get_data. destruct content as [|entry content].
  - discriminate.
  - cbn [truthy negb length bool_decide]. by rewrite Hvalid.
Qed.

Lemma get_data_returns_validated_witness :
  get_data elements
    (Some (VList [mk_record "2023-01-05 14:30" "artistX" "trackA" 30000]))
  = Ok (Some [mk_record "2023-01-05 14:30" "artistX" "trackA" 30000]).
Proof.
  apply (get_data_returns_validated elements).
  split; [reflexivity | vm_compute; reflexivity].
Defined.

(** X10: [stats.txt] is opened for writing exactly when the file held a
    list that passes validation; a load failure, a rejected list, any other
    document and any exception of the validator leave no report behind. *)
Theorem report_written_iff_validated set_iter encodable read :
  (∀ s, set_iter s ≡ₚ elements s) →
  stats_file (main set_iter encodable read) ≠ None ↔
  ∃ content, read = Some (VList content) ∧
    validate_content set_iter content TEMPLATE = Ok true.
Proof.
  intros Hperm. split.
  - intros Hfile. destruct (get_data set_iter read) as [[content|]| |] eqn:Hget.
    + exists content. by apply get_data_some.
    + destruct Hfile. unfold main. by rewrite Hget.
    + destruct Hfile. unfold main. by rewrite Hget.
    + destruct Hfile. unfold main. by rewrite Hget.
  - intros (content & -> & Hvalid).
    destruct (main_validated set_iter encodable Hperm content Hvalid)
      as (f & p & a & _ & _ & _ & ->).
    destruct (write_report encodable f p a) as [file [u|e|]]; [|done..].
    by destruct (display_content content).2.
Qed.

Lemma report_written_iff_validated_witness :
  stats_file (main elements any_text
    (Some (VList [mk_record "2023-01-05 14:30" "artistX" "trackA" 30000])))
  ≠ None.
Proof.
  apply (report_written_iff_validated elements); [intros s; reflexivity|].
  eexists. split; [reflexivity | vm_compute; reflexivity].
Defined.

Lemma rankings_at_most_ten content top_freq top_playtime top_artist :
  Forall well_shaped content →
  most_played_freq content 10 = Ok top_freq →
  most_played_by_playtime content 10 = Ok top_playtime →
  top_artist_by_playtime content 10 = Ok top_artist →
  (length top_freq ≤ 10)%nat ∧ (length top_playtime ≤ 10)%nat ∧
  (length top_artist ≤ 10)%nat.
Proof.
  intros Hall Hf Hp Ha.
  destruct (rankings_structure content 10 Hall) as (Hf' & Hp' & Ha').
  rewrite Hf in Hf'. injection Hf' as ->.
  rewrite Hp in Hp'. injection Hp' as ->.
  rewrite Ha in Ha'. injection Ha' as ->.
  unfold most_common, slice_to. simpl. rewrite !length_take. lia.
Qed.

(** X11: on a validated list, [stats.txt] holds the first so many of the
    texts of the report on the three rankings computed with [top_n = 10],
    each of at most ten entries.  It holds them all when the [with] block
    ends without an exception.  Otherwise the block was ended by the
    [ValueError] of a number of more than 4300 digits or by the
    [UnicodeEncodeError] of a text that cannot be encoded, the file stops
    short of that text, and the run ends with that exception before
    [display_content] is called. *)
Theorem report_holds_top_ten set_iter encodable content :
  (∀ s, set_iter s ≡ₚ elements s) →
  validate_content set_iter content TEMPLATE = Ok true →
  ∃ top_freq top_playtime top_artist n,
    most_played_freq content 10 = Ok top_freq ∧
    most_played_by_playtime content 10 = Ok top_playtime ∧
    top_artist_by_playtime content 10 = Ok top_artist ∧
    (length top_freq ≤ 10)%nat ∧ (length top_playtime ≤ 10)%nat ∧
    (length top_artist ≤ 10)%nat ∧
    stats_file (main set_iter encodable (Some (VList content))) =
      Some (join (take n (report_writes top_freq top_playtime top_artist))) ∧
    ((write_report encodable top_freq top_playtime top_artist).2 = Ok tt ∧
     join (take n (report_writes top_freq top_playtime top_artist)) =
       unlines (report_lines top_freq top_playtime top_artist) ∨
     (n < length (report_writes top_freq top_playtime top_artist))%nat ∧
     ∃ e,
       (e = ValueError ∧
        report_requests top_freq top_playtime top_artist !! n
          = Some (Raise ValueError) ∨
        e = UnicodeEncodeError ∧
        ∃ text,
          report_writes top_freq top_playtime top_artist !! n = Some text ∧
          encodable text = false) ∧
       main set_iter encodable (Some (VList content)) =
         Run (Some (join (take n
                (report_writes top_freq top_playtime top_artist))))
           None (Uncaught e)).
Proof.
  intros Hperm Hvalid.
  destruct (main_validated set_iter encodable Hperm content Hvalid)
    as (f & p & a & Hf & Hp & Ha & Hmain).
  pose proof (validated_well_shaped set_iter Hperm content Hvalid) as Hall.
  destruct (rankings_at_most_ten content f p a Hall Hf Hp Ha)
    as (Hlf & Hlp & Hla).
  destruct (write_report_spec encodable f p a) as (n & Hn & Hfile & Hend).
  exists f, p, a, n. split_and!; try done.
  - rewrite Hmain. destruct (write_report encodable f p a) as [file r].
    simpl in Hfile. subst file.
    destruct r as [u|e|]; [|done..]. by destruct (display_content content).2.
  - destruct Hend as [[Hok Hlen]|[Hlt Hend]].
    + left. split; [done|].
      by rewrite Hlen, take_ge, report_writes_join by lia.
    + right. split; [done|].
      rewrite Hmain. destruct (write_report encodable f p a) as [file r].
      simpl in Hfile, Hend. subst file.
      destruct Hend as [[-> Hreq]|[-> Henc]].
      * exists ValueError. split; [by left|done].
      * exists UnicodeEncodeError. split; [by right|done].
Qed.

Lemma report_holds_top_ten_witness :
  validate_content elements
    [mk_record "2023-01-05 14:30" "artistX" cafe 30000] TEMPLATE = Ok true ∧
  main elements ascii_only
    (Some (VList [mk_record "2023-01-05 14:30" "artistX" cafe 30000])) =
    Run (Some ("Top 10 Most Played:" +:+ nl)) None
      (Uncaught UnicodeEncodeError) ∧
  ∃ n,
    stats_file (main elements ascii_only
      (Some (VList [mk_record "2023-01-05 14:30" "artistX" cafe 30000])))
    = Some (join (take n (report_writes [(cafe, 1)] [(cafe, 30000)]
                            [("artistX", 30000)]))).
Proof.
  split; [vm_compute; reflexivity|]. split; [vm_compute; reflexivity|].
  destruct (report_holds_top_ten elements ascii_only
              [mk_record "2023-01-05 14:30" "artistX" cafe 30000])
    as (f & p & a & n & Hf & Hp & Ha & _ & _ & _ & Hfile & _);
    [intros s; reflexivity | vm_compute; reflexivity |].
  vm_compute in Hf, Hp, Ha.
  injection Hf as <-. injection Hp as <-. injection Ha as <-.
  exists n. exact Hfile.
Defined.




(** * More on the timestamp formatter *)

Lemma reformat_time_ok s out :
  reformat_time s = Ok out →
  ∃ dt, strptime s = Ok dt ∧ valid_datetime dt = true ∧ out = display_text dt.
Proof.
  unfold reformat_time. destruct (strptime s) as [dt| |] eqn:Hparse;
    try discriminate.
  simpl. unfold strftime.
  intros [= <-]. exists dt. split_and!; try done.
  unfold strptime in Hparse.
  destruct (format_regex s) as [|[dt' rest] tl]; [discriminate|].
  destruct (bool_decide (rest = "")); [|discriminate].
  destruct (valid_datetime dt') eqn:Hvalid; [|discriminate].
  by injection Hparse as <-.
Qed.

Lemma format_regex_in_range dt :
  fields_in_range dt → first_match (format_regex (strict_text dt)) (dt, "").
Proof.
  intros (Hy & Hm & Hd & HH & HM).
  destruct dt as [y m d H M]. simpl in *.
  unfold format_regex, strict_text. cbn [year month day hour minute].
  eapply rx_bind_first; [apply re_Y_first; lia|].
  eapply rx_bind_first; [by apply cls_first|].
  eapply rx_bind_first; [by apply re_m_first|].
  eapply rx_bind_first; [by apply cls_first|].
  eapply rx_bind_first; [by apply re_d_first|].
  eapply rx_bind_first; [apply re_spaces_first; lia|].
  eapply rx_bind_first; [by apply re_H_first|].
  eapply rx_bind_first; [by apply cls_first|].
  eapply rx_bind_first;
    [rewrite <- (append_empty_r (pad2 M)); by apply re_M_first|].
  by eexists.
Qed.

(** X13: a text in the exact layout whose fields are in range but which
    names no real day (the year 0000, or a day the month does not have, such
    as 30 February or 29 February of a common year) makes [reformat_time]
    raise [ValueError]. *)
Theorem reformat_time_rejects_impossible_date dt :
  fields_in_range dt →
  year dt = 0 ∨ days_in_month (year dt) (month dt) < day dt →
  reformat_time (strict_text dt) = Raise ValueError.
Proof.
  intros Hrange Hbad.
  destruct (format_regex_in_range dt Hrange) as [tl Hmatch].
  unfold reformat_time, strptime. rewrite Hmatch. simpl.
  assert (Hinvalid : valid_datetime dt = false).
  { apply not_true_is_false. intros Hvalid. unfold valid_datetime in Hvalid.
    rewrite !andb_true_iff, !Z.leb_le in Hvalid. lia. }
  by rewrite Hinvalid.
Qed.

Lemma reformat_time_rejects_impossible_date_witness :
  reformat_time "2023-02-29 12:00" = Raise ValueError.
Proof.
  apply (reformat_time_rejects_impossible_date (Datetime 2023 2 29 12 0)).
  - unfold fields_in_range. simpl. lia.
  - right. vm_compute. reflexivity.
Defined.

(** From the year 1000 on the year in decimal has four digits. *)
Lemma pretty_four_digits y : 1000 ≤ y ≤ 9999 → pretty y = pad4 y.
Proof.
  intros Hy.
  assert (Hall : forallb (λ y, bool_decide (pretty y = pad4 y))
                   (seqZ 1000 9000) = true) by (vm_compute; reflexivity).
  rewrite forallb_forall in Hall.
  eapply bool_decide_eq_true_1, Hall, list_elem_of_In, elem_of_seqZ. lia.
Qed.

Lemma string_length_app (a b : string) :
  String.length (a +:+ b) = (String.length a + String.length b)%nat.
Proof. induction a as [|x a IH]; [done|]. rewrite append_cons. simpl. by rewrite IH. Qed.

Lemma display_text_length dt :
  1 ≤ year dt →
  String.length (display_text dt) = (12 + num_digits (year dt))%nat.
Proof.
  intros Hy. unfold display_text, num_digits.
  rewrite Z.abs_eq by lia. rewrite !string_length_app. simpl. lia.
Qed.

Lemma display_layout_length s :
  display_layout s = true → String.length s = 16%nat.
Proof.
  do 16 (destruct s as [|? s]; [discriminate|]).
  by destruct s.
Qed.

Lemma display_text_layout dt :
  valid_datetime dt = true →
  display_layout (display_text dt) = true ↔ 1000 ≤ year dt.
Proof.
  intros Hvalid.
  pose proof (valid_datetime_ranges dt Hvalid) as (Hy & Hm & Hd & HH & HM).
  split.
  - intros Hlen%display_layout_length.
    rewrite display_text_length in Hlen by lia.
    destruct (Z.le_gt_cases 1000 (year dt)) as [|Hsmall]; [done|].
    assert (num_digits (year dt) ≤ 3)%nat; [|lia].
    apply num_digits_bound; [lia|]. change (10 ^ Z.of_nat 3) with 1000. lia.
  - intros Hbig. unfold display_text.
    rewrite pretty_four_digits by lia.
    destruct dt as [y m d H M]. simpl in *.
    cbv [pad4 pad2 String.append].
    cbn [display_layout forallb].
    rewrite !is_digit_digit_char by (Z.div_mod_to_equations; lia). done.
Qed.

(** X14: what [reformat_time] returns has twelve characters besides the
    year, which is printed in as many digits as it has.  So the result is
    laid out exactly as [MM-DD-YYYY HH:MM], in sixteen characters, when the
    year is 1000 or later, and only then: an earlier year comes out shorter,
    as in ["01-05-999 14:30"]. *)
Theorem reformat_time_output_layout s out :
  reformat_time s = Ok out →
  ∃ dt, strptime s = Ok dt ∧
    String.length out = (12 + num_digits (year dt))%nat ∧
    (display_layout out = true ↔ 1000 ≤ year dt).
Proof.
  intros (dt & Hparse & Hvalid & ->)%reformat_time_ok.
  exists dt. split; [done|].
  pose proof (valid_datetime_ranges dt Hvalid) as (Hy & _).
  split; [apply display_text_length; lia|by apply display_text_layout].
Qed.

Lemma reformat_time_output_layout_witness :
  reformat_time "0999-01-05 14:30" = Ok "01-05-999 14:30" ∧
  String.length "01-05-999 14:30" = 15%nat ∧
  display_layout "01-05-999 14:30" ≠ true.
Proof.
  split; [vm_compute; reflexivity|].
  destruct (reformat_time_output_layout "0999-01-05 14:30" "01-05-999 14:30")
    as (dt & Hparse & Hlen & Hlayout); [vm_compute; reflexivity|].
  vm_compute in Hparse. injection Hparse as <-.
  split; [exact Hlen|]. intros Hyes%Hlayout. simpl in Hyes. lia.
Defined.

Lemma re_Y_display a b rest :
  is_digit a = true → is_digit b = true →
  re_Y (String a (String b (String "-" rest))) = [].
Proof.
  intros Ha Hb. unfold re_Y, one, rx_bind, cls, rx_ret. simpl.
  rewrite Ha. simpl. rewrite Hb. done.
Qed.

Lemma reformat_time_display_text dt :
  valid_datetime dt = true →
  reformat_time (display_text dt) = Raise ValueError.
Proof.
  intros (_ & Hm & _)%valid_datetime_ranges.
  unfold reformat_time, strptime, format_regex, rx_bind.
  unfold display_text, pad2 at 1. rewrite !append_cons, !append_empty_l.
  rewrite re_Y_display; [done|apply is_digit_digit_char..];
    Z.div_mod_to_equations; lia.
Qed.

(** X15: [reformat_time] cannot be applied to its own result: the text it
    returns has a dash where the pattern wants the third digit of the year,
    so a second call raises [ValueError]. *)
Theorem reformat_time_rejects_own_output s out :
  reformat_time s = Ok out → reformat_time out = Raise ValueError.
Proof.
  intros (dt & _ & Hvalid & ->)%reformat_time_ok.
  by apply reformat_time_display_text.
Qed.

Lemma reformat_time_rejects_own_output_witness :
  reformat_time "2023-01-05 14:30" = Ok "01-05-2023 14:30" ∧
  reformat_time "01-05-2023 14:30" = Raise ValueError.
Proof.
  split; [vm_compute; reflexivity|].
  apply (reformat_time_rejects_own_output "2023-01-05 14:30").
  vm_compute. reflexivity.
Defined.

Lemma digit_char_inj a b :
  0 ≤ a ≤ 9 → 0 ≤ b ≤ 9 → digit_char a = digit_char b → a = b.
Proof.
  intros Ha Hb Heq.
  destruct (digit_char_facts a Ha) as (_ & _ & <-).
  destruct (digit_char_facts b Hb) as (_ & _ & <-).
  by rewrite Heq.
Qed.

Lemma two_digits_inj a b :
  0 ≤ a ≤ 99 → 0 ≤ b ≤ 99 →
  digit_char (a `div` 10) = digit_char (b `div` 10) →
  digit_char (a `mod` 10) = digit_char (b `mod` 10) → a = b.
Proof.
  intros Ha Hb Hq%digit_char_inj Hr%digit_char_inj;
    Z.div_mod_to_equations; lia.
Qed.

Lemma display_text_inj dt1 dt2 :
  valid_datetime dt1 = true → valid_datetime dt2 = true →
  display_text dt1 = display_text dt2 → dt1 = dt2.
Proof.
  intros (Hy1 & Hm1 & Hd1 & HH1 & HM1)%valid_datetime_ranges
         (Hy2 & Hm2 & Hd2 & HH2 & HM2)%valid_datetime_ranges.
  destruct dt1 as [y1 m1 d1 H1 M1], dt2 as [y2 m2 d2 H2 M2]. simpl in *.
  unfold display_text. cbn [year month day hour minute].
  unfold pad2 at 1 2 5 6. rewrite !append_cons, !append_empty_l.
  intros [= Em1 Em2 Ed1 Ed2 Heq].
  change (" " +:+ ?x) with (String " " x) in Heq.
  apply (append_split " ") in Heq as [Hy Heq];
    [|by apply pretty_Z_lacks..].
  apply (inj pretty) in Hy as ->.
  unfold pad2 in Heq. rewrite !append_cons, !append_empty_l in Heq.
  injection Heq as EH1 EH2 EM1 EM2.
  assert (m1 = m2) as -> by (apply two_digits_inj; (done || lia)).
  assert (d1 = d2) as -> by (apply two_digits_inj; (done || lia)).
  assert (H1 = H2) as -> by (apply two_digits_inj; (done || lia)).
  assert (M1 = M2) as -> by (apply two_digits_inj; (done || lia)).
  done.
Qed.

(** X16: reformatting loses nothing of the date: two texts for which
    [reformat_time] returns the same result were parsed to the same date and
    time. *)
Theorem reformat_time_keeps_the_date s1 s2 out :
  reformat_time s1 = Ok out → reformat_time s2 = Ok out →
  strptime s1 = strptime s2.
Proof.
  intros (dt1 & -> & Hv1 & ->)%reformat_time_ok
         (dt2 & -> & Hv2 & Heq)%reformat_time_ok.
  f_equal. by apply display_text_inj.
Qed.

Lemma reformat_time_keeps_the_date_witness :
  strptime "2023-01-05 14:30" = strptime "2023-1-5  14:30".
Proof.
  apply (reformat_time_keeps_the_date _ _ "01-05-2023 14:30");
    vm_compute; reflexivity.
Defined.

(** * More on the duration formatter *)

Lemma duration_text_inj a b :
  duration_text a = duration_text b →
  ms_mins a = ms_mins b ∧ ms_sec a = ms_sec b.
Proof.
  unfold duration_text. intros Heq.
  change ("m " +:+ ?x) with (String "m" (String " " x)) in Heq.
  apply (append_split "m") in Heq as [Hmins Heq];
    [|by apply pretty_Z_lacks..].
  injection Heq as Heq.
  apply (append_split "s") in Heq as [Hsec _];
    [|by apply pretty_Z_lacks..].
  split; by apply (inj pretty).
Qed.

(** X17: [ms_to_min] cuts the milliseconds off and rounds nothing.  For
    every integer whose minutes are below [10 ^ 4300] in absolute value, the
    limit of what Python prints, it returns the minutes and the seconds in
    decimal; the seconds shown lie in 0..59, and the minutes and seconds
    shown add up to the largest whole number of seconds not above the
    playtime. *)
Theorem ms_to_min_truncates ms :
  Z.abs (ms_mins ms) < 10 ^ 4300 →
  ms_to_min ms =
    Ok (pretty (ms_mins ms) +:+ "m " +:+ pretty (ms_sec ms) +:+ "s") ∧
  0 ≤ ms_sec ms ≤ 59 ∧
  60 * ms_mins ms + ms_sec ms = ms `div` 1000 ∧
  (0 ≤ ms → 0 ≤ ms_mins ms).
Proof.
  intros Hmins. split; [by apply ms_to_min_ok, printable_iff|].
  clear Hmins. unfold ms_mins, ms_sec.
  split_and!; [| | |intros ?]; Z.div_mod_to_equations; lia.
Qed.

Lemma ms_to_min_truncates_witness :
  ms_to_min 3599999 = Ok "59m 59s" ∧ 0 ≤ ms_sec 3599999 ≤ 59.
Proof.
  destruct (ms_to_min_truncates 3599999) as (Hrun & Hsec & _ & _).
  - vm_compute. reflexivity.
  - split; [|exact Hsec]. rewrite Hrun. vm_compute. reflexivity.
Defined.

(** X18: a playtime whose minutes can be printed is printed like another
    one exactly when the two agree up to the milliseconds cut off, that is
    when they hold the same whole number of seconds. *)
Theorem ms_to_min_same_text_iff a b :
  Z.abs (ms_mins a) < 10 ^ 4300 →
  ms_to_min a = ms_to_min b ↔ a `div` 1000 = b `div` 1000.
Proof.
  intros Ha%printable_iff. rewrite (ms_to_min_ok a Ha). split.
  - intros Hb. symmetry in Hb. apply ms_to_min_inv in Hb as [_ Hb].
    apply duration_text_inj in Hb as [Hmins Hsec]. unfold ms_mins, ms_sec in *.
    Z.div_mod_to_equations. lia.
  - intros Heq.
    assert (Hmins : ms_mins a = ms_mins b).
    { unfold ms_mins. Z.div_mod_to_equations. lia. }
    assert (Hsec : ms_sec a = ms_sec b).
    { unfold ms_sec. Z.div_mod_to_equations. lia. }
    rewrite ms_to_min_ok by (by rewrite <- Hmins).
    unfold duration_text. by rewrite Hmins, Hsec.
Qed.

Lemma ms_to_min_same_text_iff_witness : ms_to_min 65000 = ms_to_min 65999.
Proof.
  apply (ms_to_min_same_text_iff 65000 65999); vm_compute; reflexivity.
Defined.

(** * More on the display *)

Lemma normalized_dict entry entry' :
  well_shaped entry → normalized entry entry' →
  ∃ d', entry' = VDict d' ∧ dom d' = schema_keys.
Proof.
  intros (d & -> & Hdom & _) (d0 & t & t' & ms & [= <-] & _ & _ & _ & ->).
  eexists. split; [done|]. rewrite !dom_insert_L, Hdom.
  unfold schema_keys. set_solver.
Qed.

Lemma normalized_all_dicts content content' :
  Forall well_shaped content → Forall2 normalized content content' →
  Forall (λ entry, ∃ d, entry = VDict d ∧ dom d = schema_keys) content'.
Proof.
  intros Hall Hn. induction Hn as [|e e' l l' He _ IH]; [constructor|].
  apply Forall_cons_1 in Hall as [Hshape Hall].
  constructor; [by eapply normalized_dict|by apply IH].
Qed.

Lemma traverse_table_rows (columns : gset string) content :
  Forall (λ entry, ∃ d, entry = VDict d ∧ dom d = columns) content →
  ∃ rows, traverse (table_row columns) content = Ok rows ∧
          VDict <$> rows = content.
Proof.
  induction 1 as [|entry content (d & -> & Hdom) _ (rows & IH & Hrows)].
  - by exists [].
  - exists (d :: rows). cbn [traverse table_row].
    rewrite decide_True by (by rewrite Hdom).
    rewrite map_filter_id, IH, fmap_cons, Hrows; [done|].
    intros k v Hk. simpl. rewrite <- Hdom. by apply elem_of_dom.
Qed.

(** X19: on a validated list all of whose timestamps reformat and all of
    whose playtimes print, [display_content] hands the table one row per
    record, in order, each row holding the rewritten record; and when the
    [with] block has written the report without an exception, the run
    leaves that report in [stats.txt], shows these rows (given a display to
    open the window on) and returns normally once the window is closed. *)
Theorem main_shows_rewritten_records set_iter encodable content :
  (∀ s, set_iter s ≡ₚ elements s) →
  validate_content set_iter content TEMPLATE = Ok true →
  Forall timestamp_ok content → Forall playtime_ok content →
  ∃ rows,
    display_content content = (VDict <$> rows, Ok rows) ∧
    Forall2 (λ entry row, normalized entry (VDict row)) content rows ∧
    ∀ top_freq top_playtime top_artist file,
      most_played_freq content 10 = Ok top_freq →
      most_played_by_playtime content 10 = Ok top_playtime →
      top_artist_by_playtime content 10 = Ok top_artist →
      write_report encodable top_freq top_playtime top_artist
        = (file, Ok tt) →
      main set_iter encodable (Some (VList content)) =
        Run (Some file) (Some rows) Returned.
Proof.
  intros Hperm Hvalid Hok Hplay.
  destruct (proj1 (validate_content_true_iff set_iter Hperm content) Hvalid)
    as [Hne Hall].
  destruct (normalize_loop_ok content Hall Hok Hplay)
    as (content' & Hloop & Hn).
  pose proof (normalized_all_dicts content content' Hall Hn) as Hdicts.
  destruct (traverse_table_rows schema_keys content' Hdicts)
    as (rows & Hrows & Hcontent').
  assert (Hrun : display_content content = (VDict <$> rows, Ok rows)).
  { unfold display_content. rewrite Hloop, Hcontent'.
    destruct content' as [|first content'].
    { apply Forall2_nil_inv_r in Hn. done. }
    apply Forall_cons_1 in Hdicts as [(d & -> & Hdom) _].
    by rewrite Hdom, Hrows. }
  exists rows. split; [exact Hrun|]. split.
  { subst content'. clear -Hn. revert Hn. generalize content.
    induction rows as [|row rows IH]; intros l Hn.
    - apply Forall2_nil_inv_r in Hn as ->. constructor.
    - rewrite fmap_cons in Hn. apply Forall2_cons_inv_r in Hn
        as (e & l' & He & Hl & ->). constructor; [done|by apply IH]. }
  intros f p a file Hf Hp Ha Hfile.
  destruct (main_validated set_iter encodable Hperm content Hvalid)
    as (f' & p' & a' & Hf' & Hp' & Ha' & ->).
  rewrite Hf in Hf'. injection Hf' as <-.
  rewrite Hp in Hp'. injection Hp' as <-.
  rewrite Ha in Ha'. injection Ha' as <-.
  by rewrite Hfile, Hrun.
Qed.

Lemma main_shows_rewritten_records_witness :
  validate_content elements
    [mk_record "2023-01-05 14:30" "artistX" "trackA" 65000] TEMPLATE
    = Ok true ∧
  ending_of (main elements any_text
    (Some (VList [mk_record "2023-01-05 14:30" "artistX" "trackA" 65000])))
    = Returned.
Proof.
  split; [vm_compute; reflexivity|].
  destruct (main_shows_rewritten_records elements any_text
              [mk_record "2023-01-05 14:30" "artistX" "trackA" 65000])
    as (rows & _ & _ & Hmain).
  - intros s. reflexivity.
  - vm_compute. reflexivity.
  - constructor; [|constructor].
    exists "2023-01-05 14:30", "01-05-2023 14:30".
    split; vm_compute; reflexivity.
  - constructor; [|constructor].
    exists 65000, "1m 5s". split; vm_compute; reflexivity.
  - erewrite Hmain; [reflexivity|vm_compute; reflexivity..].
Defined.

(** X20: when [reformat_time] raises on a record, [display_content] ends
    with that exception and leaves the list half rewritten: the records
    before the offending one, whose timestamps reformat and whose playtimes
    print, hold the display texts; the offending one and those after it are
    as they were. *)
Theorem display_content_stops_half_way pre bad rest t e :
  Forall well_shaped pre → Forall timestamp_ok pre → Forall playtime_ok pre →
  getitem bad "endTime" = Ok (VStr t) → reformat_time t = Raise e →
  ∃ pre',
    display_content (pre ++ bad :: rest) = (pre' ++ bad :: rest, Raise e) ∧
    Forall2 normalized pre pre'.
Proof.
  intros Hpre Hok Hplay Ht He.
  destruct (normalize_loop_raises pre bad rest t e Hpre Hok Hplay Ht He)
    as (pre' & Hloop & Hn).
  exists pre'. split; [|done]. unfold display_content. by rewrite Hloop.
Qed.

Lemma display_content_stops_half_way_witness :
  ∃ pre',
    display_content
      ([mk_record "2023-01-05 14:30" "artistX" "trackA" 65000] ++
       mk_record "2023/01/05 14:30" "artistY" "trackB" 1000 ::
       [mk_record "2023-01-05 14:40" "artistY" "trackB" 1000])
    = (pre' ++ mk_record "2023/01/05 14:30" "artistY" "trackB" 1000 ::
         [mk_record "2023-01-05 14:40" "artistY" "trackB" 1000],
       Raise ValueError) ∧
    Forall2 normalized
      [mk_record "2023-01-05 14:30" "artistX" "trackA" 65000] pre'.
Proof.
  apply (display_content_stops_half_way _ _ _ "2023/01/05 14:30").
  - constructor; [apply mk_record_well_shaped|constructor].
  - constructor; [|constructor].
    exists "2023-01-05 14:30", "01-05-2023 14:30".
    split; vm_compute; reflexivity.
  - constructor; [|constructor].
    exists 65000, "1m 5s". split; vm_compute; reflexivity.
  - vm_compute. reflexivity.
  - vm_compute. reflexivity.
Defined.

(** X21: [display_content] cannot be run twice on the same list.  After a
    first call on a validated, non-empty list whose timestamps reformat, a
    second call raises [ValueError] at the first record, whose timestamp is
    no longer in the input format, and changes nothing. *)
Theorem display_content_twice set_iter content :
  (∀ s, set_iter s ≡ₚ elements s) →
  validate_content set_iter content TEMPLATE = Ok true →
  Forall timestamp_ok content →
  display_content (display_content content).1 =
    ((display_content content).1, Raise ValueError).
Proof.
  intros Hperm Hvalid Hok.
  destruct (proj1 (validate_content_true_iff set_iter Hperm content) Hvalid)
    as [Hne Hall].
  destruct content as [|entry content]; [done|].
  apply Forall_cons_1 in Hall as [Hentry _].
  apply Forall_cons_1 in Hok as [(t & t' & Ht & Ht') _].
  pose proof Hentry as (d & -> & _).
  simpl in Ht. destruct (d !! "endTime") as [v|] eqn:Hend; [|done].
  injection Ht as ->.
  destruct (normalize_entry_cases d t t' Hentry Hend Ht')
    as (d' & Hturn & Hend').
  assert (Hfst : ∃ rest', (display_content (VDict d :: content)).1
                          = VDict d' :: rest').
  { unfold display_content. cbn [normalize_loop].
    destruct Hturn as [-> | ->]; [|by eexists].
    destruct (normalize_loop content) as [rest' [u|e|]]; by eexists. }
  destruct Hfst as (rest' & ->).
  unfold display_content. cbn [normalize_loop].
  rewrite (normalize_entry_raises _ t' ValueError); [done| |].
  - simpl. by rewrite Hend'.
  - destruct (reformat_time_ok _ _ Ht') as (dt & _ & Hv & ->).
    by apply reformat_time_display_text.
Qed.

Lemma display_content_twice_witness :
  validate_content elements
    [mk_record "2023-01-05 14:30" "artistX" "trackA" 65000] TEMPLATE
    = Ok true ∧
  (display_content
     (display_content
        [mk_record "2023-01-05 14:30" "artistX" "trackA" 65000]).1).2
    = Raise ValueError.
Proof.
  split; [vm_compute; reflexivity|].
  rewrite (display_content_twice elements);
    [reflexivity | intros s; reflexivity | vm_compute; reflexivity |].
  constructor; [|constructor].
  exists "2023-01-05 14:30", "01-05-2023 14:30".
  split; vm_compute; reflexivity.
Defined.

Lemma normalize_loop_fails pre bad bad' rest (r : outcome unit) :
  Forall well_shaped pre → Forall timestamp_ok pre → Forall playtime_ok pre →
  normalize_entry bad = (bad', r) → (∀ u, r ≠ Ok u) →
  ∃ pre', normalize_loop (pre ++ bad :: rest) = (pre' ++ bad' :: rest, r) ∧
    Forall2 normalized pre pre'.
Proof.
  intros Hpre Hok Hplay Hbad Hr. induction Hpre as [|entry pre Hentry _ IH].
  - exists []. split; [|constructor]. simpl. rewrite Hbad.
    destruct r as [u| |]; [by destruct (Hr u)|done..].
  - apply Forall_cons_1 in Hok as [Hok1 Hok].
    apply Forall_cons_1 in Hplay as [Hplay1 Hplay].
    destruct (normalize_entry_ok entry Hentry Hok1 Hplay1)
      as (entry' & Hrun & Hn).
    destruct (IH Hok Hplay) as (pre' & Hloop & Hall).
    exists (entry' :: pre'). simpl. rewrite Hrun, Hloop.
    split; [done|by constructor].
Qed.

(** X22: after records whose timestamps reformat and whose playtimes print,
    a record without [endTime] makes [display_content] raise [KeyError] and
    stays untouched, but a record whose timestamp reformats and which has no
    [msPlayed] is left with its [endTime] already overwritten when the
    [KeyError] is raised. *)
Theorem display_content_missing_key pre (d : gmap string value) rest :
  Forall well_shaped pre → Forall timestamp_ok pre → Forall playtime_ok pre →
  ∃ pre', Forall2 normalized pre pre' ∧
    (d !! "endTime" = None →
       display_content (pre ++ VDict d :: rest) =
         (pre' ++ VDict d :: rest, Raise KeyError)) ∧
    (∀ t t', d !! "endTime" = Some (VStr t) → reformat_time t = Ok t' →
       d !! "msPlayed" = None →
       display_content (pre ++ VDict d :: rest) =
         (pre' ++ VDict (<["endTime" := VStr t']> d) :: rest,
          Raise KeyError)).
Proof.
  intros Hpre Hok Hplay.
  destruct (normalize_loop_ok pre Hpre Hok Hplay) as (pre' & Hloop & Hn).
  exists pre'. split; [done|].
  assert (Hrun : ∀ bad' e, normalize_entry (VDict d) = (bad', Raise e) →
    display_content (pre ++ VDict d :: rest) = (pre' ++ bad' :: rest, Raise e)).
  { intros bad' e Hbad.
    destruct (normalize_loop_fails pre (VDict d) bad' rest (Raise e)
                Hpre Hok Hplay Hbad) as (pre'' & Hloop' & Hn'); [done|].
    unfold display_content. rewrite Hloop'. f_equal. f_equal.
    clear -Hn Hn'. revert pre'' Hn'.
    induction Hn as [|x y l l' Hxy _ IH]; intros pre'' Hn'.
    - by apply Forall2_nil_inv_l in Hn' as ->.
    - apply Forall2_cons_inv_l in Hn' as (y' & l'' & Hxy' & Hl & ->).
      rewrite (IH _ Hl). f_equal.
      destruct Hxy as (d1 & t1 & t1' & ms1 & -> & Ht1 & Hr1 & Hms1 & ->).
      destruct Hxy' as (d2 & t2 & t2' & ms2 & [= <-] & Ht2 & Hr2 & Hms2 & ->).
      congruence. }
  split.
  - intros Hnone. apply Hrun. unfold normalize_entry. simpl. by rewrite Hnone.
  - intros t t' Ht Ht' Hnone. apply Hrun. unfold normalize_entry. simpl.
    rewrite Ht. simpl. rewrite Ht'.
    by rewrite lookup_insert_ne, Hnone by done.
Qed.

Lemma display_content_missing_key_witness :
  ∃ pre',
    Forall2 normalized
      [mk_record "2023-01-05 14:30" "artistX" "trackA" 65000] pre' ∧
    display_content
      ([mk_record "2023-01-05 14:30" "artistX" "trackA" 65000] ++
       VDict (<["endTime" := VStr "2023-01-05 14:35"]> ∅) :: []) =
      (pre' ++ VDict (<["endTime" := VStr "01-05-2023 14:35"]>
                        (<["endTime" := VStr "2023-01-05 14:35"]> ∅)) :: [],
       Raise KeyError).
Proof.
  destruct (display_content_missing_key
              [mk_record "2023-01-05 14:30" "artistX" "trackA" 65000]
              (<["endTime" := VStr "2023-01-05 14:35"]> ∅) [])
    as (pre' & Hn & _ & Hhalf).
  - constructor; [apply mk_record_well_shaped|constructor].
  - constructor; [|constructor].
    exists "2023-01-05 14:30", "01-05-2023 14:30".
    split; vm_compute; reflexivity.
  - constructor; [|constructor].
    exists 65000, "1m 5s". split; vm_compute; reflexivity.
  - exists pre'. split; [exact Hn|].
    apply (Hhalf "2023-01-05 14:35"); vm_compute; reflexivity.
Defined.

Lemma reformat_time_raises s e : reformat_time s = Raise e → e = ValueError.
Proof.
  unfold reformat_time, strptime, strftime.
  repeat case_match; simpl; repeat case_match; congruence.
Qed.

Lemma normalize_entry_no_index_error entry entry' :
  normalize_entry entry ≠ (entry', Raise IndexError).
Proof.
  unfold normalize_entry.
  destruct (getitem entry "endTime") as [t| |] eqn:Ht; simpl.
  - destruct t; simpl; try congruence.
    destruct (reformat_time s) as [t'|e|] eqn:Hre; try congruence.
    + destruct (getitem _ "msPlayed") as [m| |] eqn:Hm; simpl.
      * destruct m as [|b|z| | | |]; simpl; try congruence.
        -- destruct (ms_to_min (Z.b2z b)) as [m'|e|] eqn:Hrun; try congruence.
           apply ms_to_min_error in Hrun as ->. congruence.
        -- destruct (ms_to_min z) as [m'|e|] eqn:Hrun; try congruence.
           apply ms_to_min_error in Hrun as ->. congruence.
      * destruct entry; simpl in Hm; repeat case_match; congruence.
      * congruence.
    + apply reformat_time_raises in Hre as ->. congruence.
  - destruct entry; simpl in Ht; repeat case_match; congruence.
  - congruence.
Qed.

Lemma normalize_loop_no_index_error content content' :
  normalize_loop content ≠ (content', Raise IndexError).
Proof.
  revert content'. induction content as [|entry content IH]; intros content'.
  - discriminate.
  - simpl. destruct (normalize_entry entry) as [entry' r] eqn:Hentry.
    destruct r as [u|e|].
    + destruct (normalize_loop content) as [rest' r'] eqn:Hloop.
      intros [= <- ->]. by apply (IH rest').
    + intros [= <- ->]. by apply (normalize_entry_no_index_error entry entry').
    + discriminate.
Qed.

Lemma normalize_loop_length content :
  length (normalize_loop content).1 = length content.
Proof.
  induction content as [|entry content IH]; [done|]. simpl.
  destruct (normalize_entry entry) as [entry' [u|e|]]; simpl; try done.
  destruct (normalize_loop content) as [rest' r']. simpl in *. by rewrite IH.
Qed.

Lemma traverse_table_row_no_index_error columns content :
  traverse (table_row columns) content ≠ Raise IndexError.
Proof.
  induction content as [|entry content IH]; [discriminate|].
  simpl. destruct (table_row columns entry) as [row|e|] eqn:Hrow; simpl.
  - destruct (traverse (table_row columns) content); simpl; congruence.
  - unfold table_row in Hrow. repeat case_match; congruence.
  - discriminate.
Qed.

(** X23: [display_content] raises [IndexError] on the empty list and on no
    other: with no record the loop has nothing to do and [content[0]] fails
    when the columns are read off the first record. *)
Theorem display_content_index_error content :
  (display_content content).2 = Raise IndexError ↔ content = [].
Proof.
  split; [|by intros ->].
  unfold display_content. intros Hrun.
  pose proof (normalize_loop_length content) as Hlen.
  destruct (normalize_loop content) as [content' r] eqn:Hloop.
  destruct r as [u|e|]; simpl in *.
  - destruct content' as [|first content'].
    + by destruct content.
    + destruct first; try discriminate.
      by apply traverse_table_row_no_index_error in Hrun.
  - injection Hrun as ->.
    by apply normalize_loop_no_index_error in Hloop.
  - discriminate.
Qed.

Lemma display_content_index_error_witness :
  (display_content []).2 = Raise IndexError.
Proof. by apply (display_content_index_error []). Defined.

(** * Logging *)

Lemma wrapped_succ n c s : wrapped (S n) c s = wrapped n c (c +:+ s +:+ RESET).
Proof.
  induction n as [|n IH]; [done|].
  change (wrapped (S (S n)) c s) with (c +:+ wrapped (S n) c s +:+ RESET).
  by rewrite IH.
Qed.

Lemma emit_lookup formatTime n record i :
  (i < n)%nat →
  emit formatTime n record !! i =
    Some (BOLD_BLUE +:+ formatTime (created record) +:+ RESET +:+ ": " +:+
          wrapped (S i) (log_color (levelno record)) (levelname record) +:+
          " - " +:+ msg record).
Proof.
  revert record i. induction n as [|n IH]; intros record i Hi; [lia|].
  destruct i as [|i].
  - simpl. by rewrite !append_assoc.
  - cbn [emit LogFormatter_format lookup list_lookup].
    rewrite IH by lia. cbn [levelno levelname msg created].
    by rewrite (wrapped_succ (S i)).
Qed.

(** X24: the formatter stores the coloured level name back into the record.
    With the [n] handlers that [n] calls of [init_logger] leave on the
    logger, a message is written [n] times, and the line of the handler
    number [i] (from 0) carries the colour code and [RESET] around the level
    name [i + 1] times. *)
Theorem log_lines_nest_colours formatTime n record i :
  (i < Nat.iter n init_logger 0)%nat →
  length (emit formatTime (Nat.iter n init_logger 0%nat) record) = n ∧
  emit formatTime (Nat.iter n init_logger 0%nat) record !! i =
    Some (BOLD_BLUE +:+ formatTime (created record) +:+ RESET +:+ ": " +:+
          wrapped (S i) (log_color (levelno record)) (levelname record) +:+
          " - " +:+ msg record).
Proof.
  assert (Hn : Nat.iter n init_logger 0%nat = n).
  { induction n as [|n IH]; [done|]. simpl. by rewrite IH. }
  rewrite Hn. intros Hi. split; [|by apply emit_lookup].
  clear. revert record. induction n as [|n IH]; intros record; [done|].
  simpl. by rewrite IH.
Qed.

Lemma log_lines_nest_colours_witness :
  emit (λ _, "14:30:00 2023-01-05") (init_logger (init_logger 0%nat))
    (LogRecord 20 "INFO" "Logger intialized." "" 0) !! 1%nat =
  Some (BOLD_BLUE +:+ "14:30:00 2023-01-05" +:+ RESET +:+ ": " +:+
        GREEN +:+ GREEN +:+ "INFO" +:+ RESET +:+ RESET +:+
        " - Logger intialized.").
Proof.
  destruct (log_lines_nest_colours (λ _, "14:30:00 2023-01-05") 2
              (LogRecord 20 "INFO" "Logger intialized." "" 0) 1)
    as [_ Hline]; [cbv; lia|].
  change (Nat.iter 2 init_logger 0%nat)
    with (init_logger (init_logger 0%nat)) in Hline.
  rewrite Hline. vm_compute. reflexivity.
Defined.

(** * Totals of the rankings *)

Lemma sum_scores_add d k v : sum_scores (dict_add d k v) = sum_scores d + v.
Proof.
  unfold sum_scores. induction d as [|[k0 x] d IH]; simpl; [lia|].
  destruct (decide (k0 = k)); simpl; lia.
Qed.

Lemma sum_scores_add_all items d :
  sum_scores (add_all items d) = sum_scores d + sum_scores items.
Proof.
  revert d. induction items as [|[k v] items IH]; intros d.
  - unfold sum_scores. simpl. lia.
  - cbn [add_all]. rewrite IH, sum_scores_add. unfold sum_scores. simpl. lia.
Qed.

Lemma sum_scores_perm l1 l2 : l1 ≡ₚ l2 → sum_scores l1 = sum_scores l2.
Proof.
  unfold sum_scores. induction 1; simpl; lia.
Qed.

Lemma sum_scores_counts (names : list string) :
  sum_scores ((λ k, (k, 1)) <$> names) = Z.of_nat (length names).
Proof.
  unfold sum_scores. induction names as [|k names IH]; [done|].
  rewrite fmap_cons. cbn [foldr snd length]. lia.
Qed.

Lemma well_shaped_names field content :
  field = "trackName" ∨ field = "artistName" →
  Forall well_shaped content →
  length (omap (field_name field) content) = length content.
Proof.
  intros Hfield. induction 1 as [|entry content Hentry _ IH]; [done|].
  destruct (well_shaped_items entry Hentry)
    as (t & a & z & _ & _ & _ & Ht & Ha & _).
  rewrite omap_cons. destruct Hfield as [-> | ->].
  - rewrite Ht. simpl. by rewrite IH.
  - rewrite Ha. simpl. by rewrite IH.
Qed.

Lemma sum_scores_play field content :
  field = "trackName" ∨ field = "artistName" →
  Forall well_shaped content →
  sum_scores (omap (play_item field) content) = total_playtime content.
Proof.
  intros Hfield. unfold sum_scores, total_playtime.
  induction 1 as [|entry content Hentry _ IH]; [done|].
  destruct (well_shaped_items entry Hentry)
    as (t & a & z & _ & _ & _ & Ht & Ha & Hz).
  rewrite omap_cons. unfold play_item at 1. rewrite Hz.
  destruct Hfield as [-> | ->].
  - rewrite Ht. cbn [mbind option_bind foldr snd]. by rewrite IH, Hz.
  - rewrite Ha. cbn [mbind option_bind foldr snd]. by rewrite IH, Hz.
Qed.

(** X25: nothing is lost when [top_n] does not truncate.  On validated
    records and for [top_n] at least the number of records, the counts of the
    frequency ranking add up to the number of records, and the scores of each
    playtime ranking add up to the summed [msPlayed] of all records. *)
Theorem rankings_add_up set_iter content top_n :
  (∀ s, set_iter s ≡ₚ elements s) →
  validate_content set_iter content TEMPLATE = Ok true →
  Z.of_nat (length content) ≤ top_n →
  ∃ top_freq top_playtime top_artist,
    most_played_freq content top_n = Ok top_freq ∧
    most_played_by_playtime content top_n = Ok top_playtime ∧
    top_artist_by_playtime content top_n = Ok top_artist ∧
    sum_scores top_freq = Z.of_nat (length content) ∧
    sum_scores top_playtime = total_playtime content ∧
    sum_scores top_artist = total_playtime content.
Proof.
  intros Hperm Hvalid Hn.
  destruct (proj1 (validate_content_true_iff set_iter Hperm content) Hvalid)
    as [Hne Hall].
  destruct (rankings_structure content top_n Hall) as (-> & -> & ->).
  assert (Hpos : 0 < top_n).
  { destruct content; [done|]. simpl in Hn. lia. }
  assert (Hfull : ∀ items : list (string * Z),
    (length items ≤ length content)%nat →
    take (Z.to_nat top_n) (sorted_desc (add_all items []))
      = sorted_desc (add_all items [])).
  { intros items Hlen. apply take_ge.
    rewrite (Permutation_length (sorted_desc_perm _)).
    pose proof (add_all_length items []). simpl in *. lia. }
  unfold most_common, slice_to.
  destruct (Z.leb_spec top_n 0); [lia|]. destruct (Z.ltb_spec top_n 0); [lia|].
  rewrite !Hfull by (rewrite ?length_fmap; apply length_omap_le).
  eexists _, _, _. split_and!; try done.
  - rewrite (sum_scores_perm _ _ (sorted_desc_perm _)), sum_scores_add_all.
    rewrite sum_scores_counts, well_shaped_names by (done || by left). done.
  - rewrite (sum_scores_perm _ _ (sorted_desc_perm _)), sum_scores_add_all.
    rewrite sum_scores_play by (done || by left). done.
  - rewrite (sum_scores_perm _ _ (sorted_desc_perm _)), sum_scores_add_all.
    rewrite sum_scores_play by (done || by right). done.
Qed.

Lemma rankings_add_up_witness :
  validate_content elements
    (scenario "2023-01-05 14:30" "2023-01-05 14:35" "2023-01-05 14:40")
    TEMPLATE = Ok true ∧
  ∃ top_playtime,
    most_played_by_playtime
      (scenario "2023-01-05 14:30" "2023-01-05 14:35" "2023-01-05 14:40") 10
      = Ok top_playtime ∧
    sum_scores top_playtime = 660000.
Proof.
  split; [vm_compute; reflexivity|].
  destruct (rankings_add_up elements
              (scenario "2023-01-05 14:30" "2023-01-05 14:35"
                 "2023-01-05 14:40") 10)
    as (f & p & a & _ & Hp & _ & _ & Hsum & _);
    [intros s; reflexivity | vm_compute; reflexivity | simpl; lia |].
  exists p. split; [exact Hp|]. rewrite Hsum. vm_compute. reflexivity.
Defined.
